(** * YouTube downloader backend: request handlers, progress map, temp files

    A shallow embedding of the Express server (route handlers, the
    in-memory [downloadProgress] map, the temporary files under [tempDir])
    and the properties of its download pipeline.

    Conventions of the embedding:
    - strings are ASCII strings; JavaScript numbers that the server
      computes are integers, [Infinity] or [NaN] (type [number]);
    - a progress record is a JavaScript object: a finite map from field
      names to values ([gmap string jsval]);
    - the external systems (ytdl-core, ffmpeg, the uuid generator, the
      client's file transfer) are inputs: what they return or emit during
      one request is given to the handler as data;
    - a handler is a state-passing function over the server state; the
      state carries the chronological [trace] of what the handler did;
    - the run of one request is one step of the server. In the running
      server the callbacks of concurrent downloads interleave; a download
      writes only the entry and the files of its own session id
      ([keeps_download_handler], [files_named_with_session_id]), so the
      steps of sessions with different ids do not disturb each other;
    - a stream emits its 'progress' events before its 'finish' or 'error'
      event, and arithmetic on byte counters is exact. *)

From Stdlib Require Import ZArith Ascii String List Permutation Sorted Lia.
From stdpp Require Import base option gmap strings list fin_maps pretty sorting.

Local Open Scope string_scope.
Local Open Scope list_scope.
Local Open Scope Z_scope.
Local Set Warnings "-register-all,-clear-no-such-hyp".

(** ** JavaScript values *)

Inductive number :=
| Int (z : Z)
| Infinity
| NaN.

Inductive jsval :=
| JUndefined
| JNull
| JBool (b : bool)
| JNum (n : number)
| JStr (s : string)
| JObject (fields : list (string * jsval)).

Definition num_add (a b : number) : number :=
  match a, b with
  | Int x, Int y => Int (x + y)
  | NaN, _ | _, NaN => NaN
  | _, _ => Infinity
  end.

(** [a - b] for operands that are integers or [NaN] (what [parseInt]
    returns); a difference involving [Infinity] is not produced by the
    server and is given as [NaN]. *)
Definition num_sub (a b : number) : number :=
  match a, b with
  | Int x, Int y => Int (x - y)
  | _, _ => NaN
  end.

(** Template-literal rendering of a number. *)
Definition num_to_string (n : number) : string :=
  match n with
  | Int z => pretty z
  | Infinity => "Infinity"
  | NaN => "NaN"
  end.

(** [Math.round(x / y)] for integers [x], [y <> 0]: the nearest integer,
    halves rounded up. *)
Definition round_div (x y : Z) : Z := (2 * x + y) / (2 * y).

(** [Math.round((downloaded / total) * k)] on byte counters, in exact
    arithmetic. *)
Definition round_ratio (k : Z) (downloaded total : N) : number :=
  if (total =? 0)%N then
    if (downloaded =? 0)%N then NaN else Infinity
  else Int (round_div (k * Z.of_N downloaded) (Z.of_N total)).

(** ** Strings *)

Definition char_code (c : ascii) : nat := nat_of_ascii c.

Definition is_digit (c : ascii) : bool :=
  (48 <=? char_code c)%nat && (char_code c <=? 57)%nat.

(** [\w] *)
Definition is_word (c : ascii) : bool :=
  is_digit c
  || ((65 <=? char_code c)%nat && (char_code c <=? 90)%nat)
  || ((97 <=? char_code c)%nat && (char_code c <=? 122)%nat)
  || (char_code c =? 95)%nat.

(** [\s], on ASCII: tab, line feed, vertical tab, form feed, carriage
    return, space. *)
Definition is_space (c : ascii) : bool :=
  ((9 <=? char_code c)%nat && (char_code c <=? 13)%nat) || (char_code c =? 32)%nat.

Definition str_filter (p : ascii -> bool) : string -> string :=
  fix go s :=
    match s with
    | EmptyString => EmptyString
    | String c s' => if p c then String c (go s') else go s'
    end.

Definition starts_with_space (s : string) : bool :=
  match s with
  | String c _ => is_space c
  | EmptyString => false
  end.

(** [s.replace(/\s+/g, '_')] *)
Fixpoint collapse_spaces (s : string) : string :=
  match s with
  | EmptyString => EmptyString
  | String c s' =>
      if is_space c then
        if starts_with_space s' then collapse_spaces s'
        else String "_" (collapse_spaces s')
      else String c (collapse_spaces s')
  end.

(** [title.replace(/[^\w\s-]/gi, '').replace(/\s+/g, '_')] *)
Definition sanitize_title (title : string) : string :=
  collapse_spaces
    (str_filter (fun c => is_word c || is_space c || (char_code c =? 45)%nat) title).

(** [s.includes(needle)] *)
Fixpoint includes (needle s : string) : bool :=
  String.prefix needle s
  || match s with
     | EmptyString => false
     | String _ s' => includes needle s'
     end.

(** [s.replace('p', '')]: the first ["p"] is dropped. *)
Fixpoint replace_first_p (s : string) : string :=
  match s with
  | EmptyString => EmptyString
  | String c s' => if (char_code c =? 112)%nat then s' else String c (replace_first_p s')
  end.

(** The maximal run of digits at the head of [s], and what follows it. *)
Fixpoint take_digits (s : string) : string * string :=
  match s with
  | EmptyString => (EmptyString, EmptyString)
  | String c s' =>
      if is_digit c then
        let '(ds, rest) := take_digits s' in (String c ds, rest)
      else (EmptyString, s)
  end.

(** [s.match(/(\d+)p/)?.[1]]: the leftmost run of digits that is followed
    by ["p"]. At a start position the greedy [\d+] takes the whole run;
    giving digits back cannot help, since the next character would be a
    digit and not ["p"]. *)
Fixpoint match_digits_p (s : string) : option string :=
  match s with
  | EmptyString => None
  | String c s' =>
      if is_digit c then
        let '(ds, rest) := take_digits s' in
        match rest with
        | String r _ =>
            if (char_code r =? 112)%nat then Some (String c ds) else match_digits_p s'
        | EmptyString => match_digits_p s'
        end
      else match_digits_p s'
  end.

Definition digit_value (c : ascii) : Z := Z.of_nat (char_code c) - 48.

Fixpoint digits_value (acc : Z) (s : string) : Z :=
  match s with
  | EmptyString => acc
  | String c s' => digits_value (10 * acc + digit_value c) s'
  end.

Fixpoint skip_spaces (s : string) : string :=
  match s with
  | String c s' => if is_space c then skip_spaces s' else s
  | EmptyString => EmptyString
  end.

(** [parseInt(s)] in radix 10: leading white space, an optional sign, then
    the longest run of digits; [NaN] when there is no digit. (The
    hexadecimal prefix is not modelled: no quality label starts with it.) *)
Definition parseInt (s : string) : number :=
  let s1 := skip_spaces s in
  let '(neg, s2) :=
    match s1 with
    | String c r =>
        if (char_code c =? 45)%nat then (true, r)
        else if (char_code c =? 43)%nat then (false, r)
        else (false, s1)
    | EmptyString => (false, s1)
    end in
  let '(ds, _) := take_digits s2 in
  match ds with
  | EmptyString => NaN
  | _ => Int (if neg : bool then - digits_value 0 ds else digits_value 0 ds)
  end.

(** [o || dflt] for a string that may be missing or empty. *)
Definition str_or (o : option string) (dflt : string) : string :=
  match o with
  | Some s => if String.eqb s "" then dflt else s
  | None => dflt
  end.

Definition str_truthy (o : option string) : bool :=
  match o with
  | Some s => negb (String.eqb s "")
  | None => false
  end.

(** [o || 0] for a number that may be missing. *)
Definition num_or0 (o : option Z) : Z := default 0 o.

(** ** Array.prototype.sort

    [sort] is stable; with a consistent comparator its result is the one
    of a stable insertion sort. [cmp a b > 0] puts [b] first. *)

Definition positive_result (n : number) : bool :=
  match n with
  | Int z => 0 <? z
  | Infinity => true
  | NaN => false
  end.

Section Sort.
Context {A : Type} (cmp : A -> A -> number).

Fixpoint sort_insert (x : A) (l : list A) : list A :=
  match l with
  | [] => [x]
  | y :: l' => if positive_result (cmp x y) then y :: sort_insert x l' else x :: l
  end.

Definition js_sort (l : list A) : list A := foldr sort_insert [] l.

End Sort.

(** ** What ytdl-core returns: decoded format metadata *)

Record format := {
  f_itag : Z;
  f_qualityLabel : option string;   (* null for audio formats *)
  f_quality : string;
  f_container : string;
  f_hasVideo : bool;
  f_hasAudio : bool;
  f_mimeType : option string;
  f_contentLength : option Z;       (* a decimal string when present *)
  f_fps : option Z;
  f_bitrate : option Z;
  f_audioBitrate : option Z
}.

Record video_details := {
  title : string;
  lengthSeconds : string;
  thumbnail0_url : option string;   (* thumbnails?.[0]?.url *)
  author_name : option string;      (* author?.name *)
  viewCount : string
}.

Record video_info := {
  videoDetails : video_details;
  formats : list format
}.

(** The outcome of [await ytdl.getInfo(url, ...)]. *)
Inductive fetched :=
| Fetched (info : video_info)
| FetchFailed (message : string).

(** ** POST /api/info: the listed options *)

Inductive itag_value :=
| ItagNum (n : Z)
| ItagName (s : string).

Record video_option := {
  vo_quality : string;
  vo_itag : itag_value;
  vo_fps : option Z;
  vo_bitrate : option Z;
  vo_mimeType : option string;
  vo_filesize : option Z;
  vo_type : string;
  vo_hasAudio : option bool         (* absent on the presets *)
}.

Record audio_option := {
  ao_quality : string;
  ao_itag : Z;
  ao_bitrate : option Z;
  ao_mimeType : option string;
  ao_filesize : option Z
}.

(** [contentLength ? Math.round(contentLength / 1024 / 1024) : null] *)
Definition filesize_mb (f : format) : option Z :=
  (fun n => round_div n (1024 * 1024)) <$> f_contentLength f.

Definition is_combined_mp4 (f : format) : bool :=
  f_hasVideo f && f_hasAudio f && String.eqb (f_container f) "mp4".

Definition is_video_only_mp4 (f : format) : bool :=
  f_hasVideo f && negb (f_hasAudio f) && str_truthy (f_qualityLabel f)
  && (String.eqb (f_container f) "mp4"
      || match f_mimeType f with
         | Some m => includes "video/mp4" m
         | None => false
         end).

Definition to_combined (f : format) : video_option :=
  {| vo_quality := str_or (f_qualityLabel f) (f_quality f) +:+ " (combined)";
     vo_itag := ItagNum (f_itag f);
     vo_fps := f_fps f;
     vo_bitrate := f_bitrate f;
     vo_mimeType := f_mimeType f;
     vo_filesize := filesize_mb f;
     vo_type := "combined";
     vo_hasAudio := Some true |}.

Definition to_video_only (f : format) : video_option :=
  {| vo_quality :=
       default "undefined" (f_qualityLabel f) +:+ " (video-only, will merge with audio)";
     vo_itag := ItagNum (f_itag f);
     vo_fps := f_fps f;
     vo_bitrate := f_bitrate f;
     vo_mimeType := f_mimeType f;
     vo_filesize := filesize_mb f;
     vo_type := "video-only";
     vo_hasAudio := Some false |}.

Definition combinedFormats (fs : list format) : list video_option :=
  to_combined <$> filter (fun f => is_combined_mp4 f = true) fs.

Definition videoOnlyFormats (fs : list format) : list video_option :=
  to_video_only <$> filter (fun f => is_video_only_mp4 f = true) fs.

Definition allFormats (fs : list format) : list video_option :=
  combinedFormats fs ++ videoOnlyFormats fs.

(** [parseInt(a.quality.match(/(\d+)p/)?.[1] || '0')] *)
Definition option_height (a : video_option) : number :=
  parseInt (str_or (match_digits_p (vo_quality a)) "0").

Definition has_audio (a : video_option) : bool := default false (vo_hasAudio a).

(** The comparator given to [allFormats.sort]. *)
Definition compare_options (a b : video_option) : number :=
  let aHeight := option_height a in
  let bHeight := option_height b in
  match num_sub bHeight aHeight with
  | Int 0 =>
      if has_audio a && negb (has_audio b) then Int (-1)
      else if negb (has_audio a) && has_audio b then Int 1
      else Int 0
  | d => d
  end.

Definition videoFormats (fs : list format) : list video_option :=
  take 15 (js_sort compare_options (allFormats fs)).

Definition to_audio_option (f : format) : audio_option :=
  {| ao_quality :=
       match f_audioBitrate f with
       | Some 0 | None => "Unknown"
       | Some b => pretty b +:+ "kbps"
       end;
     ao_itag := f_itag f;
     ao_bitrate := f_audioBitrate f;
     ao_mimeType := f_mimeType f;
     ao_filesize := filesize_mb f |}.

Definition is_audio_only (f : format) : bool := f_hasAudio f && negb (f_hasVideo f).

Definition compare_audio (a b : audio_option) : number :=
  Int (num_or0 (ao_bitrate b) - num_or0 (ao_bitrate a)).

Definition audioFormats (fs : list format) : list audio_option :=
  take 5 (js_sort compare_audio
            (to_audio_option <$> filter (fun f => is_audio_only f = true) fs)).

Definition presetFormats : list video_option :=
  let preset q i :=
    {| vo_quality := q; vo_itag := ItagName i; vo_fps := None; vo_bitrate := None;
       vo_mimeType := None; vo_filesize := None; vo_type := "preset";
       vo_hasAudio := None |} in
  [ preset "Best Quality (FFmpeg merge)" "ffmpeg-best";
    preset "Best Combined Format" "highest-audio";
    preset "Medium Quality (FFmpeg merge)" "ffmpeg-medium" ].

(** ** POST /api/debug: one entry per format *)

Record debug_entry := {
  de_itag : Z;
  de_quality : string;
  de_container : string;
  de_hasVideo : bool;
  de_hasAudio : bool;
  de_mimeType : option string;
  de_filesize : string;
  de_fps : option Z;
  de_audioBitrate : option Z
}.

Definition debugData (f : format) : debug_entry :=
  {| de_itag := f_itag f;
     de_quality := str_or (f_qualityLabel f) (f_quality f);
     de_container := f_container f;
     de_hasVideo := f_hasVideo f;
     de_hasAudio := f_hasAudio f;
     de_mimeType := f_mimeType f;
     de_filesize :=
       match filesize_mb f with
       | Some mb => pretty mb +:+ " MB"
       | None => "Unknown"
       end;
     de_fps := f_fps f;
     de_audioBitrate := f_audioBitrate f |}.

(** ** Responses, events, server state *)

Record info_response := {
  ir_title : string;
  ir_duration : string;
  ir_thumbnail : option string;
  ir_uploader : option string;
  ir_view_count : string;
  ir_videoFormats : list video_option;
  ir_audioFormats : list audio_option;
  ir_debug : nat * nat * nat * nat
}.

Inductive body :=
| BHealth                                          (* {message: ...} *)
| BError (error : string)                          (* {error} *)
| BJson (record : gmap string jsval)               (* res.json(progress) *)
| BDebug (totalFormats : nat) (entries : list debug_entry)
| BInfo (info : info_response)
| BInfoFailed (details : string)                   (* {success: false, error, details} *)
| BStarted (sessionId : string)                    (* {success: true, sessionId, message} *)
| BDownload (filePath filename : jsval).           (* res.download(filePath, filename) *)

Record response := {
  status_code : Z;
  res_body : body
}.

(** The asynchronous operations a download awaits. *)
Inductive stage :=
| GetInfo          (* ytdl.getInfo *)
| SelectFormat     (* the choice of a format among info.formats *)
| VideoStream      (* ytdl(url, ...) piped into the video file *)
| AudioStream      (* ytdl(url, ...) piped into the audio file *)
| Merge.           (* ffmpeg(...).save(outputPath) *)

Inductive event :=
| EvResponse (r : response)
| EvBegin (st : stage)                       (* the operation is started *)
| EvEnd (st : stage)                         (* it resolved *)
| EvReject (st : stage) (message : string)   (* it rejected with an Error *)
| EvYtdl (quality : jsval) (filter : option string)   (* options of ytdl(url, ...) *)
| EvSet (sessionId : string) (record : gmap string jsval)   (* downloadProgress.set *)
| EvDelete (sessionId : string)              (* downloadProgress.delete *)
| EvCreate (path : string)                   (* a file appears on disk *)
| EvUnlink (path : string)                   (* fs.unlinkSync *)
| EvTimer (filePath sessionId : string).     (* setTimeout(cleanup, 60000) *)

Record server := {
  downloadProgress : gmap string (gmap string jsval);
  disk : gset string;
  timers : list (string * string);
  trace : list event
}.

Definition initial_server : server :=
  {| downloadProgress := ∅; disk := ∅; timers := []; trace := [] |}.

Definition with_progress (p : gmap string (gmap string jsval)) (s : server) : server :=
  {| downloadProgress := p; disk := disk s; timers := timers s; trace := trace s |}.

Definition with_disk (d : gset string) (s : server) : server :=
  {| downloadProgress := downloadProgress s; disk := d; timers := timers s; trace := trace s |}.

Definition with_timers (t : list (string * string)) (s : server) : server :=
  {| downloadProgress := downloadProgress s; disk := disk s; timers := t; trace := trace s |}.

Definition log (e : event) (s : server) : server :=
  {| downloadProgress := downloadProgress s; disk := disk s; timers := timers s;
     trace := trace s ++ [e] |}.

(** ** Handler code: state and exceptions *)

Inductive outcome (A : Type) :=
| Returned (a : A)
| Threw (message : string).
Arguments Returned {A} a.
Arguments Threw {A} message.

Definition M (A : Type) : Type := server -> server * outcome A.

Definition ret {A} (a : A) : M A := fun s => (s, Returned a).

Definition bind {A B} (m : M A) (k : A -> M B) : M B :=
  fun s =>
    match m s with
    | (s', Returned a) => k a s'
    | (s', Threw e) => (s', Threw e)
    end.

Definition throw {A} (message : string) : M A := fun s => (s, Threw message).

Definition try_catch {A} (m : M A) (handler : string -> M A) : M A :=
  fun s =>
    match m s with
    | (s', Returned a) => (s', Returned a)
    | (s', Threw e) => handler e s'
    end.

Declare Scope js_scope.
Delimit Scope js_scope with js.
Notation "x <- m ;; k" := (bind m (fun x => k))
  (at level 20, m at level 99, k at level 200, only parsing) : js_scope.
Notation "m ;; k" := (bind m (fun _ => k))
  (at level 100, k at level 200, right associativity, only parsing) : js_scope.
Local Open Scope js_scope.

Definition emit (e : event) : M unit := fun s => (log e s, Returned tt).

Fixpoint for_each {A} (l : list A) (f : A -> M unit) : M unit :=
  match l with
  | [] => ret tt
  | x :: l' => f x ;; for_each l' f
  end.

Definition run {A} (m : M A) (s : server) : server := fst (m s).

(** [res.status(code).json(body)] *)
Definition respond (code : Z) (b : body) : M unit :=
  emit (EvResponse {| status_code := code; res_body := b |}).

Definition progress_get (sessionId : string) : M (option (gmap string jsval)) :=
  fun s => (s, Returned (downloadProgress s !! sessionId)).

Definition progress_set (sessionId : string) (record : gmap string jsval) : M unit :=
  fun s =>
    (log (EvSet sessionId record)
       (with_progress (<[sessionId := record]> (downloadProgress s)) s),
     Returned tt).

Definition progress_delete (sessionId : string) : M unit :=
  fun s =>
    (log (EvDelete sessionId) (with_progress (delete sessionId (downloadProgress s)) s),
     Returned tt).

Definition present (path : string) (s : server) : bool :=
  bool_decide (path ∈ disk s).

Definition existsSync (path : string) : M bool :=
  fun s => (s, Returned (present path s)).

Definition remove_file (path : string) (s : server) : server :=
  log (EvUnlink path) (with_disk (disk s ∖ {[path]}) s).

Definition add_file (path : string) (s : server) : server :=
  log (EvCreate path) (with_disk ({[path]} ∪ disk s) s).

(** [fs.unlinkSync] throws when the file is not there. *)
Definition unlinkSync (path : string) : M unit :=
  fun s =>
    if present path s then (remove_file path s, Returned tt)
    else (s, Threw ("ENOENT: no such file or directory, unlink '" +:+ path +:+ "'")).

(** A file written by a stream or by ffmpeg appears on disk. *)
Definition create_file (path : string) : M unit :=
  fun s => (add_file path s, Returned tt).

Definition setTimeout_cleanup (filePath sessionId : string) : M unit :=
  fun s =>
    (log (EvTimer filePath sessionId) (with_timers (timers s ++ [(filePath, sessionId)]) s),
     Returned tt).

(** [obj.field]: [undefined] when the field is missing. *)
Definition field (record : gmap string jsval) (name : string) : jsval :=
  default JUndefined (record !! name).

Definition truthy (v : jsval) : bool :=
  match v with
  | JUndefined | JNull => false
  | JBool b => b
  | JNum (Int z) => negb (z =? 0)
  | JNum Infinity => true
  | JNum NaN => false
  | JStr s => negb (String.eqb s "")
  | JObject _ => true
  end.

(** [v === 'text'] *)
Definition is_str (v : jsval) (text : string) : bool :=
  match v with
  | JStr s => String.eqb s text
  | _ => false
  end.

(** ** What the external systems do during one download *)

Inductive run_end :=
| Finished
| Failed (message : string) (file_created : bool).

(** A ytdl stream piped into a write stream: the 'progress' events
    [(downloaded, total)] in order, then 'finish' or an 'error'. *)
Record stream_run := {
  ticks : list (N * N);
  stream_end : run_end
}.

Record ffmpeg_tick := {
  percent_rounded : number;   (* Math.round(progress.percent) *)
  timemark : jsval;
  targetSize : jsval
}.

Record ffmpeg_run := {
  merge_ticks : list ffmpeg_tick;
  merge_end : run_end
}.

Definition file_created_by (e : run_end) : bool :=
  match e with
  | Finished => true
  | Failed _ created => created
  end.

Record world := {
  w_info : fetched;
  w_video : stream_run;
  w_audio : stream_run;
  w_merge : ffmpeg_run
}.

Record request_body := {
  body_url : jsval;
  body_format : jsval;
  body_quality : jsval;
  body_itag : jsval
}.

(** ** Progress records written by the server *)

Definition record3 (status : string) (progress : number) (stage : string)
  : gmap string jsval :=
  {[ "status" := JStr status; "progress" := JNum progress; "stage" := JStr stage ]}.

Definition initializing_record : gmap string jsval :=
  record3 "initializing" (Int 0) "Getting video information...".

Definition error_record (message : string) : gmap string jsval :=
  <["error" := JStr message]> (record3 "error" (Int 0) "Error occurred").

Definition completed_record (stage filePath filename : string) : gmap string jsval :=
  <["filename" := JStr filename]>
    (<["filePath" := JStr filePath]> (record3 "completed" (Int 100) stage)).

Definition bytes_record (stage : string) (downloaded total : N) : gmap string jsval :=
  let progress := round_ratio 100 downloaded total in
  <["totalBytes" := JNum (Int (Z.of_N total))]>
    (<["downloadedBytes" := JNum (Int (Z.of_N downloaded))]>
       (record3 "downloading" progress
          (stage +:+ num_to_string progress +:+ "%"))).

(** [{...currentProgress, progress, stage}] *)
Definition spread_record (currentProgress : option (gmap string jsval))
    (progress : number) (stage : string) : gmap string jsval :=
  <["stage" := JStr stage]> (<["progress" := JNum progress]> (default ∅ currentProgress)).

Definition stream_tick_record (baseProgress : Z) (streamType : string)
    (currentProgress : option (gmap string jsval)) (tick : N * N) : gmap string jsval :=
  let '(downloaded, total) := tick in
  spread_record currentProgress
    (num_add (Int baseProgress) (round_ratio 25 downloaded total))
    ("Downloading " +:+ streamType +:+ " stream... "
       +:+ num_to_string (round_ratio 100 downloaded total) +:+ "%").

(** [Math.round(progress.percent) || 0] *)
Definition merge_percent (t : ffmpeg_tick) : number :=
  match percent_rounded t with
  | NaN => Int 0
  | p => p
  end.

(** [75 + Math.round(percent * 0.25)] *)
Definition merge_total (percent : number) : number :=
  match percent with
  | Int p => Int (75 + round_div p 4)
  | other => other
  end.

Definition merge_tick_record (t : ffmpeg_tick) : gmap string jsval :=
  let percent := merge_percent t in
  <["ffmpegProgress" :=
      JObject [("percent", JNum percent); ("currentTime", timemark t);
               ("targetSize", targetSize t)]]>
    (record3 "merging" (merge_total percent)
       ("Merging with FFmpeg... " +:+ num_to_string percent +:+ "%")).

(** ** The server *)

Section Server.

(** [ytdl.validateURL], and [path.join(__dirname, 'temp')]. *)
Context (validateURL : jsval -> bool) (tempDir : string).

(** [path.join(tempDir, name)] for a name without separators. *)
Definition path_join (name : string) : string := tempDir +:+ "/" +:+ name.

(** [stream.pipe(writeStream)] with its 'progress', 'finish' and 'error'
    callbacks, inside [new Promise]. *)
Definition pipe (st : stage) (outputPath : string) (stream : stream_run)
    (on_progress : N * N -> M unit) (on_finish : M unit) : M unit :=
  emit (EvBegin st) ;;
  (if file_created_by (stream_end stream) then create_file outputPath else ret tt) ;;
  for_each (ticks stream) on_progress ;;
  match stream_end stream with
  | Finished => on_finish ;; emit (EvEnd st)
  | Failed message _ => emit (EvReject st message) ;; throw message
  end.

(** The 'progress' callback of the audio-only and regular downloads. *)
Definition bytes_progress (sessionId stage : string) (tick : N * N) : M unit :=
  let '(downloaded, total) := tick in
  progress_set sessionId (bytes_record stage downloaded total).

Definition downloadAudio (title sessionId : string) (itag : jsval)
    (stream : stream_run) : M unit :=
  progress_set sessionId (record3 "downloading" (Int 0) "Downloading audio...") ;;
  let outputPath := path_join (title +:+ "_" +:+ sessionId +:+ ".mp3") in
  emit (EvYtdl (if truthy itag && negb (is_str itag "highest") then itag
                else JStr "highestaudio")
               (Some "audioonly")) ;;
  pipe AudioStream outputPath stream
    (bytes_progress sessionId "Downloading audio... ")
    (progress_set sessionId
       (completed_record "Download completed!" outputPath (title +:+ ".mp3"))).

(** [parseInt(f.qualityLabel?.replace('p', '') || '0')] *)
Definition label_height (f : format) : number :=
  parseInt (str_or (replace_first_p <$> f_qualityLabel f) "0").

Definition compare_combined (a b : format) : number :=
  match num_sub (label_height b) (label_height a) with
  | Int 0 => Int (num_or0 (f_bitrate b) - num_or0 (f_bitrate a))
  | d => d
  end.

(** The [quality] and [filter] options of the regular video download. *)
Definition regular_options (itag : jsval) (info : video_info) : jsval * option string :=
  if truthy itag && negb (is_str itag "highest" || is_str itag "highest-audio") then
    (itag, None)
  else
    match js_sort compare_combined
            (filter (fun f => is_combined_mp4 f = true) (formats info)) with
    | best :: _ => (JNum (Int (f_itag best)), None)
    | [] => (JStr "highest", Some "videoandaudio")
    end.

Definition downloadRegularVideo (title sessionId : string) (itag : jsval)
    (info : video_info) (stream : stream_run) : M unit :=
  progress_set sessionId (record3 "downloading" (Int 0) "Downloading video...") ;;
  let outputPath := path_join (title +:+ "_" +:+ sessionId +:+ ".mp4") in
  emit (EvBegin SelectFormat) ;;
  let '(quality, filter) := regular_options itag info in
  emit (EvEnd SelectFormat) ;;
  emit (EvYtdl quality filter) ;;
  pipe VideoStream outputPath stream
    (bytes_progress sessionId "Downloading video... ")
    (progress_set sessionId
       (completed_record "Download completed!" outputPath (title +:+ ".mp4"))).

Definition compare_video_only (a b : format) : number :=
  num_sub (label_height b) (label_height a).

(** The format [downloadVideoStream] picks: the first of the sorted
    video-only formats, or the middle one. *)
Definition select_video_format (info : video_info) (useBestQuality : bool)
  : option format :=
  let videoFormats :=
    js_sort compare_video_only
      (filter (fun f => f_hasVideo f && negb (f_hasAudio f) = true) (formats info)) in
  if useBestQuality then head videoFormats
  else match videoFormats !! (length videoFormats / 2)%nat with
       | Some f => Some f
       | None => head videoFormats
       end.

(** The 'progress' callback of the two stream downloads of the merge path. *)
Definition stream_progress (sessionId : string) (baseProgress : Z) (streamType : string)
    (tick : N * N) : M unit :=
  currentProgress <- progress_get sessionId ;;
  progress_set sessionId (stream_tick_record baseProgress streamType currentProgress tick).

Definition downloadVideoStream (outputPath : string) (info : video_info)
    (useBestQuality : bool) (sessionId streamType : string) (stream : stream_run)
  : M unit :=
  emit (EvBegin SelectFormat) ;;
  match select_video_format info useBestQuality with
  | None =>
      emit (EvReject SelectFormat "No video-only formats found") ;;
      throw "No video-only formats found"
  | Some selectedFormat =>
      emit (EvEnd SelectFormat) ;;
      emit (EvYtdl (JNum (Int (f_itag selectedFormat))) None) ;;
      pipe VideoStream outputPath stream
        (stream_progress sessionId (if String.eqb streamType "video" then 0 else 50)
           streamType)
        (ret tt)
  end.

Definition downloadAudioStream (outputPath sessionId streamType : string)
    (stream : stream_run) : M unit :=
  emit (EvYtdl (JStr "highestaudio") (Some "audioonly")) ;;
  pipe AudioStream outputPath stream (stream_progress sessionId 50 streamType) (ret tt).

(** The 'progress' callback of the ffmpeg command. *)
Definition merge_progress (sessionId : string) (t : ffmpeg_tick) : M unit :=
  progress_set sessionId (merge_tick_record t).

Definition mergeWithFFmpeg (videoPath audioPath outputPath sessionId : string)
    (ffmpeg : ffmpeg_run) : M unit :=
  emit (EvBegin Merge) ;;
  (if file_created_by (merge_end ffmpeg) then create_file outputPath else ret tt) ;;
  for_each (merge_ticks ffmpeg) (merge_progress sessionId) ;;
  match merge_end ffmpeg with
  | Finished => emit (EvEnd Merge)
  | Failed message _ => emit (EvReject Merge message) ;; throw message
  end.

(** [if (fs.existsSync(path)) fs.unlinkSync(path)] *)
Definition unlink_if_exists (path : string) : M unit :=
  present <- existsSync path ;;
  if present then unlinkSync path else ret tt.

Definition downloadAndMergeWithFFmpeg (info : video_info) (title sessionId : string)
    (useBestQuality : bool) (w : world) : M unit :=
  let videoPath := path_join (title +:+ "_video_" +:+ sessionId +:+ ".mp4") in
  let audioPath := path_join (title +:+ "_audio_" +:+ sessionId +:+ ".m4a") in
  let outputPath := path_join (title +:+ "_merged_" +:+ sessionId +:+ ".mp4") in
  try_catch
    (progress_set sessionId
       (record3 "downloading" (Int 0) "Downloading video stream...") ;;
     downloadVideoStream videoPath info useBestQuality sessionId "video" (w_video w) ;;
     progress_set sessionId
       (record3 "downloading" (Int 50) "Downloading audio stream...") ;;
     downloadAudioStream audioPath sessionId "audio" (w_audio w) ;;
     progress_set sessionId
       (record3 "merging" (Int 75) "Merging video and audio with FFmpeg...") ;;
     mergeWithFFmpeg videoPath audioPath outputPath sessionId (w_merge w) ;;
     unlinkSync videoPath ;;
     unlinkSync audioPath ;;
     progress_set sessionId
       (completed_record "Download and merge completed!" outputPath
          (title +:+ "_merged.mp4")))
    (fun error =>
       for_each [videoPath; audioPath; outputPath] unlink_if_exists ;;
       throw error).

(** [await ytdl.getInfo(url, ...)] *)
Definition getInfo (result : fetched) : M video_info :=
  emit (EvBegin GetInfo) ;;
  match result with
  | Fetched info => emit (EvEnd GetInfo) ;; ret info
  | FetchFailed message => emit (EvReject GetInfo message) ;; throw message
  end.

Definition is_ffmpeg_preset (itag : jsval) : bool :=
  is_str itag "ffmpeg-best" || is_str itag "ffmpeg-medium".

(** What POST /api/download does after it has answered. (The handler also
    parses [lengthSeconds] into a [duration] that it never uses.) *)
Definition download_work (sessionId : string) (req : request_body) (w : world)
  : M unit :=
  info <- getInfo (w_info w) ;;
  let title := sanitize_title (title (videoDetails info)) in
  if is_str (body_format req) "mp3" then
    downloadAudio title sessionId (body_itag req) (w_audio w)
  else if is_ffmpeg_preset (body_itag req) then
    downloadAndMergeWithFFmpeg info title sessionId
      (is_str (body_itag req) "ffmpeg-best") w
  else
    downloadRegularVideo title sessionId (body_itag req) info (w_video w).

(** POST /api/download; [sessionId] is the value of [uuidv4()]. *)
Definition download_handler (sessionId : string) (req : request_body) (w : world)
  : M unit :=
  try_catch
    (if negb (validateURL (body_url req)) then
       respond 400 (BError "Invalid YouTube URL")
     else
       progress_set sessionId initializing_record ;;
       respond 200 (BStarted sessionId) ;;
       download_work sessionId req w)
    (fun message => progress_set sessionId (error_record message)).

(** GET / *)
Definition health_handler : M unit := respond 200 BHealth.

(** GET /api/progress/:sessionId *)
Definition progress_handler (sessionId : string) : M unit :=
  found <- progress_get sessionId ;;
  let progress := default {[ "status" := JStr "not_found" ]} found in
  respond 200 (BJson progress).

(** POST /api/debug *)
Definition debug_handler (req : request_body) (result : fetched) : M unit :=
  try_catch
    (if negb (validateURL (body_url req)) then
       respond 400 (BError "Invalid YouTube URL")
     else
       info <- getInfo result ;;
       respond 200 (BDebug (length (formats info)) (debugData <$> formats info)))
    (fun message => respond 500 (BError message)).

(** POST /api/info *)
Definition info_handler (req : request_body) (result : fetched) : M unit :=
  try_catch
    (if negb (validateURL (body_url req)) then
       respond 400 (BError "Invalid YouTube URL")
     else
       info <- getInfo result ;;
       let fs := formats info in
       respond 200
         (BInfo {| ir_title := title (videoDetails info);
                   ir_duration := lengthSeconds (videoDetails info);
                   ir_thumbnail := thumbnail0_url (videoDetails info);
                   ir_uploader := author_name (videoDetails info);
                   ir_view_count := viewCount (videoDetails info);
                   ir_videoFormats := presetFormats ++ videoFormats fs;
                   ir_audioFormats := audioFormats fs;
                   ir_debug := (length fs, length (combinedFormats fs),
                                length (videoOnlyFormats fs),
                                length (audioFormats fs)) |}))
    (fun message => respond 500 (BInfoFailed message)).

(** [fs.existsSync(v)] on a value read from a record: only a string can
    name a file. *)
Definition existsSync_value (v : jsval) : M bool :=
  match v with
  | JStr path => existsSync path
  | _ => ret false
  end.

(** GET /api/file/:sessionId; [transferred] tells whether [res.download]
    called back without an error. *)
Definition file_handler (sessionId : string) (transferred : bool) : M unit :=
  found <- progress_get sessionId ;;
  match found with
  | None => respond 404 (BError "File not found or not ready")
  | Some progress =>
      if negb (is_str (field progress "status") "completed") then
        respond 404 (BError "File not found or not ready")
      else
        let filePath := field progress "filePath" in
        let filename := field progress "filename" in
        present <- existsSync_value filePath ;;
        if negb present then respond 404 (BError "File not found on disk")
        else
          respond 200 (BDownload filePath filename) ;;
          match filePath with
          | JStr path =>
              if transferred then setTimeout_cleanup path sessionId else ret tt
          | _ => ret tt
          end
  end.

(** The callback given to [setTimeout] by the file route, one minute
    after a transfer. *)
Definition cleanup_callback (filePath sessionId : string) : M unit :=
  present <- existsSync filePath ;;
  if present then unlinkSync filePath ;; progress_delete sessionId else ret tt.

(** The [n]-th pending timer fires. *)
Definition fire_timer (n : nat) : M unit :=
  fun s =>
    match timers s !! n with
    | Some (filePath, sessionId) =>
        cleanup_callback filePath sessionId (with_timers (delete n (timers s)) s)
    | None => (s, Returned tt)
    end.

(** [progress.timestamp && progress.timestamp < oneHourAgo]. No writer
    stores a timestamp; for one that is a string or an object the
    conversion to a number is not modelled and the comparison is taken
    as false. *)
Definition expired (oneHourAgo : Z) (progress : gmap string jsval) : bool :=
  let timestamp := field progress "timestamp" in
  truthy timestamp
  && match timestamp with
     | JNum (Int t) => t <? oneHourAgo
     | JBool true => 1 <? oneHourAgo
     | _ => false
     end.

(** The hourly [setInterval] callback; [now] is [Date.now()]. The entries
    are visited in the key order of the model's map. *)
Definition sweep (now : Z) : M unit :=
  fun s =>
    let oneHourAgo := now - 60 * 60 * 1000 in
    let old := filter (fun kv => expired oneHourAgo kv.2 = true) (downloadProgress s) in
    for_each (map_to_list old).*1 progress_delete s.

End Server.

(** ** The server as a transition system *)

Inductive action :=
| Health
| Progress (sessionId : string)
| Debug (req : request_body) (result : fetched)
| Info (req : request_body) (result : fetched)
| Download (sessionId : string) (req : request_body) (w : world)
| File (sessionId : string) (transferred : bool)
| TimerFires (n : nat)
| Sweep (now : Z).

Definition handle (validateURL : jsval -> bool) (tempDir : string) (a : action)
  : M unit :=
  match a with
  | Health => health_handler
  | Progress sessionId => progress_handler sessionId
  | Debug req result => debug_handler validateURL req result
  | Info req result => info_handler validateURL req result
  | Download sessionId req w => download_handler validateURL tempDir sessionId req w
  | File sessionId transferred => file_handler sessionId transferred
  | TimerFires n => fire_timer n
  | Sweep now => sweep now
  end.

Definition step (validateURL : jsval -> bool) (tempDir : string) (s : server)
    (a : action) : server :=
  run (handle validateURL tempDir a) s.

(** The states the server can be in: those reached from the initial one
    by a sequence of requests, timers and sweeps. *)
Inductive reachable (validateURL : jsval -> bool) (tempDir : string) : server -> Prop :=
| reachable_init : reachable validateURL tempDir initial_server
| reachable_step s a :
    reachable validateURL tempDir s ->
    reachable validateURL tempDir (step validateURL tempDir s a).

(** ** Vocabulary of the statements *)

(** The events a handler appended to the trace. *)
Definition new_events (before after : server) : list event :=
  drop (length (trace before)) (trace after).

(** A handler step that writes one record computed from the current one. *)
Definition apply_set (sessionId : string)
    (record : option (gmap string jsval) -> gmap string jsval) (s : server) : server :=
  let r := record (downloadProgress s !! sessionId) in
  log (EvSet sessionId r) (with_progress (<[sessionId := r]> (downloadProgress s)) s).

(** The state after the 'progress' callbacks of a list of ticks. *)
Definition run_ticks {X} (sessionId : string)
    (g : X -> option (gmap string jsval) -> gmap string jsval)
    (l : list X) (s : server) : server :=
  foldl (fun s x => apply_set sessionId (g x) s) s l.

(** The records these callbacks write, in order. *)
Fixpoint tick_records {X} (g : X -> option (gmap string jsval) -> gmap string jsval)
    (current : option (gmap string jsval)) (l : list X) : list (gmap string jsval) :=
  match l with
  | [] => []
  | x :: l' => let r := g x current in r :: tick_records g (Some r) l'
  end.

(** Weakest precondition of a handler. *)
Definition wp {A} (m : M A) (Q : outcome A -> server -> Prop) (s : server) : Prop :=
  Q (m s).2 (m s).1.

(** GET /api/file can serve [path] under [filename] for the session. *)
Definition file_ready (s : server) (sessionId path : string) (filename : jsval) : Prop :=
  exists record,
    downloadProgress s !! sessionId = Some record
    /\ record !! "status" = Some (JStr "completed")
    /\ record !! "filePath" = Some (JStr path)
    /\ filename = field record "filename"
    /\ path ∈ disk s.

Definition invalid_url_response : event :=
  EvResponse {| status_code := 400; res_body := BError "Invalid YouTube URL" |}.




(** ** Sample inputs

    A recogniser of watch URLs standing for [ytdl.validateURL], one video
    with four formats, and the runs of the external systems used to
    evaluate the handlers on concrete requests. *)

Definition sample_validateURL (v : jsval) : bool :=
  match v with
  | JStr s => String.prefix "https://www.youtube.com/watch?v=" s
  | _ => false
  end.

Definition sample_format (itag : Z) (label : option string) (video audio : bool)
  : format :=
  {| f_itag := itag; f_qualityLabel := label; f_quality := "medium";
     f_container := "mp4"; f_hasVideo := video; f_hasAudio := audio;
     f_mimeType := Some "video/mp4"; f_contentLength := Some 1048576;
     f_fps := Some 30; f_bitrate := Some 1000;
     f_audioBitrate := if audio then Some 128 else None |}.

Definition sample_info : video_info :=
  {| videoDetails :=
       {| title := "My  clip!"; lengthSeconds := "10"; thumbnail0_url := None;
          author_name := None; viewCount := "1" |};
     formats := [ sample_format 18 (Some "360p") true true;
                  sample_format 137 (Some "1080p") true false;
                  sample_format 136 (Some "720p") true false;
                  sample_format 140 None false true ] |}.

Definition sample_world : world :=
  {| w_info := Fetched sample_info;
     w_video := {| ticks := [(50, 100)%N; (100, 100)%N]; stream_end := Finished |};
     w_audio := {| ticks := [(10, 10)%N]; stream_end := Finished |};
     w_merge :=
       {| merge_ticks := [ {| percent_rounded := Int 50; timemark := JStr "00:00:05";
                              targetSize := JNum (Int 10) |} ];
          merge_end := Finished |} |}.

Definition sample_request (format itag : jsval) : request_body :=
  {| body_url := JStr "https://www.youtube.com/watch?v=abc";
     body_format := format; body_quality := JUndefined; body_itag := itag |}.

Definition invalid_request : request_body :=
  {| body_url := JStr "not a url"; body_format := JStr "mp4";
     body_quality := JUndefined; body_itag := JStr "ffmpeg-best" |}.

(** The state after [unlink_if_exists path]. *)
Definition remove_present (path : string) (s : server) : server :=
  if present path s then remove_file path s else s.

(** The events that mark the course of a download: an awaited operation
    begins, resolves or rejects, a file is deleted, the record is marked
    completed. *)
Definition is_milestone (e : event) : bool :=
  match e with
  | EvBegin _ | EvEnd _ | EvReject _ _ | EvUnlink _ => true
  | EvSet _ record => is_str (field record "status") "completed"
  | _ => false
  end.

Definition milestones (events : list event) : list event :=
  List.filter is_milestone events.

Fixpoint str_last (s : string) : option ascii :=
  match s with
  | EmptyString => None
  | String c s' =>
      match str_last s' with
      | Some l => Some l
      | None => Some c
      end
  end.

Definition not_completed (record : gmap string jsval) : Prop :=
  is_str (field record "status") "completed" = false.

(** The course of a merge download as the code runs it: the two stream
    files are deleted, then the record is marked completed. *)
Definition merge_order (videoPath audioPath : string) (completed : event) : list event :=
  [ EvBegin GetInfo; EvEnd GetInfo;
    EvBegin SelectFormat; EvEnd SelectFormat;
    EvBegin VideoStream; EvEnd VideoStream;
    EvBegin AudioStream; EvEnd AudioStream;
    EvBegin Merge; EvEnd Merge;
    EvUnlink videoPath; EvUnlink audioPath;
    completed ].

(** The same course with the record marked completed before the two
    stream files are deleted. *)
Definition completed_then_deleted (videoPath audioPath : string) (completed : event)
  : list event :=
  [ EvBegin GetInfo; EvEnd GetInfo;
    EvBegin SelectFormat; EvEnd SelectFormat;
    EvBegin VideoStream; EvEnd VideoStream;
    EvBegin AudioStream; EvEnd AudioStream;
    EvBegin Merge; EvEnd Merge;
    completed;
    EvUnlink videoPath; EvUnlink audioPath ].

(** ** The shape of a progress record *)

Definition is_status (st : string) : bool :=
  existsb (String.eqb st) ["initializing"; "downloading"; "merging"; "completed"; "error"].

Definition number_or_absent (o : option jsval) : bool :=
  match o with
  | None | Some (JNum _) => true
  | _ => false
  end.

Definition string_or_absent (o : option jsval) : bool :=
  match o with
  | None | Some (JStr _) => true
  | _ => false
  end.

(** A status of the enumeration, a numeric progress, a stage string, and
    when present numeric byte counters and an error string. *)
Definition shape_ok (record : gmap string jsval) : bool :=
  match record !! "status" with
  | Some (JStr st) => is_status st
  | _ => false
  end
  && match record !! "progress" with
     | Some (JNum _) => true
     | _ => false
     end
  && match record !! "stage" with
     | Some (JStr _) => true
     | _ => false
     end
  && number_or_absent (record !! "downloadedBytes")
  && number_or_absent (record !! "totalBytes")
  && string_or_absent (record !! "error").

(** What every record the server writes satisfies: the shape, and no
    timestamp field. *)
Definition well_shaped (record : gmap string jsval) : Prop :=
  shape_ok record = true /\ record !! "timestamp" = None.


(** ** What a download may log *)

#[global] Instance stage_eq_dec : EqDecision stage.
Proof. solve_decision. Defined.

(** The operations begun, in order. *)
Definition begun (events : list event) : list stage :=
  omap (fun e => match e with EvBegin st => Some st | _ => None end) events.

Definition quiet (e : event) : Prop :=
  match e with
  | EvReject _ _ => False
  | _ => True
  end.

(** After a rejection: a file is deleted, or the error is reported in the
    session's record. *)
Definition cleanup_or_report (sessionId message : string) (e : event) : Prop :=
  match e with
  | EvUnlink _ => True
  | EvSet k record => k = sessionId /\ record = error_record message
  | _ => False
  end.

(** What the work of one download logs: writes of well-shaped records
    under its session id, files named with the session id, no response,
    no removal from the progress map, no timer. *)
Definition session_event (sessionId : string) (e : event) : Prop :=
  match e with
  | EvSet k record => k = sessionId /\ well_shaped record
  | EvCreate path | EvUnlink path => includes sessionId path = true
  | EvResponse _ | EvDelete _ | EvTimer _ _ => False
  | _ => True
  end.

Definition started_response (sessionId : string) : event :=
  EvResponse {| status_code := 200; res_body := BStarted sessionId |}.

(** The outcome of POST /api/download for a valid url. *)
Definition download_post (sessionId : string) (s s' : server) : Prop :=
  exists body,
    trace s'
    = trace s
      ++ EvSet sessionId initializing_record :: started_response sessionId
         :: EvBegin GetInfo :: body
    /\ Forall (session_event sessionId) body
    /\ NoDup (begun (EvBegin GetInfo :: body))
    /\ ((Forall quiet body
         /\ exists record,
              downloadProgress s' !! sessionId = Some record
              /\ record !! "status" = Some (JStr "completed")
              /\ well_shaped record)
        \/ (exists pre st message post,
              body = pre ++ EvReject st message :: post
              /\ Forall quiet pre
              /\ Forall (cleanup_or_report sessionId message) post
              /\ downloadProgress s' !! sessionId = Some (error_record message))).

(** A handler that leaves the entry of session [k] as it is. *)
Definition keeps (k : string) {A} (m : M A) : Prop :=
  forall s, downloadProgress (m s).1 !! k = downloadProgress s !! k.

(** The world of a download whose audio stream breaks after its file was
    opened. *)
Definition broken_audio_world : world :=
  {| w_info := Fetched sample_info;
     w_video := {| ticks := []; stream_end := Finished |};
     w_audio := {| ticks := [(5, 10)%N];
                   stream_end := Failed "socket hang up" true |};
     w_merge := {| merge_ticks := []; merge_end := Finished |} |}.

(** The state after [progress_delete] on each key of a list. *)
Definition delete_all (keys : list string) (s : server) : server :=
  foldl (fun s k => log (EvDelete k) (with_progress (delete k (downloadProgress s)) s))
    s keys.

(** A logged write stores a well-shaped record. *)
Definition shaped_write (e : event) : Prop :=
  match e with
  | EvSet _ record => well_shaped record
  | _ => True
  end.

(** Why the entry [k] with record [record] can disappear in a step: the
    sweep finds its timestamp expired, or the cleanup timer of a served
    file of session [k] fires while the file is on disk. *)
Definition removal_cause (s : server) (a : action) (k : string)
    (record : gmap string jsval) : Prop :=
  (exists now, a = Sweep now /\ expired (now - 60 * 60 * 1000) record = true)
  \/ (exists n path,
        a = TimerFires n /\ timers s !! n = Some (path, k) /\ path ∈ disk s).

(** What one step does to the trace and to the progress map. *)
Definition step_summary (s s' : server) (a : action) : Prop :=
  exists new,
    trace s' = trace s ++ new
    /\ Forall shaped_write new
    /\ (forall k r,
          downloadProgress s' !! k = Some r ->
          downloadProgress s !! k = Some r
          \/ (well_shaped r /\ started_response k ∈ new))
    /\ (forall k record,
          downloadProgress s !! k = Some record ->
          downloadProgress s' !! k = None ->
          removal_cause s a k record).

(** The state after an audio-only download of the sample video and a
    transfer of its file to the client: the cleanup timer is pending. *)
Definition served_state : server :=
  step sample_validateURL "temp"
    (step sample_validateURL "temp" initial_server
       (Download "sid1" (sample_request (JStr "mp3") JUndefined) sample_world))
    (File "sid1" true).

(** ** Vocabulary of the further properties *)

(** Every character of [s] satisfies [p]. *)
Fixpoint str_forall (p : ascii -> bool) (s : string) : bool :=
  match s with
  | EmptyString => true
  | String c s' => p c && str_forall p s'
  end.


(** The height the download code reads off a quality label, when the
    label parses. *)
Definition label_height_z (f : format) : Z :=
  match label_height f with
  | Int h => h
  | _ => 0
  end.

Definition label_parses (f : format) : Prop := label_height f <> NaN.

(** [a] may come before [b] in the list [downloadVideoStream] sorts. *)
Definition higher_first (a b : format) : Prop := label_height_z b <= label_height_z a.

(** [a] may come before [b] in the list [downloadRegularVideo] sorts: a
    greater height, or the same height and no smaller bitrate. *)
Definition better_combined (a b : format) : Prop :=
  label_height_z b < label_height_z a
  \/ (label_height_z a = label_height_z b
      /\ num_or0 (f_bitrate b) <= num_or0 (f_bitrate a)).

(** The itag asks for no format of its own: it is missing, empty, or one
    of the names ['highest'] and ['highest-audio']. *)
Definition default_quality (itag : jsval) : bool :=
  negb (truthy itag && negb (is_str itag "highest" || is_str itag "highest-audio")).

(** A video with the quality labels 1080p and 720p60. *)
Definition sample_info_fps : video_info :=
  {| videoDetails :=
       {| title := "Match"; lengthSeconds := "90"; thumbnail0_url := None;
          author_name := None; viewCount := "7" |};
     formats := [ sample_format 137 (Some "1080p") true false;
                  sample_format 298 (Some "720p60") true false;
                  sample_format 140 None false true ] |}.


(** The event opens a ytdl stream or creates a file. *)
Definition opens_stream (e : event) : bool :=
  match e with
  | EvYtdl _ _ | EvCreate _ => true
  | _ => false
  end.

(** A video that ytdl offers in combined formats only. *)
Definition combined_only_info : video_info :=
  {| videoDetails :=
       {| title := "Old clip"; lengthSeconds := "30"; thumbnail0_url := None;
          author_name := None; viewCount := "3" |};
     formats := [ sample_format 18 (Some "360p") true true;
                  sample_format 22 (Some "720p") true true ] |}.

Definition combined_only_world : world :=
  {| w_info := Fetched combined_only_info;
     w_video := {| ticks := []; stream_end := Finished |};
     w_audio := {| ticks := []; stream_end := Finished |};
     w_merge := {| merge_ticks := []; merge_end := Finished |} |}.

(** The world of a download whose video stream breaks after its file was
    opened. *)
Definition broken_video_world : world :=
  {| w_info := Fetched sample_info;
     w_video := {| ticks := [(1, 10)%N];
                   stream_end := Failed "read ECONNRESET" true |};
     w_audio := {| ticks := []; stream_end := Finished |};
     w_merge := {| merge_ticks := []; merge_end := Finished |} |}.

(** The responses among the events of a trace. *)
Definition responses (events : list event) : list response :=
  omap (fun e => match e with EvResponse r => Some r | _ => None end) events.

(** The step is the handling of an HTTP request. *)
Definition is_request (a : action) : bool :=
  match a with
  | TimerFires _ | Sweep _ => false
  | _ => true
  end.

Definition not_found_response : event :=
  EvResponse {| status_code := 200;
                res_body := BJson {[ "status" := JStr "not_found" ]} |}.

Definition not_ready_response : event :=
  EvResponse {| status_code := 404; res_body := BError "File not found or not ready" |}.

(** The state after two transfers of the served file and the first of
    the two cleanup timers: the file and the entry are gone, the second
    timer is pending. *)
Definition expired_state : server :=
  step sample_validateURL "temp"
    (step sample_validateURL "temp" served_state (File "sid1" true))
    (TimerFires 0).






(** A non-decreasing list of integers between [lo] and [hi]. *)
Definition banded (lo hi : Z) (l : list Z) : Prop :=
  StronglySorted Z.le l /\ Forall (fun z => lo <= z <= hi) l.

(** * The browser client (src/client/src/App.js)

    The React component keeps its state in hooks; a handler is modelled
    as the function from the state before it to the state after it, given
    what [fetch] returned. What the server answers is the [body] its
    handler logged. *)

Definition API_URL : string := "http://localhost:5000".

(** [`${v}`] and [String(v)] *)
Definition template (v : jsval) : string :=
  match v with
  | JUndefined => "undefined"
  | JNull => "null"
  | JBool true => "true"
  | JBool false => "false"
  | JNum n => num_to_string n
  | JStr s => s
  | JObject _ => "[object Object]"
  end.

(** [v || dflt] *)
Definition js_or (v dflt : jsval) : jsval := if truthy v then v else dflt.

(** A value after [JSON.stringify] on the server and [JSON.parse] in the
    client: [NaN] and [Infinity] arrive as [null], a field that is
    [undefined] does not arrive. *)
Fixpoint wire (v : jsval) : jsval :=
  match v with
  | JNum NaN | JNum Infinity => JNull
  | JObject fields =>
      JObject
        ((fix go (l : list (string * jsval)) : list (string * jsval) :=
            match l with
            | [] => []
            | (k, JUndefined) :: l' => go l'
            | (k, x) :: l' => (k, wire x) :: go l'
            end) fields)
  | _ => v
  end.

Definition wire_record (record : gmap string jsval) : gmap string jsval :=
  omap (fun v => match v with JUndefined => None | _ => Some (wire v) end) record.

Definition itag_jsval (i : itag_value) : jsval :=
  match i with
  | ItagNum n => JNum (Int n)
  | ItagName s => JStr s
  end.

Definition opt_str (o : option string) : jsval :=
  match o with
  | Some s => JStr s
  | None => JUndefined
  end.

(** The fields of a response body that hold no array, as the client
    reads them from the parsed document; a file sent by [res.download] is
    no JSON document and has none. *)
Definition body_fields (b : body) : gmap string jsval :=
  match b with
  | BHealth => {[ "message" := JStr "YouTube Downloader API with FFmpeg merging!" ]}
  | BError e => {[ "error" := JStr e ]}
  | BJson record => wire_record record
  | BDebug total _ => {[ "success" := JBool true; "totalFormats" := JNum (Int (Z.of_nat total)) ]}
  | BInfo r =>
      wire_record
        {[ "success" := JBool true; "title" := JStr (ir_title r);
           "duration" := JStr (ir_duration r); "thumbnail" := opt_str (ir_thumbnail r);
           "uploader" := opt_str (ir_uploader r); "view_count" := JStr (ir_view_count r) ]}
  | BInfoFailed details =>
      {[ "success" := JBool false; "error" := JStr "Failed to get video information";
         "details" := JStr details ]}
  | BStarted sessionId =>
      {[ "success" := JBool true; "sessionId" := JStr sessionId;
         "message" := JStr "Download started. Use the session ID to track progress." ]}
  | BDownload _ _ => ∅
  end.

(** [data.name] *)
Definition data_field (b : body) (name : string) : jsval := field (body_fields b) name.

(** [data.videoFormats] *)
Definition data_videoFormats (b : body) : option (list video_option) :=
  match b with
  | BInfo r => Some (ir_videoFormats r)
  | _ => None
  end.

(** What [await fetch(...)] followed by [await response.json()] gives. *)
Inductive fetch_result :=
| Json (data : body)
| FetchError (message : string).

(** [videoInfo]: the parsed document with its two display strings. *)
Record video_view := {
  vv_data : body;
  vv_duration : string;
  vv_view_count : string
}.

Record client := {
  c_url : string;
  c_videoInfo : option video_view;
  c_selectedFormat : jsval;
  c_progress : jsval;
  c_stage : jsval;
  c_error : string;
  c_isLoading : bool;
  c_downloadLink : string;
  c_interval : option jsval    (* the session polled by the running interval *)
}.

Definition initial_client : client :=
  {| c_url := ""; c_videoInfo := None; c_selectedFormat := JNull;
     c_progress := JNum (Int 0); c_stage := JStr ""; c_error := "";
     c_isLoading := false; c_downloadLink := ""; c_interval := None |}.

Definition setUrl (v : string) (c : client) : client :=
  {| c_url := v; c_videoInfo := c_videoInfo c; c_selectedFormat := c_selectedFormat c;
     c_progress := c_progress c; c_stage := c_stage c; c_error := c_error c;
     c_isLoading := c_isLoading c; c_downloadLink := c_downloadLink c;
     c_interval := c_interval c |}.

Definition setVideoInfo (v : option video_view) (c : client) : client :=
  {| c_url := c_url c; c_videoInfo := v; c_selectedFormat := c_selectedFormat c;
     c_progress := c_progress c; c_stage := c_stage c; c_error := c_error c;
     c_isLoading := c_isLoading c; c_downloadLink := c_downloadLink c;
     c_interval := c_interval c |}.

Definition setSelectedFormat (v : jsval) (c : client) : client :=
  {| c_url := c_url c; c_videoInfo := c_videoInfo c; c_selectedFormat := v;
     c_progress := c_progress c; c_stage := c_stage c; c_error := c_error c;
     c_isLoading := c_isLoading c; c_downloadLink := c_downloadLink c;
     c_interval := c_interval c |}.

Definition setProgress (v : jsval) (c : client) : client :=
  {| c_url := c_url c; c_videoInfo := c_videoInfo c; c_selectedFormat := c_selectedFormat c;
     c_progress := v; c_stage := c_stage c; c_error := c_error c;
     c_isLoading := c_isLoading c; c_downloadLink := c_downloadLink c;
     c_interval := c_interval c |}.

Definition setStage (v : jsval) (c : client) : client :=
  {| c_url := c_url c; c_videoInfo := c_videoInfo c; c_selectedFormat := c_selectedFormat c;
     c_progress := c_progress c; c_stage := v; c_error := c_error c;
     c_isLoading := c_isLoading c; c_downloadLink := c_downloadLink c;
     c_interval := c_interval c |}.

Definition setError (v : string) (c : client) : client :=
  {| c_url := c_url c; c_videoInfo := c_videoInfo c; c_selectedFormat := c_selectedFormat c;
     c_progress := c_progress c; c_stage := c_stage c; c_error := v;
     c_isLoading := c_isLoading c; c_downloadLink := c_downloadLink c;
     c_interval := c_interval c |}.

Definition setIsLoading (v : bool) (c : client) : client :=
  {| c_url := c_url c; c_videoInfo := c_videoInfo c; c_selectedFormat := c_selectedFormat c;
     c_progress := c_progress c; c_stage := c_stage c; c_error := c_error c;
     c_isLoading := v; c_downloadLink := c_downloadLink c;
     c_interval := c_interval c |}.

Definition setDownloadLink (v : string) (c : client) : client :=
  {| c_url := c_url c; c_videoInfo := c_videoInfo c; c_selectedFormat := c_selectedFormat c;
     c_progress := c_progress c; c_stage := c_stage c; c_error := c_error c;
     c_isLoading := c_isLoading c; c_downloadLink := v;
     c_interval := c_interval c |}.

(** [progressInterval.current = setInterval(...)] and [clearInterval]. *)
Definition setInterval (v : option jsval) (c : client) : client :=
  {| c_url := c_url c; c_videoInfo := c_videoInfo c; c_selectedFormat := c_selectedFormat c;
     c_progress := c_progress c; c_stage := c_stage c; c_error := c_error c;
     c_isLoading := c_isLoading c; c_downloadLink := c_downloadLink c;
     c_interval := v |}.

Section Client.

(** What the browser computes: [new Date(seconds * 1000).toISOString()]
    for the [duration] of the document, which throws a RangeError on a
    duration that is no number; [Number(v).toLocaleString()]; and the
    message of the TypeError raised by [undefined.length]. *)
Context (toISOString : jsval -> outcome string) (toLocaleString : jsval -> string)
  (undefined_length : string).

(** [formatDuration]: characters 14 to 18 of the ISO date. *)
Definition formatDuration (seconds : jsval) : outcome string :=
  match toISOString seconds with
  | Returned iso => Returned (String.substring 14 5 iso)
  | Threw message => Threw message
  end.

(** The body of the request [handleGetInfo] sends. *)
Definition info_request (c : client) : request_body :=
  {| body_url := JStr (c_url c); body_format := JUndefined; body_quality := JUndefined;
     body_itag := JUndefined |}.

(** [handleGetInfo]; [result] is what the fetch of POST /api/info gave
    (not used when the url is empty: no request is sent). *)
Definition handleGetInfo (result : fetch_result) (c : client) : client :=
  if String.eqb (c_url c) "" then setError "Please enter a YouTube URL." c
  else
    let c1 :=
      setDownloadLink ""
        (setProgress (JNum (Int 0)) (setVideoInfo None (setError "" (setIsLoading true c)))) in
    let failed message (c' : client) :=
      setIsLoading false (setVideoInfo None (setError message c')) in
    match result with
    | FetchError message => failed message c1
    | Json data =>
        if negb (truthy (data_field data "success")) then
          failed (template (js_or (data_field data "details")
                              (JStr "Failed to get video info."))) c1
        else
          match formatDuration (data_field data "duration") with
          | Threw message => failed message c1
          | Returned duration =>
              let c2 :=
                setVideoInfo
                  (Some {| vv_data := data; vv_duration := duration;
                           vv_view_count := toLocaleString (data_field data "view_count") |})
                  c1 in
              match data_videoFormats data with
              | None => failed undefined_length c2
              | Some [] => setIsLoading false c2
              | Some (first :: _) =>
                  setIsLoading false (setSelectedFormat (itag_jsval (vo_itag first)) c2)
              end
          end
    end.

(** The body of the request [handleDownload] sends:
    [JSON.stringify({ url, itag: selectedFormat })]. *)
Definition download_request (c : client) : request_body :=
  {| body_url := JStr (c_url c); body_format := JUndefined; body_quality := JUndefined;
     body_itag := wire (c_selectedFormat c) |}.

(** [handleDownload] up to the start of the polling; [result] is what
    the fetch of POST /api/download gave (not used when no format is
    selected: no request is sent). *)
Definition handleDownload (result : fetch_result) (c : client) : client :=
  if negb (truthy (c_selectedFormat c)) then setError "Please select a format first." c
  else
    let c1 :=
      setStage (JStr "Initializing...")
        (setProgress (JNum (Int 0)) (setError "" (setIsLoading true c))) in
    match result with
    | FetchError message => setIsLoading false (setError message c1)
    | Json data =>
        if negb (truthy (data_field data "success")) then
          setIsLoading false
            (setError (template (js_or (data_field data "error")
                                   (JStr "Failed to start download."))) c1)
        else setInterval (Some (data_field data "sessionId")) c1
    end.

(** One run of the interval callback for [sessionId]; [result] is what
    the fetch of GET /api/progress/:sessionId gave. *)
Definition poll (sessionId : jsval) (result : fetch_result) (c : client) : client :=
  match result with
  | FetchError _ =>
      setIsLoading false (setError "Failed to get progress update." (setInterval None c))
  | Json data =>
      let c1 :=
        setStage (js_or (data_field data "stage") (JStr ""))
          (setProgress (js_or (data_field data "progress") (JNum (Int 0))) c) in
      if is_str (data_field data "status") "completed" then
        setIsLoading false
          (setStage (JStr "Download ready!")
             (setDownloadLink (API_URL +:+ "/api/file/" +:+ template sessionId)
                (setInterval None c1)))
      else if is_str (data_field data "status") "error" then
        setIsLoading false
          (setError ("Error during download: " +:+ template (data_field data "error"))
             (setInterval None c1))
      else c1
  end.

End Client.

(** [rounds] polls of the session's progress, each answered by the
    server: the server state and the client state after them. *)
Fixpoint poll_rounds (rounds : nat) (sessionId : string) (s : server) (c : client)
  : server * client :=
  match rounds with
  | O => (s, c)
  | S n =>
      let s' := run (progress_handler sessionId) s in
      match last (responses (trace s')) with
      | Some r => poll_rounds n sessionId s' (poll (JStr sessionId) (Json (res_body r)) c)
      | None => (s', c)
      end
  end.

(** A client whose user pasted the sample url. *)
Definition sample_client : client :=
  setUrl "https://www.youtube.com/watch?v=abc" initial_client.

(** A browser clock for the sample video of ten seconds. *)
Definition sample_toISOString (seconds : jsval) : outcome string :=
  match seconds with
  | JStr "10" => Returned "1970-01-01T00:00:10.000Z"
  | _ => Threw "Invalid time value"
  end.

(** * The first version: streaming server (src/server/diagonostic.js,
    second part) and its client (src/client/src/App.js, first part) *)


















(** The status a logged write stores. *)
Definition status_written (e : event) : option jsval :=
  match e with
  | EvSet _ record => Some (field record "status")
  | _ => None
  end.

(** The statuses written to the map, in order. *)
Definition statuses (events : list event) : list jsval := omap status_written events.

(** The order in which a session goes through its statuses. *)
Definition status_rank (status : jsval) : Z :=
  if is_str status "initializing" then 0
  else if is_str status "downloading" then 1
  else if is_str status "merging" then 2
  else 3.

(** * Properties *)

(** ** The string and number helpers on sample values *)

Example sanitize_title_sample : sanitize_title "My  clip! (HD) - part-2" = "My_clip_HD_-_part-2".
Proof. reflexivity. Qed.

Example match_digits_p_sample :
  match_digits_p "1080p60 (video-only, will merge with audio)" = Some "1080"
  /\ match_digits_p "hd720 (combined)" = None.
Proof. split; reflexivity. Qed.

Example parseInt_sample :
  parseInt "720" = Int 720 /\ parseInt "108060 HDR" = Int 108060 /\ parseInt "hd" = NaN.
Proof. repeat split; reflexivity. Qed.

Example round_ratio_sample :
  round_ratio 100 1 3 = Int 33 /\ round_ratio 25 50 100 = Int 13
  /\ round_ratio 100 5 0 = Infinity /\ round_ratio 100 0 0 = NaN.
Proof. repeat split; reflexivity. Qed.

Example videoFormats_sample :
  vo_quality <$> videoFormats (formats sample_info)
  = [ "1080p (video-only, will merge with audio)";
      "720p (video-only, will merge with audio)";
      "360p (combined)" ].
Proof. reflexivity. Qed.

Example select_video_format_sample :
  f_itag <$> select_video_format sample_info true = Some 137
  /\ f_itag <$> select_video_format sample_info false = Some 136.
Proof. split; reflexivity. Qed.

(** ** The state after a logged step *)

Lemma trace_log e s : trace (log e s) = trace s ++ [e].
Proof. reflexivity. Qed.

Lemma disk_log e s : disk (log e s) = disk s.
Proof. reflexivity. Qed.

Lemma timers_log e s : timers (log e s) = timers s.
Proof. reflexivity. Qed.

Lemma progress_log e s : downloadProgress (log e s) = downloadProgress s.
Proof. reflexivity. Qed.

Lemma trace_with_progress p s : trace (with_progress p s) = trace s.
Proof. reflexivity. Qed.

Lemma disk_with_progress p s : disk (with_progress p s) = disk s.
Proof. reflexivity. Qed.

Lemma timers_with_progress p s : timers (with_progress p s) = timers s.
Proof. reflexivity. Qed.

Lemma progress_with_progress p s : downloadProgress (with_progress p s) = p.
Proof. reflexivity. Qed.

Lemma trace_with_disk d s : trace (with_disk d s) = trace s.
Proof. reflexivity. Qed.

Lemma disk_with_disk d s : disk (with_disk d s) = d.
Proof. reflexivity. Qed.

Lemma timers_with_disk d s : timers (with_disk d s) = timers s.
Proof. reflexivity. Qed.

Lemma progress_with_disk d s : downloadProgress (with_disk d s) = downloadProgress s.
Proof. reflexivity. Qed.

Lemma trace_with_timers t s : trace (with_timers t s) = trace s.
Proof. reflexivity. Qed.

Lemma disk_with_timers t s : disk (with_timers t s) = disk s.
Proof. reflexivity. Qed.

Lemma timers_with_timers t s : timers (with_timers t s) = t.
Proof. reflexivity. Qed.

Lemma progress_with_timers t s : downloadProgress (with_timers t s) = downloadProgress s.
Proof. reflexivity. Qed.

Lemma trace_add_file p s : trace (add_file p s) = trace s ++ [EvCreate p].
Proof. reflexivity. Qed.

Lemma disk_add_file p s : disk (add_file p s) = {[p]} ∪ disk s.
Proof. reflexivity. Qed.

Lemma timers_add_file p s : timers (add_file p s) = timers s.
Proof. reflexivity. Qed.

Lemma progress_add_file p s : downloadProgress (add_file p s) = downloadProgress s.
Proof. reflexivity. Qed.

Lemma trace_remove_file p s : trace (remove_file p s) = trace s ++ [EvUnlink p].
Proof. reflexivity. Qed.

Lemma disk_remove_file p s : disk (remove_file p s) = disk s ∖ {[p]}.
Proof. reflexivity. Qed.

Lemma timers_remove_file p s : timers (remove_file p s) = timers s.
Proof. reflexivity. Qed.

Lemma progress_remove_file p s : downloadProgress (remove_file p s) = downloadProgress s.
Proof. reflexivity. Qed.

Create Rewrite HintDb server.
#[export] Hint Rewrite trace_add_file disk_add_file timers_add_file progress_add_file
  trace_remove_file disk_remove_file timers_remove_file progress_remove_file : server.
#[export] Hint Rewrite trace_log disk_log timers_log progress_log
  trace_with_progress disk_with_progress timers_with_progress progress_with_progress
  trace_with_disk disk_with_disk timers_with_disk progress_with_disk
  trace_with_timers disk_with_timers timers_with_timers progress_with_timers : server.

Lemma new_events_app s s' evs : trace s' = trace s ++ evs -> new_events s s' = evs.
Proof.
  intros H. unfold new_events. rewrite H. by rewrite drop_app_length.
Qed.

(** ** Tick loops *)

Section Ticks.
Context {X : Type} (sessionId : string)
  (g : X -> option (gmap string jsval) -> gmap string jsval).

Lemma run_ticks_cons x l s :
  run_ticks sessionId g (x :: l) s = run_ticks sessionId g l (apply_set sessionId (g x) s).
Proof. reflexivity. Qed.

Lemma progress_apply_set r s :
  downloadProgress (apply_set sessionId r s)
  = <[sessionId := r (downloadProgress s !! sessionId)]> (downloadProgress s).
Proof. reflexivity. Qed.

Lemma trace_apply_set r s :
  trace (apply_set sessionId r s)
  = trace s ++ [EvSet sessionId (r (downloadProgress s !! sessionId))].
Proof. reflexivity. Qed.

Lemma run_ticks_trace l s :
  trace (run_ticks sessionId g l s)
  = trace s ++ (EvSet sessionId <$> tick_records g (downloadProgress s !! sessionId) l).
Proof.
  revert s. induction l as [|x l IH]; intros s.
  - simpl. by rewrite app_nil_r.
  - rewrite run_ticks_cons, IH, progress_apply_set, trace_apply_set, lookup_insert_eq.
    simpl. by rewrite <- app_assoc.
Qed.

Lemma run_ticks_disk l s : disk (run_ticks sessionId g l s) = disk s.
Proof.
  revert s. induction l as [|x l IH]; intros s; [done|].
  by rewrite run_ticks_cons, IH.
Qed.

Lemma run_ticks_timers l s : timers (run_ticks sessionId g l s) = timers s.
Proof.
  revert s. induction l as [|x l IH]; intros s; [done|].
  by rewrite run_ticks_cons, IH.
Qed.

Lemma run_ticks_lookup_ne l s k :
  k <> sessionId ->
  downloadProgress (run_ticks sessionId g l s) !! k = downloadProgress s !! k.
Proof.
  intros Hk. revert s. induction l as [|x l IH]; intros s; [done|].
  rewrite run_ticks_cons, IH, progress_apply_set.
  by rewrite lookup_insert_ne.
Qed.

Lemma run_ticks_lookup l s :
  downloadProgress (run_ticks sessionId g l s) !! sessionId
  = match last (tick_records g (downloadProgress s !! sessionId) l) with
    | Some r => Some r
    | None => downloadProgress s !! sessionId
    end.
Proof.
  revert s. induction l as [|x l IH]; intros s; [done|].
  rewrite run_ticks_cons, IH, progress_apply_set, lookup_insert_eq.
  destruct l as [|y l]; [done|].
  simpl. destruct (last (_ :: _)) eqn:E; [done|].
  by apply last_None in E.
Qed.

Lemma for_each_ticks (h : X -> M unit) l s :
  (forall x s, h x s = (apply_set sessionId (g x) s, Returned tt)) ->
  for_each l h s = (run_ticks sessionId g l s, Returned tt).
Proof.
  intros Hh. revert s. induction l as [|x l IH]; intros s; [done|].
  rewrite run_ticks_cons. simpl. unfold bind. rewrite Hh. apply IH.
Qed.

End Ticks.

#[export] Hint Rewrite @run_ticks_trace @run_ticks_disk @run_ticks_timers : server.

(** ** Weakest preconditions of the handler code *)

Section WpRules.
Context {A B : Type}.

Lemma wp_ret (a : A) Q s : Q (Returned a) s -> wp (ret a) Q s.
Proof. done. Qed.

Lemma wp_throw message (Q : outcome A -> server -> Prop) s :
  Q (Threw message) s -> wp (throw message) Q s.
Proof. done. Qed.

Lemma wp_bind (m : M A) (k : A -> M B) Q s :
  wp m (fun o s' =>
          match o with
          | Returned a => wp (k a) Q s'
          | Threw e => Q (Threw e) s'
          end) s ->
  wp (bind m k) Q s.
Proof. unfold wp, bind. by destruct (m s) as [s' [a|e]]. Qed.

Lemma wp_try_catch (m : M A) (h : string -> M A) Q s :
  wp m (fun o s' =>
          match o with
          | Returned a => Q (Returned a) s'
          | Threw e => wp (h e) Q s'
          end) s ->
  wp (try_catch m h) Q s.
Proof. unfold wp, try_catch. by destruct (m s) as [s' [a|e]]. Qed.

Lemma wp_mono (m : M A) (Q Q' : outcome A -> server -> Prop) s :
  wp m Q s -> (forall o s', Q o s' -> Q' o s') -> wp m Q' s.
Proof. unfold wp. auto. Qed.

End WpRules.

Lemma wp_emit e (Q : outcome unit -> server -> Prop) s :
  Q (Returned tt) (log e s) -> wp (emit e) Q s.
Proof. done. Qed.

Lemma wp_respond code b (Q : outcome unit -> server -> Prop) s :
  Q (Returned tt) (log (EvResponse {| status_code := code; res_body := b |}) s) ->
  wp (respond code b) Q s.
Proof. done. Qed.

Lemma wp_progress_get sid (Q : outcome _ -> server -> Prop) s :
  Q (Returned (downloadProgress s !! sid)) s -> wp (progress_get sid) Q s.
Proof. done. Qed.

Lemma wp_progress_set sid r (Q : outcome unit -> server -> Prop) s :
  Q (Returned tt) (apply_set sid (fun _ => r) s) -> wp (progress_set sid r) Q s.
Proof. done. Qed.

Lemma wp_progress_delete sid (Q : outcome unit -> server -> Prop) s :
  Q (Returned tt)
    (log (EvDelete sid) (with_progress (delete sid (downloadProgress s)) s)) ->
  wp (progress_delete sid) Q s.
Proof. done. Qed.

Lemma wp_existsSync path (Q : outcome bool -> server -> Prop) s :
  Q (Returned (present path s)) s -> wp (existsSync path) Q s.
Proof. done. Qed.

Lemma wp_unlinkSync_present path (Q : outcome unit -> server -> Prop) s :
  path ∈ disk s ->
  Q (Returned tt) (remove_file path s) ->
  wp (unlinkSync path) Q s.
Proof.
  intros Hin HQ. unfold wp, unlinkSync, present. by rewrite bool_decide_eq_true_2.
Qed.

Lemma wp_create_file path (Q : outcome unit -> server -> Prop) s :
  Q (Returned tt) (add_file path s) ->
  wp (create_file path) Q s.
Proof. done. Qed.

Lemma wp_setTimeout_cleanup path sid (Q : outcome unit -> server -> Prop) s :
  Q (Returned tt)
    (log (EvTimer path sid) (with_timers (timers s ++ [(path, sid)]) s)) ->
  wp (setTimeout_cleanup path sid) Q s.
Proof. done. Qed.

Lemma wp_for_each_ticks {X} sid (g : X -> option (gmap string jsval) -> gmap string jsval)
    (h : X -> M unit) l (Q : outcome unit -> server -> Prop) s :
  (forall x s, h x s = (apply_set sid (g x) s, Returned tt)) ->
  Q (Returned tt) (run_ticks sid g l s) ->
  wp (for_each l h) Q s.
Proof. intros Hh HQ. unfold wp. by rewrite (for_each_ticks sid g h l s Hh). Qed.

Lemma wp_run {A} (m : M A) (P : server -> Prop) s :
  wp m (fun _ s' => P s') s -> P (run m s).
Proof. done. Qed.

Lemma is_str_true v text : is_str v text = true <-> v = JStr text.
Proof.
  destruct v; simpl; try (split; [discriminate | congruence]).
  rewrite String.eqb_eq. split; congruence.
Qed.

Lemma field_is_str record name text :
  is_str (field record name) text = true <-> record !! name = Some (JStr text).
Proof.
  rewrite is_str_true. unfold field.
  destruct (record !! name); simpl; split; congruence.
Qed.

(** ** Polling and serving *)

(** C10: GET /api/progress/:sessionId for a session id without an entry
    answers with status 200 and the body [{status: 'not_found'}]; the
    progress map, the disk and the timers are what they were. *)
Theorem progress_unknown_session (s : server) (sessionId : string) :
  downloadProgress s !! sessionId = None ->
  run (progress_handler sessionId) s
  = log (EvResponse {| status_code := 200;
                       res_body := BJson {[ "status" := JStr "not_found" ]} |}) s
  /\ downloadProgress (run (progress_handler sessionId) s) = downloadProgress s.
Proof.
  intros Hnone.
  assert (run (progress_handler sessionId) s
          = log (EvResponse {| status_code := 200;
                               res_body := BJson {[ "status" := JStr "not_found" ]} |}) s)
    as Hrun.
  { unfold run, progress_handler, bind, progress_get. by rewrite Hnone. }
  by rewrite Hrun.
Qed.

Lemma progress_known_session (s : server) (sessionId : string) record :
  downloadProgress s !! sessionId = Some record ->
  run (progress_handler sessionId) s
  = log (EvResponse {| status_code := 200; res_body := BJson record |}) s.
Proof.
  intros Hsome. unfold run, progress_handler, bind, progress_get. by rewrite Hsome.
Qed.

(** C8: when the url of the request body fails [validateURL], each of
    POST /api/info, POST /api/debug and POST /api/download answers 400
    with [{error: 'Invalid YouTube URL'}] and does nothing else; for
    /api/download the only response carries no session id and the
    progress map is unchanged. *)
Theorem invalid_url_rejected (validateURL : jsval -> bool) (tempDir : string)
    (s : server) (sessionId : string) (req : request_body) (result : fetched)
    (w : world) :
  validateURL (body_url req) = false ->
  run (info_handler validateURL req result) s = log invalid_url_response s
  /\ run (debug_handler validateURL req result) s = log invalid_url_response s
  /\ run (download_handler validateURL tempDir sessionId req w) s
     = log invalid_url_response s
  /\ downloadProgress (run (download_handler validateURL tempDir sessionId req w) s)
     = downloadProgress s.
Proof.
  intros Hbad.
  assert (run (download_handler validateURL tempDir sessionId req w) s
          = log invalid_url_response s) as Hdl.
  { unfold run, download_handler, try_catch. by rewrite Hbad. }
  repeat split.
  - unfold run, info_handler, try_catch. by rewrite Hbad.
  - unfold run, debug_handler, try_catch. by rewrite Hbad.
  - exact Hdl.
  - by rewrite Hdl.
Qed.

Ltac not_served :=
  split; [reflexivity|]; split; [reflexivity|]; right;
  split; [|split; [reflexivity | eexists; reflexivity]].

(** C9: GET /api/file/:sessionId never changes the progress map or the
    disk; it serves the recorded file under the recorded filename exactly
    when the session has a record with status 'completed' whose filePath
    is on disk, and answers 404 in every other case. *)
Theorem file_served_iff_ready (s : server) (sessionId : string) (transferred : bool) :
  let s' := run (file_handler sessionId transferred) s in
  downloadProgress s' = downloadProgress s
  /\ disk s' = disk s
  /\ ((exists path filename,
          file_ready s sessionId path filename
          /\ trace s'
             = trace s
               ++ EvResponse {| status_code := 200;
                                res_body := BDownload (JStr path) filename |}
               :: (if transferred then [EvTimer path sessionId] else []))
      \/ ((forall path filename, ~ file_ready s sessionId path filename)
          /\ timers s' = timers s
          /\ exists message,
               trace s'
               = trace s
                 ++ [EvResponse {| status_code := 404; res_body := BError message |}])).
Proof.
  unfold run, file_handler, bind, progress_get. simpl.
  destruct (downloadProgress s !! sessionId) as [record|] eqn:Hrec.
  2:{ not_served. intros path filename (r & Hr & _). congruence. }
  destruct (is_str (field record "status") "completed") eqn:Hstatus; simpl.
  2:{ not_served. intros path filename (r & Hr & Hst & _).
      assert (r = record) as -> by congruence.
      apply field_is_str in Hst. congruence. }
  apply field_is_str in Hstatus.
  assert (forall p, record !! "filePath" = Some (JStr p)
                    <-> field record "filePath" = JStr p) as Hfield.
  { intros p. unfold field. destruct (record !! "filePath"); simpl; split; congruence. }
  destruct (field record "filePath") as [| |b|n|path|fields] eqn:Hpath; simpl;
    try (not_served; intros path' filename (r & Hr & _ & Hp & _);
         assert (r = record) as -> by congruence;
         apply Hfield in Hp; congruence).
  assert (record !! "filePath" = Some (JStr path)) as Hlookup by by apply Hfield.
  unfold existsSync, present. simpl.
  destruct (bool_decide (path ∈ disk s)) eqn:Hdisk; simpl.
  - apply bool_decide_eq_true_1 in Hdisk.
    assert (file_ready s sessionId path (field record "filename")) as Hready.
    { exists record. done. }
    destruct transferred; simpl;
      (split; [reflexivity|]; split; [reflexivity|]); left;
      eexists _, _; (split; [exact Hready | simpl; by rewrite <- ?app_assoc]).
  - apply bool_decide_eq_false_1 in Hdisk.
    not_served. intros path' filename (r & Hr & _ & Hp & _ & Hin).
    assert (r = record) as -> by congruence.
    assert (path' = path) as -> by congruence. done.
Qed.


(** ** Sorting *)

Section SortFacts.
Context {A : Type} (cmp : A -> A -> number) (R : A -> A -> Prop).
Hypothesis R_trans : forall x y z, R x y -> R y z -> R x z.
Hypothesis cmp_keep : forall x y, positive_result (cmp x y) = false -> R x y.
Hypothesis cmp_swap : forall x y, positive_result (cmp x y) = true -> R y x.

Lemma elem_of_sort_insert x a l : x ∈ sort_insert cmp a l <-> x = a \/ x ∈ l.
Proof.
  induction l as [|y l IH]; simpl.
  - rewrite list_elem_of_singleton, elem_of_nil. tauto.
  - destruct (positive_result (cmp a y)).
    + rewrite !elem_of_cons, IH. tauto.
    + rewrite !elem_of_cons. tauto.
Qed.

Lemma elem_of_js_sort x l : x ∈ js_sort cmp l <-> x ∈ l.
Proof.
  induction l as [|y l IH]; simpl; [done|].
  rewrite elem_of_sort_insert, elem_of_cons, IH. tauto.
Qed.

Lemma length_sort_insert a l : length (sort_insert cmp a l) = S (length l).
Proof.
  induction l as [|y l IH]; simpl; [done|].
  destruct (positive_result (cmp a y)); simpl; by rewrite ?IH.
Qed.

Lemma length_js_sort l : length (js_sort cmp l) = length l.
Proof.
  induction l as [|y l IH]; simpl; [done|].
  by rewrite length_sort_insert, IH.
Qed.




End SortFacts.

(** ** The heights read by the comparator of POST /api/info *)

Lemma digit_not_space c : is_digit c = true -> is_space c = false.
Proof.
  unfold is_digit, is_space. intros H.
  apply andb_true_iff in H as [H1 H2].
  apply Nat.leb_le in H1. apply Nat.leb_le in H2.
  apply orb_false_iff. split.
  - apply andb_false_iff. right. apply Nat.leb_gt. lia.
  - apply Nat.eqb_neq. lia.
Qed.

Lemma digit_not_code c n : is_digit c = true -> (n < 48)%nat -> (char_code c =? n)%nat = false.
Proof.
  unfold is_digit. intros H Hn.
  apply andb_true_iff in H as [H1 _]. apply Nat.leb_le in H1.
  apply Nat.eqb_neq. lia.
Qed.

















(** ** File names *)

Lemma str_last_app a b :
  str_last (a +:+ b) = match str_last b with
                       | Some l => Some l
                       | None => str_last a
                       end.
Proof.
  induction a as [|c a IH].
  - change ("" +:+ b) with b. by destruct (str_last b).
  - change (String c a +:+ b) with (String c (a +:+ b)).
    simpl. rewrite IH. by destruct (str_last b).
Qed.

Lemma video_audio_paths_differ tempDir title sessionId :
  path_join tempDir (title +:+ "_video_" +:+ sessionId +:+ ".mp4")
  <> path_join tempDir (title +:+ "_audio_" +:+ sessionId +:+ ".m4a").
Proof.
  unfold path_join. intros H. apply (f_equal str_last) in H.
  rewrite !str_last_app in H. simpl in H. discriminate.
Qed.

(** ** Stepping through handler code *)

Lemma bytes_progress_spec sid stage tick s :
  bytes_progress sid stage tick s
  = (apply_set sid (fun _ => bytes_record stage tick.1 tick.2) s, Returned tt).
Proof. by destruct tick. Qed.

Lemma stream_progress_spec sid base ty tick s :
  stream_progress sid base ty tick s
  = (apply_set sid (fun current => stream_tick_record base ty current tick) s,
     Returned tt).
Proof. reflexivity. Qed.

Lemma merge_progress_spec sid t s :
  merge_progress sid t s = (apply_set sid (fun _ => merge_tick_record t) s, Returned tt).
Proof. reflexivity. Qed.

Lemma unlink_if_exists_spec path s :
  unlink_if_exists path s = (remove_present path s, Returned tt).
Proof.
  unfold unlink_if_exists, remove_present, bind, existsSync, unlinkSync.
  destruct (present path s) eqn:H; simpl; by rewrite ?H.
Qed.

Lemma wp_unlink_if_exists path (Q : outcome unit -> server -> Prop) s :
  Q (Returned tt) (remove_present path s) -> wp (unlink_if_exists path) Q s.
Proof. intros HQ. unfold wp. by rewrite unlink_if_exists_spec. Qed.

Lemma progress_remove_present path s :
  downloadProgress (remove_present path s) = downloadProgress s.
Proof. unfold remove_present. by destruct (present _ _). Qed.

Lemma timers_remove_present path s : timers (remove_present path s) = timers s.
Proof. unfold remove_present. by destruct (present _ _). Qed.

Lemma disk_remove_present path s : disk (remove_present path s) = disk s ∖ {[path]}.
Proof.
  unfold remove_present, present. destruct (bool_decide _) eqn:H; [done|].
  apply bool_decide_eq_false_1 in H. set_solver.
Qed.

Lemma trace_remove_present path s :
  trace (remove_present path s)
  = trace s ++ (if present path s then [EvUnlink path] else []).
Proof.
  unfold remove_present. destruct (present _ _); [done|].
  by rewrite app_nil_r.
Qed.

#[export] Hint Rewrite progress_remove_present timers_remove_present
  disk_remove_present trace_remove_present : server.

Lemma progress_apply_set_const sid r s :
  downloadProgress (apply_set sid (fun _ => r) s) = <[sid := r]> (downloadProgress s).
Proof. reflexivity. Qed.

Lemma trace_apply_set_const sid r s :
  trace (apply_set sid (fun _ => r) s) = trace s ++ [EvSet sid r].
Proof. reflexivity. Qed.

Lemma disk_apply_set sid r s : disk (apply_set sid r s) = disk s.
Proof. reflexivity. Qed.

Lemma timers_apply_set sid r s : timers (apply_set sid r s) = timers s.
Proof. reflexivity. Qed.

#[export] Hint Rewrite progress_apply_set_const trace_apply_set_const
  disk_apply_set timers_apply_set : server.

Ltac wp_reduce := cbv beta iota zeta.

Ltac wp_step :=
  wp_reduce;
  lazymatch goal with
  | |- wp (bind _ _) _ _ => apply wp_bind
  | |- wp (try_catch _ _) _ _ => apply wp_try_catch
  | |- wp (ret _) _ _ => apply wp_ret
  | |- wp (throw _) _ _ => apply wp_throw
  | |- wp (emit _) _ _ => apply wp_emit
  | |- wp (respond _ _) _ _ => apply wp_respond
  | |- wp (progress_set _ _) _ _ => apply wp_progress_set
  | |- wp (progress_get _) _ _ => apply wp_progress_get
  | |- wp (progress_delete _) _ _ => apply wp_progress_delete
  | |- wp (create_file _) _ _ => apply wp_create_file
  | |- wp (existsSync _) _ _ => apply wp_existsSync
  | |- wp (setTimeout_cleanup _ _) _ _ => apply wp_setTimeout_cleanup
  | |- wp (unlink_if_exists _) _ _ => apply wp_unlink_if_exists
  | |- wp (for_each _ (bytes_progress ?sid ?stage)) _ _ =>
      apply (wp_for_each_ticks sid (fun tick _ => bytes_record stage tick.1 tick.2));
      [intros; apply bytes_progress_spec|]
  | |- wp (for_each _ (stream_progress ?sid ?base ?ty)) _ _ =>
      apply (wp_for_each_ticks sid
               (fun tick current => stream_tick_record base ty current tick));
      [intros; apply stream_progress_spec|]
  | |- wp (for_each _ (merge_progress ?sid)) _ _ =>
      apply (wp_for_each_ticks sid (fun t _ => merge_tick_record t));
      [intros; apply merge_progress_spec|]
  | |- wp (for_each (_ :: _) _) _ _ => simpl for_each
  | |- wp (for_each [] _) _ _ => simpl for_each
  | |- wp (getInfo _) _ _ => unfold getInfo
  | |- wp (pipe _ _ _ _ _) _ _ => unfold pipe
  | |- wp (downloadAudio _ _ _ _ _) _ _ => unfold downloadAudio
  | |- wp (downloadRegularVideo _ _ _ _ _ _) _ _ => unfold downloadRegularVideo
  | |- wp (downloadVideoStream _ _ _ _ _ _) _ _ => unfold downloadVideoStream
  | |- wp (downloadAudioStream _ _ _ _) _ _ => unfold downloadAudioStream
  | |- wp (mergeWithFFmpeg _ _ _ _ _) _ _ => unfold mergeWithFFmpeg
  | |- wp (downloadAndMergeWithFFmpeg _ _ _ _ _ _) _ _ =>
      unfold downloadAndMergeWithFFmpeg
  | |- wp (download_work _ _ _ _) _ _ => unfold download_work
  | |- wp (download_handler _ _ _ _ _) _ _ => unfold download_handler
  end.

Ltac wp_known b :=
  match goal with
  | H : b = _ |- _ => rewrite H
  | H : ?x = _ |- _ =>
      lazymatch b with context [x] => rewrite H end
  end.

Ltac wp_branch :=
  wp_reduce;
  lazymatch goal with
  | |- wp (if file_created_by ?e then _ else _) _ _ =>
      first [ wp_known e | destruct e as [|? []] eqn:? ]; cbn [file_created_by]
  | |- wp (if ?b then _ else _) _ _ =>
      first [ wp_known b; cbn [file_created_by negb] | destruct b eqn:? ]
  | |- wp (match ?x with _ => _ end) _ _ =>
      first [ wp_known x; cbn [file_created_by negb] | destruct x eqn:? ]
  end.

(** Normalises the projections of a state built by the handler steps. *)
Ltac project :=
  repeat (rewrite_strat (topdown (hints server)));
  rewrite ?lookup_insert_eq.

Ltac wp_unlink :=
  wp_reduce;
  lazymatch goal with
  | |- wp (unlinkSync _) _ _ =>
      apply wp_unlinkSync_present;
      [ project; pose proof video_audio_paths_differ; set_solver
      | ]
  end.

Ltac wp_go := repeat first [ wp_step | wp_branch | wp_unlink ]; wp_reduce.

(** ** The fields of the records the server writes *)

Lemma status_record3 st p sg : record3 st p sg !! "status" = Some (JStr st).
Proof. reflexivity. Qed.

Lemma status_error_record m : error_record m !! "status" = Some (JStr "error").
Proof. reflexivity. Qed.

Lemma status_completed_record sg path name :
  completed_record sg path name !! "status" = Some (JStr "completed").
Proof. reflexivity. Qed.

Lemma status_bytes_record sg d t :
  bytes_record sg d t !! "status" = Some (JStr "downloading").
Proof. reflexivity. Qed.

Lemma status_merge_tick_record t :
  merge_tick_record t !! "status" = Some (JStr "merging").
Proof. reflexivity. Qed.

Lemma status_spread_record r p sg :
  spread_record (Some r) p sg !! "status" = r !! "status".
Proof.
  unfold spread_record. simpl.
  rewrite lookup_insert_ne by done. by rewrite lookup_insert_ne by done.
Qed.

Lemma status_stream_tick_record base ty r tick :
  stream_tick_record base ty (Some r) tick !! "status" = r !! "status".
Proof. destruct tick. apply status_spread_record. Qed.

Section TickRecords.
Context {X : Type} (g : X -> option (gmap string jsval) -> gmap string jsval)
  (P : gmap string jsval -> Prop).
Hypothesis g_keeps : forall x r, P r -> P (g x (Some r)).

Lemma tick_records_Forall r l : P r -> Forall P (tick_records g (Some r) l).
Proof.
  revert r. induction l as [|x l IH]; intros r Hr; simpl; constructor; auto.
Qed.

End TickRecords.

Lemma status_not_completed record st :
  record !! "status" = Some (JStr st) -> String.eqb st "completed" = false ->
  not_completed record.
Proof. intros H Hst. unfold not_completed, field. by rewrite H. Qed.

Lemma milestones_sets_not_completed sid records :
  Forall not_completed records -> milestones (EvSet sid <$> records) = [].
Proof.
  induction 1 as [|r records Hr _ IH]; simpl; [done|].
  unfold not_completed in Hr. by rewrite Hr.
Qed.

Lemma milestones_app l1 l2 : milestones (l1 ++ l2) = milestones l1 ++ milestones l2.
Proof. apply List.filter_app. Qed.

Lemma milestones_cons e l :
  milestones (e :: l) = if is_milestone e then e :: milestones l else milestones l.
Proof. reflexivity. Qed.

(** ** Milestones of a trace *)

Lemma milestones_set_skip sid r l :
  not_completed r -> milestones (EvSet sid r :: l) = milestones l.
Proof. intros H. unfold not_completed in H. by rewrite milestones_cons; simpl; rewrite H. Qed.

Lemma milestones_set_keep sid r l :
  r !! "status" = Some (JStr "completed") ->
  milestones (EvSet sid r :: l) = EvSet sid r :: milestones l.
Proof.
  intros H. rewrite milestones_cons. simpl.
  by rewrite (proj2 (field_is_str r "status" "completed") H).
Qed.

Lemma stream_ticks_not_completed base ty r l :
  r !! "status" = Some (JStr "downloading") ->
  Forall not_completed
    (tick_records (fun tick current => stream_tick_record base ty current tick)
       (Some r) l).
Proof.
  intros Hr.
  eapply Forall_impl;
    [ apply (tick_records_Forall _ (fun r => r !! "status" = Some (JStr "downloading")));
      [|exact Hr]
    | ].
  - intros tick r' Hr'. cbv beta in *. by rewrite status_stream_tick_record.
  - intros r' Hr'. cbv beta in *. by eapply status_not_completed.
Qed.

Lemma bytes_ticks_not_completed stage current l :
  Forall not_completed
    (tick_records (fun (tick : N * N) (_ : option (gmap string jsval)) =>
                     bytes_record stage tick.1 tick.2) current l).
Proof.
  revert current. induction l as [|x l IH]; intros current; simpl; constructor; auto.
  reflexivity.
Qed.

Lemma merge_ticks_not_completed current l :
  Forall not_completed
    (tick_records (fun (t : ffmpeg_tick) (_ : option (gmap string jsval)) =>
                     merge_tick_record t) current l).
Proof.
  revert current. induction l as [|x l IH]; intros current; simpl; constructor; auto.
  reflexivity.
Qed.

Ltac milestones_go :=
  repeat first
    [ rewrite milestones_app
    | rewrite milestones_sets_not_completed
        by first [ apply stream_ticks_not_completed; reflexivity
                 | apply bytes_ticks_not_completed
                 | apply merge_ticks_not_completed ]
    | rewrite milestones_set_skip by reflexivity
    | rewrite milestones_set_keep by reflexivity
    | rewrite milestones_cons; cbn [is_milestone] ];
  cbn [app].

(** The trace of a handler run from its final state. *)
Ltac trace_closed_form :=
  erewrite new_events_app;
  [| project; rewrite <- ?app_assoc; cbn [app]; reflexivity ].

(** ** The merge pipeline *)

(** C1 (as the code runs it): for a download request with a valid url, a
    format other than 'mp3' and an FFmpeg-merge preset itag, when the
    metadata is fetched, a video-only format exists and both streams and
    the merge succeed, the handler runs in this order, each operation
    resolving before the next begins: getInfo, format selection, video
    stream, audio stream, merge, deletion of the video file, deletion of
    the audio file, and last the write of the completed record carrying
    the output path. *)
Theorem merge_pipeline_order (validateURL : jsval -> bool) (tempDir sessionId : string)
    (req : request_body) (w : world) (info : video_info) (f : format) (s : server) :
  validateURL (body_url req) = true ->
  is_str (body_format req) "mp3" = false ->
  is_ffmpeg_preset (body_itag req) = true ->
  w_info w = Fetched info ->
  select_video_format info (is_str (body_itag req) "ffmpeg-best") = Some f ->
  stream_end (w_video w) = Finished ->
  stream_end (w_audio w) = Finished ->
  merge_end (w_merge w) = Finished ->
  let title := sanitize_title (title (videoDetails info)) in
  milestones
    (new_events s (run (download_handler validateURL tempDir sessionId req w) s))
  = merge_order
      (path_join tempDir (title +:+ "_video_" +:+ sessionId +:+ ".mp4"))
      (path_join tempDir (title +:+ "_audio_" +:+ sessionId +:+ ".m4a"))
      (EvSet sessionId
         (completed_record "Download and merge completed!"
            (path_join tempDir (title +:+ "_merged_" +:+ sessionId +:+ ".mp4"))
            (title +:+ "_merged.mp4"))).
Proof.
  intros Hvalid Hfmt Hpreset Hinfo Hsel Hvideo Haudio Hmerge title'.
  match goal with
  | |- milestones (new_events s _) = ?r =>
      apply (wp_run _ (fun s' => milestones (new_events s s') = r))
  end.
  unfold download_handler. rewrite Hvalid. simpl negb.
  wp_go. trace_closed_form. milestones_go. reflexivity.
Qed.

Lemma merge_pipeline_order_witness :
  milestones
    (new_events initial_server
       (run (download_handler sample_validateURL "temp" "sid1"
               (sample_request (JStr "mp4") (JStr "ffmpeg-best")) sample_world)
          initial_server))
  = merge_order "temp/My_clip_video_sid1.mp4" "temp/My_clip_audio_sid1.m4a"
      (EvSet "sid1"
         (completed_record "Download and merge completed!"
            "temp/My_clip_merged_sid1.mp4" "My_clip_merged.mp4")).
Proof.
  exact (merge_pipeline_order sample_validateURL "temp" "sid1"
           (sample_request (JStr "mp4") (JStr "ffmpeg-best")) sample_world sample_info
           (sample_format 137 (Some "1080p") true false) initial_server
           eq_refl eq_refl eq_refl eq_refl eq_refl eq_refl eq_refl eq_refl).
Defined.

(** C1 (as stated) fails: in the run of the sample merge request the
    completed record is written after the two stream files are deleted,
    not before; a request with format 'mp3' and a preset itag runs the
    audio-only download, without video stream and merge; and a merge
    request whose audio stream breaks never reaches the merge. *)
Lemma completed_then_deleted_fails :
  (forall videoPath audioPath completed,
      milestones
        (new_events initial_server
           (run (download_handler sample_validateURL "temp" "sid1"
                   (sample_request (JStr "mp4") (JStr "ffmpeg-best")) sample_world)
              initial_server))
      <> completed_then_deleted videoPath audioPath completed)
  /\ (forall videoPath audioPath completed,
      milestones
        (new_events initial_server
           (run (download_handler sample_validateURL "temp" "sid1"
                   (sample_request (JStr "mp3") (JStr "ffmpeg-best")) sample_world)
              initial_server))
      <> completed_then_deleted videoPath audioPath completed)
  /\ (forall videoPath audioPath completed,
      milestones
        (new_events initial_server
           (run (download_handler sample_validateURL "temp" "sid1"
                   (sample_request (JStr "mp4") (JStr "ffmpeg-best"))
                   broken_audio_world)
              initial_server))
      <> completed_then_deleted videoPath audioPath completed).
Proof.
  repeat split; intros videoPath audioPath completed H; vm_compute in H;
    discriminate H.
Qed.

Lemma progress_unknown_session_witness :
  run (progress_handler "sid1") initial_server
  = log (EvResponse {| status_code := 200;
                       res_body := BJson {[ "status" := JStr "not_found" ]} |})
      initial_server.
Proof.
  exact (proj1 (progress_unknown_session initial_server "sid1" eq_refl)).
Defined.

Lemma invalid_url_rejected_witness :
  run (download_handler sample_validateURL "temp" "sid1" invalid_request sample_world)
    initial_server
  = log invalid_url_response initial_server.
Proof.
  exact (proj1 (proj2 (proj2
           (invalid_url_rejected sample_validateURL "temp" initial_server "sid1"
              invalid_request (Fetched sample_info) sample_world eq_refl)))).
Defined.

(** ** Files are named with the session id *)

Lemma prefix_app n x : String.prefix n (n +:+ x) = true.
Proof.
  induction n as [|c n IH]; [by destruct x|].
  change (String c n +:+ x) with (String c (n +:+ x)). simpl.
  rewrite IH. by destruct (ascii_dec c c).
Qed.

Lemma includes_unfold n s :
  includes n s
  = String.prefix n s
    || match s with
       | EmptyString => false
       | String _ s' => includes n s'
       end.
Proof. by destruct s. Qed.

Lemma includes_here n x : includes n (n +:+ x) = true.
Proof. by rewrite includes_unfold, prefix_app. Qed.

Lemma includes_app_r n a b : includes n b = true -> includes n (a +:+ b) = true.
Proof.
  intros H. induction a as [|c a IH]; [done|].
  change (String c a +:+ b) with (String c (a +:+ b)).
  rewrite includes_unfold, IH. apply orb_true_r.
Qed.

Lemma includes_session_path tempDir title kind sessionId ext :
  includes sessionId (path_join tempDir (title +:+ kind +:+ sessionId +:+ ext)) = true.
Proof.
  unfold path_join. do 4 apply includes_app_r. apply includes_here.
Qed.

(** ** Shapes of the written records *)

Lemma shape_record3 st p sg : is_status st = true -> well_shaped (record3 st p sg).
Proof.
  intros H. split; [|reflexivity]. unfold shape_ok. by rewrite status_record3, H.
Qed.

Lemma shape_error_record m : well_shaped (error_record m).
Proof. split; reflexivity. Qed.

Lemma shape_completed_record sg path name : well_shaped (completed_record sg path name).
Proof. split; reflexivity. Qed.

Lemma shape_bytes_record sg d t : well_shaped (bytes_record sg d t).
Proof. split; reflexivity. Qed.

Lemma shape_merge_tick_record t : well_shaped (merge_tick_record t).
Proof. split; reflexivity. Qed.

Lemma shape_spread_record r p sg :
  well_shaped r -> well_shaped (spread_record (Some r) p sg).
Proof.
  unfold well_shaped, shape_ok, spread_record. simpl. intros [H Htime].
  rewrite lookup_insert_eq.
  rewrite !(lookup_insert_ne _ "stage") by done.
  rewrite lookup_insert_eq.
  rewrite !(lookup_insert_ne _ "progress") by done.
  split; [|exact Htime].
  repeat (apply andb_true_iff in H as [H ?]).
  repeat (apply andb_true_iff; split); try done.
Qed.

Lemma shape_stream_tick_record base ty r tick :
  well_shaped r -> well_shaped (stream_tick_record base ty (Some r) tick).
Proof. destruct tick. apply shape_spread_record. Qed.

(** ** The outcome of a download *)

Lemma begun_app l1 l2 : begun (l1 ++ l2) = begun l1 ++ begun l2.
Proof. apply omap_app. Qed.

Lemma begun_sets sid records : begun (EvSet sid <$> records) = [].
Proof. induction records; simpl; auto. Qed.

Lemma begun_unlink_if (b : bool) path : begun (if b then [EvUnlink path] else []) = [].
Proof. by destruct b. Qed.

Lemma begun_cons e l :
  begun (e :: l) = match e with
                   | EvBegin st => st :: begun l
                   | _ => begun l
                   end.
Proof. by destruct e. Qed.

Ltac begun_go :=
  repeat first
    [ rewrite begun_app
    | rewrite begun_sets
    | rewrite begun_unlink_if
    | rewrite begun_cons; cbv beta iota ];
  cbn [app begun omap].

Lemma Forall_sets (P : event -> Prop) (R : gmap string jsval -> Prop) sid records :
  (forall r, R r -> P (EvSet sid r)) -> Forall R records -> Forall P (EvSet sid <$> records).
Proof. intros HP HR. apply Forall_fmap. eapply Forall_impl; eauto. Qed.

Lemma stream_ticks_shaped base ty r l :
  well_shaped r ->
  Forall well_shaped
    (tick_records (fun tick current => stream_tick_record base ty current tick)
       (Some r) l).
Proof.
  intros Hr. apply (tick_records_Forall _ well_shaped); [|exact Hr].
  intros tick r' Hr'. by apply shape_stream_tick_record.
Qed.

Lemma bytes_ticks_shaped stage current l :
  Forall well_shaped
    (tick_records (fun (tick : N * N) (_ : option (gmap string jsval)) =>
                     bytes_record stage tick.1 tick.2) current l).
Proof.
  revert current. induction l as [|x l IH]; intros current; simpl; constructor; auto.
  apply shape_bytes_record.
Qed.

Lemma merge_ticks_shaped current l :
  Forall well_shaped
    (tick_records (fun (t : ffmpeg_tick) (_ : option (gmap string jsval)) =>
                     merge_tick_record t) current l).
Proof.
  revert current. induction l as [|x l IH]; intros current; simpl; constructor; auto.
  apply shape_merge_tick_record.
Qed.

Lemma Forall_unlink_if (P : event -> Prop) (b : bool) path :
  P (EvUnlink path) -> Forall P (if b then [EvUnlink path] else []).
Proof. destruct b; repeat constructor; auto. Qed.

Ltac ticks_shaped :=
  first [ apply stream_ticks_shaped; split; reflexivity
        | apply bytes_ticks_shaped
        | apply merge_ticks_shaped ].

Ltac session_events_go :=
  repeat first
    [ apply Forall_nil
    | apply Forall_cons; split
    | apply Forall_app; split
    | apply Forall_unlink_if
    | apply (Forall_sets _ well_shaped); [intros ? ?; split; [reflexivity | assumption] | ticks_shaped]
    | apply includes_session_path
    | exact I
    | split; [reflexivity | split; reflexivity] ].

Ltac quiet_go :=
  repeat first
    [ apply Forall_nil
    | apply Forall_cons; split; [exact I|]
    | apply Forall_app; split
    | apply (Forall_sets _ (fun _ => True)); [intros; exact I | apply Forall_true]
    | exact I
    | intros; exact I ].

Ltac report_go :=
  repeat first
    [ apply Forall_nil
    | apply Forall_cons; split
    | apply Forall_app; split
    | apply Forall_unlink_if
    | exact I
    | split; reflexivity ].

Lemma split_here {A} (x : A) l : x :: l = [] ++ x :: l.
Proof. reflexivity. Qed.

Lemma split_cons {A} (a x : A) l pre post :
  l = pre ++ x :: post -> a :: l = (a :: pre) ++ x :: post.
Proof. by intros ->. Qed.

Lemma split_app {A} (x : A) seg l pre post :
  l = pre ++ x :: post -> seg ++ l = (seg ++ pre) ++ x :: post.
Proof. intros ->. by rewrite app_assoc. Qed.

(** Splits a trace at its rejection. *)
Ltac split_at_reject :=
  repeat first
    [ lazymatch goal with |- EvReject _ _ :: _ = _ => apply split_here end
    | apply split_cons
    | apply split_app ].

Ltac download_leaf :=
  unfold download_post;
  eexists; split; [project; rewrite <- ?app_assoc; cbn [app]; reflexivity|];
  split; [session_events_go|];
  split; [begun_go; by apply (bool_decide_unpack _)|];
  first
    [ left; split; [quiet_go|];
      eexists; split;
      [ project; reflexivity | split; [reflexivity | split; reflexivity] ]
    | right; eexists _, _, _, _; split; [split_at_reject|];
      split; [quiet_go|]; split; [report_go|];
      project; reflexivity ].

Lemma download_outcome (validateURL : jsval -> bool) (tempDir sessionId : string)
    (req : request_body) (w : world) (s : server) :
  validateURL (body_url req) = true ->
  download_post sessionId s (run (download_handler validateURL tempDir sessionId req w) s).
Proof.
  intros Hvalid.
  apply (wp_run _ (download_post sessionId s)).
  unfold download_handler. rewrite Hvalid. simpl negb.
  wp_go.
  all: download_leaf.
Qed.

(** ** Failures are caught and reported *)

Lemma reject_not_quiet st message l : EvReject st message ∈ l -> Forall quiet l -> False.
Proof.
  intros Hin Hq. by apply (proj1 (Forall_forall _ _) Hq) in Hin.
Qed.

(** C2: in a download session whose url was accepted, when an awaited
    operation (getInfo, the format selection, a stream download, the
    merge) rejects with an error message, the session's entry ends as the
    record with status 'error', progress 0 and that message; everything
    the handler does after the rejection is to delete files and to write
    that record, and no operation is begun twice. *)
Theorem download_error_reported (validateURL : jsval -> bool)
    (tempDir sessionId : string) (req : request_body) (w : world) (s : server)
    (st : stage) (message : string) :
  validateURL (body_url req) = true ->
  let s' := run (download_handler validateURL tempDir sessionId req w) s in
  EvReject st message ∈ new_events s s' ->
  downloadProgress s' !! sessionId = Some (error_record message)
  /\ error_record message !! "status" = Some (JStr "error")
  /\ error_record message !! "progress" = Some (JNum (Int 0))
  /\ error_record message !! "error" = Some (JStr message)
  /\ (exists pre post,
        new_events s s' = pre ++ EvReject st message :: post
        /\ Forall quiet pre
        /\ Forall (cleanup_or_report sessionId message) post)
  /\ NoDup (begun (new_events s s')).
Proof.
  intros Hvalid s' Hin.
  destruct (download_outcome validateURL tempDir sessionId req w s Hvalid)
    as (body & Hnew & _ & Hnodup & Hcases).
  fold s' in Hnew, Hcases. apply new_events_app in Hnew. rewrite Hnew in Hin |- *.
  rewrite !elem_of_cons in Hin.
  destruct Hin as [Hin|[Hin|[Hin|Hin]]]; try discriminate.
  destruct Hcases as [[Hquiet _]|(pre & st' & message' & post & -> & Hpre & Hpost & Hlookup)].
  { destruct (reject_not_quiet _ _ _ Hin Hquiet). }
  assert (st' = st /\ message' = message) as [-> ->].
  { apply elem_of_app in Hin as [Hin|Hin].
    - destruct (reject_not_quiet _ _ _ Hin Hpre).
    - apply elem_of_cons in Hin as [Hin|Hin]; [by inversion Hin|].
      by apply (proj1 (Forall_forall _ _) Hpost) in Hin. }
  split; [exact Hlookup|].
  split; [reflexivity|]. split; [reflexivity|]. split; [reflexivity|].
  split; [|exact Hnodup].
  exists (EvSet sessionId initializing_record :: started_response sessionId
            :: EvBegin GetInfo :: pre), post.
  split; [reflexivity|]. split; [|exact Hpost].
  repeat (constructor; [exact I|]). exact Hpre.
Qed.

(** C6: for a valid url, POST /api/download first stores the
    initializing record under the generated session id and answers with
    success and that id; all the download work is logged after the
    response, it sends no second response and removes no entry, and the
    session has a record when the handler is done. GET
    /api/progress/:sessionId answers with the record stored for the id. *)
Theorem download_answers_first (validateURL : jsval -> bool)
    (tempDir sessionId : string) (req : request_body) (w : world) (s : server) :
  validateURL (body_url req) = true ->
  let s' := run (download_handler validateURL tempDir sessionId req w) s in
  (exists work,
      new_events s s'
      = EvSet sessionId initializing_record :: started_response sessionId
          :: EvBegin GetInfo :: work
      /\ Forall (session_event sessionId) work)
  /\ is_Some (downloadProgress s' !! sessionId)
  /\ (forall s0 record,
        downloadProgress s0 !! sessionId = Some record ->
        run (progress_handler sessionId) s0
        = log (EvResponse {| status_code := 200; res_body := BJson record |}) s0).
Proof.
  intros Hvalid s'.
  destruct (download_outcome validateURL tempDir sessionId req w s Hvalid)
    as (body & Hnew & Hevents & _ & Hcases).
  fold s' in Hnew, Hcases. apply new_events_app in Hnew.
  split; [by exists body|]. split.
  - destruct Hcases as [[_ (r & Hr & _)]|(pre & st & m & post & _ & _ & _ & Hr)];
      by rewrite Hr.
  - intros s0 record. apply progress_known_session.
Qed.

Lemma download_answers_first_witness :
  is_Some
    (downloadProgress
       (run (download_handler sample_validateURL "temp" "sid1"
               (sample_request (JStr "mp4") (JStr "ffmpeg-best")) sample_world)
          initial_server) !! "sid1").
Proof.
  exact (proj1 (proj2
           (download_answers_first sample_validateURL "temp" "sid1"
              (sample_request (JStr "mp4") (JStr "ffmpeg-best")) sample_world
              initial_server eq_refl))).
Defined.

Lemma download_error_reported_witness :
  downloadProgress
    (run (download_handler sample_validateURL "temp" "sid1"
            (sample_request (JStr "mp3") JUndefined) broken_audio_world)
       initial_server) !! "sid1"
  = Some (error_record "socket hang up").
Proof.
  refine (proj1
            (download_error_reported sample_validateURL "temp" "sid1"
               (sample_request (JStr "mp3") JUndefined) broken_audio_world
               initial_server AudioStream "socket hang up" eq_refl _)).
  apply (list_elem_of_lookup_2 _ 9). reflexivity.
Defined.

(** ** A download touches only its own entry *)

Section Keeps.
Context (k : string) {A B : Type}.

Lemma keeps_ret (a : A) : keeps k (ret a).
Proof. by intros s. Qed.

Lemma keeps_throw message : keeps k (throw (A := A) message).
Proof. by intros s. Qed.

Lemma keeps_bind (m : M A) (f : A -> M B) :
  keeps k m -> (forall a, keeps k (f a)) -> keeps k (bind m f).
Proof.
  intros Hm Hf s. unfold bind. specialize (Hm s).
  destruct (m s) as [s' [a|e]]; simpl in *; [|done].
  by rewrite Hf.
Qed.

Lemma keeps_try_catch (m : M A) (h : string -> M A) :
  keeps k m -> (forall e, keeps k (h e)) -> keeps k (try_catch m h).
Proof.
  intros Hm Hh s. unfold try_catch. specialize (Hm s).
  destruct (m s) as [s' [a|e]]; simpl in *; [done|].
  by rewrite Hh.
Qed.

End Keeps.

Lemma keeps_for_each k {X} (l : list X) (f : X -> M unit) :
  (forall x, keeps k (f x)) -> keeps k (for_each l f).
Proof.
  intros Hf. induction l as [|x l IH]; simpl.
  - apply keeps_ret.
  - apply keeps_bind; [apply Hf | intros _; apply IH].
Qed.

Lemma keeps_emit k e : keeps k (emit e).
Proof. by intros s. Qed.

Lemma keeps_respond k code b : keeps k (respond code b).
Proof. by intros s. Qed.

Lemma keeps_progress_get k sid : keeps k (progress_get sid).
Proof. by intros s. Qed.

Lemma keeps_progress_set k sid r : k <> sid -> keeps k (progress_set sid r).
Proof. intros Hk s. simpl. by rewrite lookup_insert_ne. Qed.

Lemma keeps_existsSync k path : keeps k (existsSync path).
Proof. by intros s. Qed.

Lemma keeps_unlinkSync k path : keeps k (unlinkSync path).
Proof. intros s. unfold unlinkSync. by destruct (present path s). Qed.

Lemma keeps_create_file k path : keeps k (create_file path).
Proof. by intros s. Qed.

Lemma keeps_setTimeout_cleanup k path sid : keeps k (setTimeout_cleanup path sid).
Proof. by intros s. Qed.

Ltac head_of t :=
  lazymatch t with
  | ?f _ => head_of f
  | _ => t
  end.

Ltac keeps_step :=
  lazymatch goal with
  | |- keeps _ (bind _ _) => apply keeps_bind; [|intros ?]
  | |- keeps _ (try_catch _ _) => apply keeps_try_catch; [|intros ?]
  | |- keeps _ (for_each _ _) => apply keeps_for_each; intros ?
  | |- keeps _ (ret _) => apply keeps_ret
  | |- keeps _ (throw _) => apply keeps_throw
  | |- keeps _ (emit _) => apply keeps_emit
  | |- keeps _ (respond _ _) => apply keeps_respond
  | |- keeps _ (progress_get _) => apply keeps_progress_get
  | |- keeps _ (progress_set _ _) => apply keeps_progress_set; assumption
  | |- keeps _ (existsSync _) => apply keeps_existsSync
  | |- keeps _ (unlinkSync _) => apply keeps_unlinkSync
  | |- keeps _ (create_file _) => apply keeps_create_file
  | |- keeps _ (setTimeout_cleanup _ _) => apply keeps_setTimeout_cleanup
  | |- keeps _ (if ?b then _ else _) => destruct b
  | |- keeps _ (match ?x with _ => _ end) => destruct x
  | |- keeps _ (let _ := _ in _) => cbv zeta
  | |- keeps _ ?m =>
      let h := head_of m in
      unfold h
  end.

Lemma keeps_download_handler validateURL tempDir sid req w k :
  k <> sid -> keeps k (download_handler validateURL tempDir sid req w).
Proof. intros Hk. repeat keeps_step. Qed.

(** ** The effect of one step on the progress map *)

Lemma delete_all_cons k keys s :
  delete_all (k :: keys) s
  = delete_all keys (log (EvDelete k) (with_progress (delete k (downloadProgress s)) s)).
Proof. reflexivity. Qed.

Lemma for_each_delete keys s :
  for_each keys progress_delete s = (delete_all keys s, Returned tt).
Proof.
  revert s. induction keys as [|k keys IH]; intros s; [done|].
  rewrite delete_all_cons. simpl. unfold bind. simpl. apply IH.
Qed.

Lemma trace_delete_all keys s :
  trace (delete_all keys s) = trace s ++ (EvDelete <$> keys).
Proof.
  revert s. induction keys as [|k keys IH]; intros s.
  - simpl. by rewrite app_nil_r.
  - rewrite delete_all_cons, IH. simpl. by rewrite <- app_assoc.
Qed.

Lemma progress_delete_all keys s k :
  downloadProgress (delete_all keys s) !! k
  = if decide (k ∈ keys) then None else downloadProgress s !! k.
Proof.
  revert s. induction keys as [|j keys IH]; intros s.
  - destruct (decide (k ∈ [])) as [Hin|_]; [|done].
    by apply elem_of_nil in Hin.
  - rewrite delete_all_cons, IH.
    destruct (decide (k ∈ keys)) as [Hin|Hnin];
      destruct (decide (k ∈ j :: keys)) as [Hin'|Hnin']; try done.
    + destruct Hnin'. by right.
    + apply elem_of_cons in Hin' as [->|Hin']; [|done].
      apply lookup_delete_eq.
    + apply lookup_delete_ne. intros ->. apply Hnin'. by left.
Qed.

Lemma elem_of_keys (m : gmap string (gmap string jsval)) k :
  k ∈ (map_to_list m).*1 <-> is_Some (m !! k).
Proof.
  rewrite list_elem_of_fmap. split.
  - intros ([k' r] & -> & Hin). apply elem_of_map_to_list in Hin. by exists r.
  - intros [r Hr]. exists (k, r). split; [done|]. by apply elem_of_map_to_list.
Qed.

Lemma sweep_lookup now s k :
  downloadProgress (run (sweep now) s) !! k
  = match downloadProgress s !! k with
    | Some record =>
        if expired (now - 60 * 60 * 1000) record then None else Some record
    | None => None
    end.
Proof.
  unfold run, sweep. rewrite for_each_delete. simpl.
  rewrite progress_delete_all.
  destruct (downloadProgress s !! k) as [record|] eqn:Hk.
  - destruct (expired _ record) eqn:He; destruct (decide _) as [Hin|Hnin]; try done.
    + destruct Hnin. apply elem_of_keys. exists record.
      by apply map_lookup_filter_Some.
    + apply elem_of_keys in Hin as [r Hr].
      apply map_lookup_filter_Some in Hr as [Hr He']. simpl in He'.
      congruence.
  - by destruct (decide _).
Qed.

Lemma sweep_trace now s :
  exists keys, trace (run (sweep now) s) = trace s ++ (EvDelete <$> keys).
Proof.
  unfold run, sweep. rewrite for_each_delete. simpl. eexists. apply trace_delete_all.
Qed.

Lemma fire_timer_cases n s :
  ((timers s !! n = None /\ run (fire_timer n) s = s)
   \/ exists path sid,
        timers s !! n = Some (path, sid) /\ (path ∉ disk s)
        /\ downloadProgress (run (fire_timer n) s) = downloadProgress s
        /\ disk (run (fire_timer n) s) = disk s
        /\ trace (run (fire_timer n) s) = trace s)
  \/ exists path sid,
       timers s !! n = Some (path, sid) /\ path ∈ disk s
       /\ downloadProgress (run (fire_timer n) s) = delete sid (downloadProgress s)
       /\ disk (run (fire_timer n) s) = disk s ∖ {[path]}
       /\ trace (run (fire_timer n) s) = trace s ++ [EvUnlink path; EvDelete sid].
Proof.
  unfold run, fire_timer.
  destruct (timers s !! n) as [[path sid]|] eqn:Hn; [|by left; left].
  unfold cleanup_callback, bind, existsSync, unlinkSync, present. simpl.
  destruct (bool_decide (path ∈ disk s)) eqn:Hdisk; simpl; rewrite ?Hdisk; simpl.
  - right. apply bool_decide_eq_true_1 in Hdisk.
    exists path, sid. repeat split; try done. by rewrite <- app_assoc.
  - left. right. apply bool_decide_eq_false_1 in Hdisk. by exists path, sid.
Qed.

Lemma unchanged_summary s s' a new :
  downloadProgress s' = downloadProgress s ->
  trace s' = trace s ++ new ->
  Forall shaped_write new ->
  step_summary s s' a.
Proof.
  intros Hp Ht Hnew. exists new. rewrite Hp.
  split; [exact Ht|]. split; [exact Hnew|]. split.
  - intros k r Hk. by left.
  - intros k record H1 H2. congruence.
Qed.

Lemma file_handler_quiet s sid transferred :
  downloadProgress (run (file_handler sid transferred) s) = downloadProgress s
  /\ exists new,
       trace (run (file_handler sid transferred) s) = trace s ++ new
       /\ Forall shaped_write new.
Proof.
  unfold run, file_handler, bind, progress_get. simpl.
  destruct (downloadProgress s !! sid) as [record|];
    [destruct (is_str (field record "status") "completed"); simpl;
     [destruct (field record "filePath"); simpl;
      try (unfold existsSync; simpl; destruct (present _ s); simpl;
           try destruct transferred; simpl)|]|];
    (split; [reflexivity|]; eexists;
     split; [rewrite <- ?app_assoc; reflexivity | repeat constructor]).
Qed.

Lemma session_event_shaped sid e : session_event sid e -> shaped_write e.
Proof. destruct e; simpl; tauto. Qed.

Lemma step_effect validateURL tempDir s a :
  step_summary s (step validateURL tempDir s a) a.
Proof.
  destruct a as [|sid|req result|req result|sid req w|sid transferred|n|now];
    unfold step, handle.
  - by eapply unchanged_summary; [| |repeat constructor].
  - unfold run, progress_handler, bind, progress_get.
    by eapply unchanged_summary; [| |repeat constructor].
  - unfold run, debug_handler, try_catch, bind, getInfo.
    destruct (validateURL (body_url req)); simpl.
    + destruct result; simpl;
        (eapply unchanged_summary;
         [reflexivity | simpl; rewrite <- ?app_assoc; reflexivity | repeat constructor]).
    + by eapply unchanged_summary; [| |repeat constructor].
  - unfold run, info_handler, try_catch, bind, getInfo.
    destruct (validateURL (body_url req)); simpl.
    + destruct result; simpl;
        (eapply unchanged_summary;
         [reflexivity | simpl; rewrite <- ?app_assoc; reflexivity | repeat constructor]).
    + by eapply unchanged_summary; [| |repeat constructor].
  - destruct (validateURL (body_url req)) eqn:Hvalid.
    2:{ unfold run, download_handler, try_catch. rewrite Hvalid. simpl.
        by eapply unchanged_summary; [| |repeat constructor]. }
    pose proof (download_outcome validateURL tempDir sid req w s Hvalid)
      as (body & Htrace & Hevents & _ & Hcases).
    pose proof (keeps_download_handler validateURL tempDir sid req w) as Hkeeps.
    set (s' := run (download_handler validateURL tempDir sid req w) s) in *.
    assert (exists r, downloadProgress s' !! sid = Some r /\ well_shaped r)
      as (final & Hfinal & Hshape).
    { destruct Hcases as [[_ (r & Hr & _ & Hs)]|(pre & st & m & post & _ & _ & _ & Hr)].
      - by exists r.
      - exists (error_record m). split; [done | apply shape_error_record]. }
    eexists. split; [exact Htrace|]. split; [|split].
    + constructor; [apply shape_record3; reflexivity|].
      constructor; [exact I|]. constructor; [exact I|].
      eapply Forall_impl; [exact Hevents | apply session_event_shaped].
    + intros k r Hk. destruct (decide (k = sid)) as [->|Hne].
      * right. assert (r = final) as -> by congruence.
        split; [exact Hshape|]. right. left.
      * left.
        assert (downloadProgress s' !! k = downloadProgress s !! k) as Hk'
          by exact (Hkeeps k Hne s).
        by rewrite <- Hk'.
    + intros k record Hk Hnone. destruct (decide (k = sid)) as [->|Hne].
      * congruence.
      * assert (downloadProgress s' !! k = downloadProgress s !! k) as Hk'
          by exact (Hkeeps k Hne s).
        congruence.
  - destruct (file_handler_quiet s sid transferred) as (Hp & new & Ht & Hnew).
    by eapply unchanged_summary.
  - destruct (fire_timer_cases n s)
      as [[[_ Hsame]|(path & sid & Hn & _ & Hp & _ & Ht)]
         |(path & sid & Hn & Hdisk & Hp & _ & Ht)].
    + rewrite Hsame. eapply unchanged_summary; [done | by rewrite app_nil_r | constructor].
    + eapply unchanged_summary; [exact Hp | by rewrite Ht, app_nil_r | constructor].
    + eexists. split; [exact Ht|]. split; [repeat constructor|]. rewrite Hp. split.
      * intros k r Hk. left. apply lookup_delete_Some in Hk. tauto.
      * intros k record Hk Hnone. right. exists n, path.
        apply lookup_delete_None in Hnone as [->|Hnone]; [done | congruence].
  - destruct (sweep_trace now s) as [keys Ht].
    eexists. split; [exact Ht|]. split; [|split].
    + apply Forall_fmap, Forall_true. intros k. exact I.
    + intros k r Hk. left. rewrite sweep_lookup in Hk.
      destruct (downloadProgress s !! k) as [record|]; [|done].
      by destruct (expired _ record).
    + intros k record Hk Hnone. left. exists now. split; [done|].
      rewrite sweep_lookup, Hk in Hnone. by destruct (expired _ record).
Qed.

(** ** Invariants of the reachable states *)


Lemma reachable_invariant validateURL tempDir s :
  reachable validateURL tempDir s ->
  (forall k r,
      downloadProgress s !! k = Some r ->
      well_shaped r /\ started_response k ∈ trace s)
  /\ Forall shaped_write (trace s).
Proof.
  induction 1 as [|s a Hs [IHmap IHtrace]].
  - split; [|constructor]. intros k r Hk.
    change (downloadProgress initial_server)
      with (∅ : gmap string (gmap string jsval)) in Hk.
    by rewrite lookup_empty in Hk.
  - destruct (step_effect validateURL tempDir s a)
      as (new & Ht & Hnew & Hmap & _).
    rewrite Ht. split.
    + intros k r Hk. apply Hmap in Hk as [Hk|[Hshape Hin]].
      * destruct (IHmap k r Hk) as [Hshape Hin].
        split; [done|]. apply elem_of_app. by left.
      * split; [done|]. apply elem_of_app. by right.
    + by apply Forall_app.
Qed.



(** No record of a reachable state has a timestamp, so the hourly sweep
    finds nothing to remove. *)
Lemma sweep_removes_nothing validateURL tempDir s now :
  reachable validateURL tempDir s ->
  downloadProgress (step validateURL tempDir s (Sweep now)) = downloadProgress s.
Proof.
  intros Hs. destruct (reachable_invariant _ _ _ Hs) as [Hmap _].
  apply map_eq. intros k. unfold step, handle. rewrite sweep_lookup.
  destruct (downloadProgress s !! k) as [record|] eqn:Hk; [|done].
  destruct (Hmap k record Hk) as [[_ Htime] _].
  unfold expired, field. by rewrite Htime.
Qed.

(** C3 (as the code runs it): an entry of the progress map disappears in
    a step exactly when the step is the hourly sweep and the record's
    timestamp is set and more than one hour old, or the step is the
    cleanup timer that GET /api/file/:sessionId scheduled for that session
    and the served file is still on disk; no other request or step
    removes an entry. *)
Theorem entry_removed_iff (validateURL : jsval -> bool) (tempDir : string)
    (s : server) (a : action) (k : string) (record : gmap string jsval) :
  downloadProgress s !! k = Some record ->
  downloadProgress (step validateURL tempDir s a) !! k = None
  <-> removal_cause s a k record.
Proof.
  intros Hk. split.
  - destruct (step_effect validateURL tempDir s a) as (new & _ & _ & _ & Hgone).
    by apply Hgone.
  - intros [(now & -> & Hexpired)|(n & path & -> & Hn & Hdisk)]; unfold step, handle.
    + by rewrite sweep_lookup, Hk, Hexpired.
    + destruct (fire_timer_cases n s)
        as [[[Hnone _]|(path' & sid' & Hn' & Hdisk' & _)]
           |(path' & sid' & Hn' & _ & Hp & _)].
      * congruence.
      * assert (path' = path) as -> by congruence. done.
      * assert (sid' = k) as -> by congruence.
        rewrite Hp. apply lookup_delete_eq.
Qed.

Lemma entry_removed_iff_witness :
  downloadProgress (step sample_validateURL "temp" served_state (TimerFires 0)) !! "sid1"
  = None
  <-> removal_cause served_state (TimerFires 0) "sid1"
        (completed_record "Download completed!" "temp/My_clip_sid1.mp3" "My_clip.mp3").
Proof.
  refine (entry_removed_iff sample_validateURL "temp" served_state (TimerFires 0)
            "sid1" _ _).
  reflexivity.
Defined.

(** C3 (as stated) fails: after the file of a completed session was
    transferred, the cleanup timer removes the session's entry, which is
    not the sweep; and the sweep, run long after, leaves the entry of the
    same state in the map. *)
Lemma removed_without_sweep :
  downloadProgress served_state !! "sid1"
  = Some (completed_record "Download completed!" "temp/My_clip_sid1.mp3" "My_clip.mp3")
  /\ downloadProgress (step sample_validateURL "temp" served_state (TimerFires 0))
       !! "sid1" = None
  /\ downloadProgress
       (step sample_validateURL "temp" served_state (Sweep 4102444800000)) !! "sid1"
     = Some (completed_record "Download completed!" "temp/My_clip_sid1.mp3"
               "My_clip.mp3").
Proof.
  split; [|split]; reflexivity.
Qed.

(** ** Temporary files *)

(** Every file a download creates or deletes has the session id in its
    name. *)
Lemma files_named_with_session_id validateURL tempDir sessionId req w s path :
  validateURL (body_url req) = true ->
  EvCreate path
    ∈ new_events s (run (download_handler validateURL tempDir sessionId req w) s)
  \/ EvUnlink path
      ∈ new_events s (run (download_handler validateURL tempDir sessionId req w) s) ->
  includes sessionId path = true.
Proof.
  intros Hvalid Hin.
  destruct (download_outcome validateURL tempDir sessionId req w s Hvalid)
    as (body & Htrace & Hevents & _).
  apply new_events_app in Htrace. rewrite Htrace in Hin.
  rewrite !elem_of_cons in Hin.
  destruct Hin as [[?|[?|[?|Hin]]]|[?|[?|[?|Hin]]]]; try discriminate;
    by apply (proj1 (Forall_forall _ _) Hevents) in Hin.
Qed.

(** The cleanup timer of a served file deletes the file and the entry. *)
Lemma served_file_deleted s n path sessionId :
  timers s !! n = Some (path, sessionId) ->
  path ∉ disk (run (fire_timer n) s).
Proof.
  intros Hn.
  destruct (fire_timer_cases n s)
    as [[[Hnone _]|(path' & sid' & Hn' & Hout & _ & Hdisk & _)]
       |(path' & sid' & Hn' & _ & _ & Hdisk & _)].
  - congruence.
  - assert (path' = path) as -> by congruence. by rewrite Hdisk.
  - assert (path' = path) as -> by congruence. rewrite Hdisk. set_solver.
Qed.


(** * Further properties of the code *)

(** ** Math.round on byte counters *)







(** X2: when a stream reports a total of 0 bytes, the division by zero is
    stored as it is: the progress of the record is [NaN] (nothing
    downloaded yet) or [Infinity], and the stage text shows it. *)
Theorem bytes_record_unknown_total (stage : string) (downloaded : N) :
  let progress := if (downloaded =? 0)%N then NaN else Infinity in
  bytes_record stage downloaded 0 !! "progress" = Some (JNum progress)
  /\ bytes_record stage downloaded 0 !! "stage"
     = Some (JStr (stage +:+ (if (downloaded =? 0)%N then "NaN" else "Infinity") +:+ "%")).
Proof.
  unfold bytes_record, round_ratio. simpl.
  by destruct (downloaded =? 0)%N.
Qed.



(** X4: a 'progress' event of ffmpeg with a percentage between 0 and 100
    is recorded with status 'merging' and a progress between 75 and 100. *)
Theorem merge_tick_band (t : ffmpeg_tick) (p : Z) :
  percent_rounded t = Int p -> 0 <= p <= 100 ->
  exists q,
    merge_tick_record t !! "progress" = Some (JNum (Int q))
    /\ 75 <= q <= 100
    /\ merge_tick_record t !! "status" = Some (JStr "merging").
Proof.
  intros Hp Hrange. exists (75 + round_div p 4).
  unfold merge_tick_record, merge_percent. rewrite Hp.
  split; [reflexivity|]. split; [|reflexivity].
  unfold round_div.
  assert (0 <= (2 * p + 4) / (2 * 4)) by (apply Z.div_pos; lia).
  assert ((2 * p + 4) / (2 * 4) < 26) by (apply Z.div_lt_upper_bound; lia).
  lia.
Qed.

Lemma merge_tick_band_witness :
  exists q,
    merge_tick_record {| percent_rounded := Int 50; timemark := JStr "00:00:05";
                         targetSize := JNum (Int 10) |} !! "progress"
    = Some (JNum (Int q))
    /\ 75 <= q <= 100
    /\ merge_tick_record {| percent_rounded := Int 50; timemark := JStr "00:00:05";
                            targetSize := JNum (Int 10) |} !! "status"
       = Some (JStr "merging").
Proof.
  apply (merge_tick_band {| percent_rounded := Int 50; timemark := JStr "00:00:05";
                            targetSize := JNum (Int 10) |} 50); [reflexivity | lia].
Defined.

(** ** File names from video titles *)






(** ** Sorting with a comparator that is consistent on the list *)

Section SortOn.
Context {A : Type} (cmp : A -> A -> number) (R : A -> A -> Prop) (P : A -> Prop).
Hypothesis R_trans : forall x y z, R x y -> R y z -> R x z.
Hypothesis cmp_keep : forall x y, P x -> P y -> positive_result (cmp x y) = false -> R x y.
Hypothesis cmp_swap : forall x y, P x -> P y -> positive_result (cmp x y) = true -> R y x.

Lemma sort_insert_sorted_on a l :
  P a -> Forall P l -> StronglySorted R l -> StronglySorted R (sort_insert cmp a l).
Proof.
  intros Ha. induction l as [|y l IH]; intros HP Hl; simpl.
  - repeat constructor.
  - apply Forall_cons in HP as [Py HP].
    apply StronglySorted_cons in Hl as [Hy Hl].
    destruct (positive_result (cmp a y)) eqn:Hc.
    + apply StronglySorted_cons. split; [|by apply IH].
      apply Forall_forall. intros z Hz.
      apply elem_of_sort_insert in Hz as [->|Hz]; [by apply cmp_swap|].
      by apply (proj1 (Forall_forall _ _) Hy).
    + apply StronglySorted_cons. split.
      * constructor; [by apply cmp_keep|].
        apply Forall_forall. intros z Hz.
        apply (R_trans _ y); [by apply cmp_keep|].
        by apply (proj1 (Forall_forall _ _) Hy).
      * by apply StronglySorted_cons.
Qed.

Lemma js_sort_sorted_on l : Forall P l -> StronglySorted R (js_sort cmp l).
Proof.
  induction l as [|y l IH]; intros HP; simpl; [constructor|].
  apply Forall_cons in HP as [Py HP].
  apply sort_insert_sorted_on; [done| |by apply IH].
  apply Forall_forall. intros z Hz. apply elem_of_js_sort in Hz.
  by apply (proj1 (Forall_forall _ _) HP).
Qed.

End SortOn.

Lemma sort_insert_perm {A} (cmp : A -> A -> number) a l : sort_insert cmp a l ≡ₚ a :: l.
Proof.
  induction l as [|y l IH]; simpl; [done|].
  destruct (positive_result (cmp a y)); [|done].
  rewrite IH. apply Permutation_swap.
Qed.

Lemma js_sort_perm {A} (cmp : A -> A -> number) l : js_sort cmp l ≡ₚ l.
Proof.
  induction l as [|y l IH]; simpl; [done|].
  by rewrite sort_insert_perm, IH.
Qed.

(** ** The heights read by the download code *)

Lemma parseInt_int_or_nan s : parseInt s = NaN \/ exists h, parseInt s = Int h.
Proof.
  unfold parseInt.
  destruct (match skip_spaces s with
            | String c r =>
                if (char_code c =? 45)%nat then (true, r)
                else if (char_code c =? 43)%nat then (false, r)
                else (false, skip_spaces s)
            | EmptyString => (false, skip_spaces s)
            end) as [neg s2].
  destruct (take_digits s2) as [ds tail].
  destruct ds; [by left | right; eauto].
Qed.

Lemma label_height_int f : label_parses f -> label_height f = Int (label_height_z f).
Proof.
  unfold label_parses, label_height_z, label_height.
  destruct (parseInt_int_or_nan (str_or (replace_first_p <$> f_qualityLabel f) "0"))
    as [->|[h ->]]; done.
Qed.

Lemma compare_video_only_keep a b :
  label_parses a -> label_parses b ->
  positive_result (compare_video_only a b) = false -> higher_first a b.
Proof.
  intros Ha Hb. unfold compare_video_only, higher_first.
  rewrite (label_height_int a Ha), (label_height_int b Hb). simpl.
  intros H. apply Z.ltb_ge in H. lia.
Qed.

Lemma compare_video_only_swap a b :
  label_parses a -> label_parses b ->
  positive_result (compare_video_only a b) = true -> higher_first b a.
Proof.
  intros Ha Hb. unfold compare_video_only, higher_first.
  rewrite (label_height_int a Ha), (label_height_int b Hb). simpl.
  intros H. apply Z.ltb_lt in H. lia.
Qed.

Lemma video_only_sorted fs :
  Forall label_parses fs ->
  StronglySorted higher_first
    (js_sort compare_video_only
       (filter (fun f => f_hasVideo f && negb (f_hasAudio f) = true) fs)).
Proof.
  intros HP.
  apply (js_sort_sorted_on compare_video_only higher_first label_parses).
  - unfold higher_first. intros x y z. lia.
  - apply compare_video_only_keep.
  - apply compare_video_only_swap.
  - apply Forall_forall. intros f Hf. apply list_elem_of_filter in Hf as [_ Hf].
    by apply (proj1 (Forall_forall _ _) HP).
Qed.

Lemma video_only_true f :
  f_hasVideo f && negb (f_hasAudio f) = true
  <-> f_hasVideo f = true /\ f_hasAudio f = false.
Proof. rewrite andb_true_iff, negb_true_iff. tauto. Qed.

(** X6: with quality labels that parse, the format the 'ffmpeg-best'
    preset downloads is a video-only format of the metadata whose height,
    as [downloadVideoStream] reads it, is the greatest among the
    video-only formats. *)
Theorem select_best_is_highest (info : video_info) (f : format) :
  Forall label_parses (formats info) ->
  select_video_format info true = Some f ->
  f ∈ formats info /\ f_hasVideo f = true /\ f_hasAudio f = false
  /\ forall g, g ∈ formats info -> f_hasVideo g = true -> f_hasAudio g = false ->
       label_height_z g <= label_height_z f.
Proof.
  intros HP Hsel. unfold select_video_format in Hsel.
  pose proof (video_only_sorted (formats info) HP) as Hsorted.
  set (l := js_sort compare_video_only _) in *.
  destruct l as [|f' l'] eqn:Hl; [discriminate|].
  injection Hsel as ->.
  assert (forall g, g ∈ f :: l' <->
                    g ∈ formats info /\ f_hasVideo g = true /\ f_hasAudio g = false)
    as Hmem.
  { intros g. rewrite <- Hl. subst l.
    rewrite elem_of_js_sort, list_elem_of_filter, video_only_true. tauto. }
  destruct (proj1 (Hmem f)) as (H1 & H2 & H3); [by left|].
  repeat split; try done.
  intros g Hg Hv Ha.
  assert (g ∈ f :: l') as Hin by (apply Hmem; done).
  apply StronglySorted_cons in Hsorted as [Hall _].
  apply elem_of_cons in Hin as [->|Hin]; [lia|].
  by apply (proj1 (Forall_forall _ _) Hall) in Hin.
Qed.

Lemma select_best_is_highest_witness :
  let f := sample_format 298 (Some "720p60") true false in
  f ∈ formats sample_info_fps /\ f_hasVideo f = true /\ f_hasAudio f = false
  /\ forall g, g ∈ formats sample_info_fps -> f_hasVideo g = true -> f_hasAudio g = false ->
       label_height_z g <= label_height_z f.
Proof.
  apply (select_best_is_highest sample_info_fps
           (sample_format 298 (Some "720p60") true false)).
  - repeat constructor; discriminate.
  - reflexivity.
Defined.

(** ** Quality labels with a frame rate *)

Lemma str_app_cons c a b : String c a +:+ b = String c (a +:+ b).
Proof. reflexivity. Qed.

Lemma str_app_assoc a b c : (a +:+ b) +:+ c = a +:+ (b +:+ c).
Proof.
  induction a as [|x a IH]; [done|].
  rewrite !str_app_cons. by rewrite IH.
Qed.

Lemma str_app_nil_r a : a +:+ "" = a.
Proof.
  induction a as [|x a IH]; [done|].
  rewrite str_app_cons. by rewrite IH.
Qed.

Lemma str_forall_app p a b :
  str_forall p (a +:+ b) = str_forall p a && str_forall p b.
Proof.
  induction a as [|x a IH]; [done|].
  rewrite str_app_cons. simpl. by rewrite IH, andb_assoc.
Qed.

Lemma digit_not_p c : is_digit c = true -> (char_code c =? 112)%nat = false.
Proof.
  unfold is_digit. intros H.
  apply andb_true_iff in H as [_ H]. apply Nat.leb_le in H.
  apply Nat.eqb_neq. lia.
Qed.

Lemma take_digits_app a rest :
  str_forall is_digit a = true ->
  take_digits (a +:+ rest) = (a +:+ (take_digits rest).1, (take_digits rest).2).
Proof.
  induction a as [|c a IH]; intros Ha.
  - change ("" +:+ rest) with rest. by destruct (take_digits rest).
  - simpl in Ha. apply andb_true_iff in Ha as [Hc Ha].
    rewrite str_app_cons. simpl. rewrite Hc, (IH Ha). reflexivity.
Qed.

Lemma take_digits_all a : str_forall is_digit a = true -> take_digits a = (a, "").
Proof.
  intros Ha. rewrite <- (str_app_nil_r a) at 1.
  rewrite take_digits_app by done. simpl. by rewrite str_app_nil_r.
Qed.

Lemma replace_first_p_digits a rest :
  str_forall is_digit a = true ->
  replace_first_p (a +:+ String "p" rest) = a +:+ rest.
Proof.
  induction a as [|c a IH]; intros Ha; [done|].
  simpl in Ha. apply andb_true_iff in Ha as [Hc Ha].
  rewrite !str_app_cons. simpl. rewrite (digit_not_p c Hc). by rewrite IH.
Qed.

Lemma parseInt_all_digits d :
  d <> "" -> str_forall is_digit d = true -> parseInt d = Int (digits_value 0 d).
Proof.
  intros Hne Hd. destruct d as [|c d]; [done|].
  pose proof Hd as Hall. simpl in Hd. apply andb_true_iff in Hd as [Hc Hd].
  unfold parseInt. cbn [skip_spaces].
  rewrite (digit_not_space c Hc).
  rewrite (digit_not_code c 45 Hc) by lia.
  rewrite (digit_not_code c 43 Hc) by lia.
  by rewrite (take_digits_all _ Hall).
Qed.

Lemma match_digits_p_run a rest :
  a <> "" -> str_forall is_digit a = true ->
  match_digits_p (a +:+ String "p" rest) = Some a.
Proof.
  intros Hne Ha. destruct a as [|c a]; [done|].
  simpl in Ha. apply andb_true_iff in Ha as [Hc Ha].
  rewrite str_app_cons. simpl. rewrite Hc.
  rewrite (take_digits_app a) by done.
  change (take_digits (String "p" rest)) with ("", String "p" rest).
  cbn [fst snd]. by rewrite str_app_nil_r.
Qed.

Lemma str_or_nonempty s dflt : s <> "" -> str_or (Some s) dflt = s.
Proof. intros Hs. simpl. by destruct s. Qed.

(** X7: for a quality label made of a height, ["p"] and a frame rate
    (as in ["720p60"]), the download code reads the digits of both as one
    number (72060), while the listing of POST /api/info reads the height
    alone (720): the two routes rank such a format differently. *)
Theorem frame_rate_read_as_height (f : format) (height rate : string) :
  height <> "" ->
  str_forall is_digit height = true ->
  str_forall is_digit rate = true ->
  f_qualityLabel f = Some (height +:+ "p" +:+ rate) ->
  label_height f = Int (digits_value 0 (height +:+ rate))
  /\ option_height (to_video_only f) = Int (digits_value 0 height)
  /\ option_height (to_combined f) = Int (digits_value 0 height).
Proof.
  intros Hne Hh Hr Hlabel.
  assert (height +:+ rate <> "") as Hne'.
  { destruct height; [done|]. rewrite str_app_cons. discriminate. }
  split; [|split].
  - unfold label_height. rewrite Hlabel. simpl fmap.
    change ("p" +:+ rate) with (String "p" rate).
    rewrite replace_first_p_digits by done.
    rewrite str_or_nonempty by done.
    apply parseInt_all_digits; [done|].
    by rewrite str_forall_app, Hh, Hr.
  - unfold option_height, to_video_only. simpl vo_quality. rewrite Hlabel. simpl default.
    rewrite str_app_assoc. change ("p" +:+ rate) with (String "p" rate).
    rewrite str_app_cons.
    rewrite match_digits_p_run by done.
    rewrite str_or_nonempty by done.
    by apply parseInt_all_digits.
  - unfold option_height, to_combined. simpl vo_quality. rewrite Hlabel.
    rewrite str_or_nonempty.
    2:{ destruct height; [done|]. rewrite str_app_cons. discriminate. }
    rewrite str_app_assoc. change ("p" +:+ rate) with (String "p" rate).
    rewrite str_app_cons.
    rewrite match_digits_p_run by done.
    rewrite str_or_nonempty by done.
    by apply parseInt_all_digits.
Qed.

Lemma frame_rate_read_as_height_witness :
  label_height (sample_format 298 (Some "720p60") true false) = Int 72060
  /\ option_height (to_video_only (sample_format 298 (Some "720p60") true false)) = Int 720
  /\ option_height (to_combined (sample_format 298 (Some "720p60") true false)) = Int 720.
Proof.
  apply (frame_rate_read_as_height (sample_format 298 (Some "720p60") true false)
           "720" "60"); [discriminate | reflexivity | reflexivity | reflexivity].
Defined.

(** ** The medium preset and the regular download *)

(** X8: the 'ffmpeg-medium' preset downloads the median of the
    video-only formats: with [n] such formats, [n / 2] of them are at
    least as high as the chosen one and the others are no higher. The
    list index it reads is always in range, so its fallback to the first
    format is never taken. *)
Theorem select_medium_is_median (info : video_info) (f : format) :
  Forall label_parses (formats info) ->
  select_video_format info false = Some f ->
  exists higher lower,
    higher ++ f :: lower
    ≡ₚ filter (fun g => f_hasVideo g && negb (f_hasAudio g) = true) (formats info)
    /\ length higher = (length (higher ++ f :: lower) / 2)%nat
    /\ Forall (fun g => label_height_z f <= label_height_z g) higher
    /\ Forall (fun g => label_height_z g <= label_height_z f) lower.
Proof.
  intros HP Hsel. unfold select_video_format in Hsel.
  pose proof (video_only_sorted (formats info) HP) as Hsorted.
  pose proof (js_sort_perm compare_video_only
                (filter (fun g => f_hasVideo g && negb (f_hasAudio g) = true)
                   (formats info))) as Hperm.
  set (l := js_sort compare_video_only _) in *.
  assert (l !! (length l / 2)%nat = Some f) as Hmid.
  { destruct (l !! (length l / 2)%nat) as [g|] eqn:Hg; [congruence|].
    apply lookup_ge_None in Hg. destruct l as [|x l']; [discriminate|].
    exfalso. simpl length in Hg.
    pose proof (Nat.div_lt (S (length l')) 2). lia. }
  pose proof (take_drop_middle l _ f Hmid) as Hsplit.
  exists (take (length l / 2) l), (drop (S (length l / 2)) l).
  rewrite Hsplit. split; [exact Hperm|]. split.
  - rewrite length_take. apply lookup_lt_Some in Hmid. lia.
  - rewrite <- Hsplit in Hsorted.
    apply StronglySorted_app in Hsorted as (Hcross & _ & Htail).
    apply StronglySorted_cons in Htail as [Hlower _]. split.
    + apply Forall_forall. intros g Hg. apply (Hcross g f Hg). by left.
    + exact Hlower.
Qed.

Lemma select_medium_is_median_witness :
  exists higher lower,
    higher ++ sample_format 136 (Some "720p") true false :: lower
    ≡ₚ filter (fun g => f_hasVideo g && negb (f_hasAudio g) = true) (formats sample_info)
    /\ length higher
       = (length (higher ++ sample_format 136 (Some "720p") true false :: lower) / 2)%nat
    /\ Forall (fun g => label_height_z (sample_format 136 (Some "720p") true false)
                        <= label_height_z g) higher
    /\ Forall (fun g => label_height_z g
                        <= label_height_z (sample_format 136 (Some "720p") true false))
         lower.
Proof.
  apply (select_medium_is_median sample_info (sample_format 136 (Some "720p") true false)).
  - repeat constructor; discriminate.
  - reflexivity.
Defined.

(** No format is selected exactly when the metadata has no video-only
    format, whichever preset is asked for. *)
Lemma select_video_format_none_iff (info : video_info) (useBestQuality : bool) :
  select_video_format info useBestQuality = None
  <-> forall f, f ∈ formats info -> f_hasVideo f = true -> f_hasAudio f = true.
Proof.
  unfold select_video_format.
  set (l := js_sort compare_video_only _).
  assert (forall g, g ∈ l <->
                    g ∈ formats info /\ f_hasVideo g = true /\ f_hasAudio g = false)
    as Hmem.
  { intros g. subst l.
    rewrite elem_of_js_sort, list_elem_of_filter, video_only_true. tauto. }
  split.
  - intros Hnone f Hf Hv.
    assert (l = []) as Hl.
    { destruct l as [|x l']; [done|].
      destruct useBestQuality; [discriminate|].
      by destruct ((x :: l') !! (length (x :: l') / 2)%nat). }
    destruct (f_hasAudio f) eqn:Ha; [done|].
    assert (f ∈ l) as Hin by (apply Hmem; done).
    rewrite Hl in Hin. by apply elem_of_nil in Hin.
  - intros Hall.
    assert (l = []) as ->; [|by destruct useBestQuality].
    destruct l as [|x l']; [done|].
    destruct (proj1 (Hmem x)) as (Hx & Hv & Ha); [by left|].
    rewrite (Hall x Hx Hv) in Ha. discriminate.
Qed.

Lemma compare_combined_keep a b :
  label_parses a -> label_parses b ->
  positive_result (compare_combined a b) = false -> better_combined a b.
Proof.
  intros Ha Hb. unfold compare_combined, better_combined.
  rewrite (label_height_int a Ha), (label_height_int b Hb). simpl.
  destruct (label_height_z b - label_height_z a) as [|d|d] eqn:Hd; simpl.
  - intros H. apply Z.ltb_ge in H. right. lia.
  - discriminate.
  - intros _. left. lia.
Qed.

Lemma compare_combined_swap a b :
  label_parses a -> label_parses b ->
  positive_result (compare_combined a b) = true -> better_combined b a.
Proof.
  intros Ha Hb. unfold compare_combined, better_combined.
  rewrite (label_height_int a Ha), (label_height_int b Hb). simpl.
  destruct (label_height_z b - label_height_z a) as [|d|d] eqn:Hd; simpl.
  - intros H. apply Z.ltb_lt in H. right. lia.
  - intros _. left. lia.
  - discriminate.
Qed.

Lemma better_combined_trans a b c :
  better_combined a b -> better_combined b c -> better_combined a c.
Proof. unfold better_combined. lia. Qed.

(** X9: when the request names no format of its own (no itag, or
    'highest', or the preset 'highest-audio'), the regular download asks
    ytdl for the combined mp4 format that is best by height and then by
    bitrate; when the metadata has no combined mp4 format it asks for
    quality 'highest' with the filter 'videoandaudio'. *)
Theorem regular_options_default (itag : jsval) (info : video_info) :
  default_quality itag = true ->
  Forall label_parses (formats info) ->
  ((forall g, g ∈ formats info -> is_combined_mp4 g = false)
   /\ regular_options itag info = (JStr "highest", Some "videoandaudio"))
  \/ (exists best,
        best ∈ formats info /\ is_combined_mp4 best = true
        /\ regular_options itag info = (JNum (Int (f_itag best)), None)
        /\ forall g, g ∈ formats info -> is_combined_mp4 g = true ->
             g = best \/ better_combined best g).
Proof.
  intros Hdefault HP. unfold default_quality in Hdefault.
  apply negb_true_iff in Hdefault.
  unfold regular_options. rewrite Hdefault.
  assert (StronglySorted better_combined
            (js_sort compare_combined
               (filter (fun f => is_combined_mp4 f = true) (formats info)))) as Hsorted.
  { apply (js_sort_sorted_on compare_combined better_combined label_parses).
    - apply better_combined_trans.
    - apply compare_combined_keep.
    - apply compare_combined_swap.
    - apply Forall_forall. intros f Hf. apply list_elem_of_filter in Hf as [_ Hf].
      by apply (proj1 (Forall_forall _ _) HP). }
  set (l := js_sort compare_combined _) in *.
  assert (forall g, g ∈ l <-> is_combined_mp4 g = true /\ g ∈ formats info) as Hmem.
  { intros g. subst l. by rewrite elem_of_js_sort, list_elem_of_filter. }
  destruct l as [|best l'].
  - left. split; [|done]. intros g Hg.
    destruct (is_combined_mp4 g) eqn:Hc; [|done].
    assert (g ∈ []) as Hin by (apply Hmem; done).
    by apply elem_of_nil in Hin.
  - right. exists best.
    destruct (proj1 (Hmem best)) as [Hc Hin]; [by left|].
    repeat split; try done.
    intros g Hg Hgc.
    assert (g ∈ best :: l') as Hin' by (apply Hmem; done).
    apply StronglySorted_cons in Hsorted as [Hall _].
    apply elem_of_cons in Hin' as [->|Hin']; [by left|].
    right. by apply (proj1 (Forall_forall _ _) Hall) in Hin'.
Qed.

Lemma regular_options_default_witness :
  ((forall g, g ∈ formats sample_info -> is_combined_mp4 g = false)
   /\ regular_options (JStr "highest-audio") sample_info
      = (JStr "highest", Some "videoandaudio"))
  \/ (exists best,
        best ∈ formats sample_info /\ is_combined_mp4 best = true
        /\ regular_options (JStr "highest-audio") sample_info
           = (JNum (Int (f_itag best)), None)
        /\ forall g, g ∈ formats sample_info -> is_combined_mp4 g = true ->
             g = best \/ better_combined best g).
Proof.
  apply (regular_options_default (JStr "highest-audio") sample_info).
  - reflexivity.
  - repeat constructor; discriminate.
Defined.

(** ** Files on disk after a download *)

Lemma str_app_inj_l a b c : a +:+ b = a +:+ c -> b = c.
Proof.
  induction a as [|x a IH]; [done|].
  rewrite !str_app_cons. intros [= H]. auto.
Qed.

Lemma merged_path_differs tempDir title sessionId :
  path_join tempDir (title +:+ "_merged_" +:+ sessionId +:+ ".mp4")
  <> path_join tempDir (title +:+ "_video_" +:+ sessionId +:+ ".mp4")
  /\ path_join tempDir (title +:+ "_merged_" +:+ sessionId +:+ ".mp4")
     <> path_join tempDir (title +:+ "_audio_" +:+ sessionId +:+ ".m4a").
Proof.
  unfold path_join. split; intros H;
    apply str_app_inj_l, str_app_inj_l, str_app_inj_l in H;
    cbv [String.append] in H; discriminate.
Qed.

Ltac paths_differ :=
  pose proof merged_path_differs; pose proof video_audio_paths_differ.

Ltac servable_leaf :=
  intros record Hrec Hst; revert Hrec; project; intros [= <-];
  first
    [ discriminate Hst
    | eexists; split; [reflexivity | project; paths_differ; set_solver] ].

Lemma completed_file_on_disk validateURL tempDir sessionId req w s :
  validateURL (body_url req) = true ->
  forall record,
    downloadProgress (run (download_handler validateURL tempDir sessionId req w) s)
      !! sessionId = Some record ->
    record !! "status" = Some (JStr "completed") ->
    exists path,
      record !! "filePath" = Some (JStr path)
      /\ path ∈ disk (run (download_handler validateURL tempDir sessionId req w) s).
Proof.
  intros Hvalid.
  apply (wp_run _ (fun s' =>
           forall record,
             downloadProgress s' !! sessionId = Some record ->
             record !! "status" = Some (JStr "completed") ->
             exists path, record !! "filePath" = Some (JStr path) /\ path ∈ disk s')).
  unfold download_handler. rewrite Hvalid. simpl negb.
  wp_go.
  all: servable_leaf.
Qed.

Lemma file_handler_ready s sessionId path filename transferred :
  file_ready s sessionId path filename ->
  run (file_handler sessionId transferred) s
  = (if transferred
     then log (EvTimer path sessionId)
            (with_timers (timers (log (EvResponse {| status_code := 200;
                                         res_body := BDownload (JStr path) filename |}) s)
                          ++ [(path, sessionId)])
               (log (EvResponse {| status_code := 200;
                                   res_body := BDownload (JStr path) filename |}) s))
     else log (EvResponse {| status_code := 200;
                             res_body := BDownload (JStr path) filename |}) s).
Proof.
  intros (record & Hrec & Hst & Hpath & -> & Hdisk).
  unfold run, file_handler, bind, progress_get. simpl. rewrite Hrec.
  rewrite (proj2 (field_is_str record "status" "completed") Hst). simpl.
  assert (field record "filePath" = JStr path) as -> by (unfold field; by rewrite Hpath).
  unfold existsSync_value, existsSync, present. simpl.
  rewrite bool_decide_eq_true_2 by done. simpl.
  by destruct transferred.
Qed.

(** X10: when a download of an accepted request ends with status
    'completed', the file its record names is on disk, whatever the
    streams and ffmpeg did and whatever was on disk before; a request to
    GET /api/file/:sessionId is then answered with that file under the
    recorded name. *)
Theorem completed_download_is_served (validateURL : jsval -> bool)
    (tempDir sessionId : string) (req : request_body) (w : world) (s : server)
    (record : gmap string jsval) (transferred : bool) :
  validateURL (body_url req) = true ->
  let s' := run (download_handler validateURL tempDir sessionId req w) s in
  downloadProgress s' !! sessionId = Some record ->
  record !! "status" = Some (JStr "completed") ->
  exists path,
    file_ready s' sessionId path (field record "filename")
    /\ trace (run (file_handler sessionId transferred) s')
       = trace s'
         ++ EvResponse {| status_code := 200;
                          res_body := BDownload (JStr path) (field record "filename") |}
         :: (if transferred then [EvTimer path sessionId] else []).
Proof.
  intros Hvalid s' Hrec Hst.
  destruct (completed_file_on_disk validateURL tempDir sessionId req w s Hvalid
              record Hrec Hst) as (path & Hpath & Hdisk).
  exists path.
  assert (file_ready s' sessionId path (field record "filename")) as Hready.
  { exists record. done. }
  split; [exact Hready|].
  rewrite (file_handler_ready _ _ _ _ transferred Hready).
  destruct transferred; simpl; by rewrite <- ?app_assoc.
Qed.

Lemma completed_download_is_served_witness :
  let s' :=
    run (download_handler sample_validateURL "temp" "sid1"
           (sample_request (JStr "mp4") (JStr "ffmpeg-best")) sample_world)
      initial_server in
  let record :=
    completed_record "Download and merge completed!" "temp/My_clip_merged_sid1.mp4"
      "My_clip_merged.mp4" in
  exists path,
    file_ready s' "sid1" path (field record "filename")
    /\ trace (run (file_handler "sid1" true) s')
       = trace s'
         ++ EvResponse {| status_code := 200;
                          res_body := BDownload (JStr path) (field record "filename") |}
         :: [EvTimer path "sid1"].
Proof.
  apply (completed_download_is_served sample_validateURL "temp" "sid1"
           (sample_request (JStr "mp4") (JStr "ffmpeg-best")) sample_world initial_server
           (completed_record "Download and merge completed!"
              "temp/My_clip_merged_sid1.mp4" "My_clip_merged.mp4") true);
    reflexivity.
Defined.




Lemma failed_audio_download validateURL tempDir sessionId req w s info message :
  validateURL (body_url req) = true ->
  w_info w = Fetched info ->
  is_str (body_format req) "mp3" = true ->
  stream_end (w_audio w) = Failed message true ->
  let name := sanitize_title (title (videoDetails info)) in
  let s' := run (download_handler validateURL tempDir sessionId req w) s in
  downloadProgress s' !! sessionId = Some (error_record message)
  /\ disk s' = {[path_join tempDir (name +:+ "_" +:+ sessionId +:+ ".mp3")]} ∪ disk s.
Proof.
  intros Hvalid Hinfo Hformat Hend name.
  apply (wp_run _ (fun s' =>
           downloadProgress s' !! sessionId = Some (error_record message)
           /\ disk s'
              = {[path_join tempDir (name +:+ "_" +:+ sessionId +:+ ".mp3")]} ∪ disk s)).
  unfold download_handler. rewrite Hvalid. simpl negb.
  wp_go. split; project; reflexivity.
Qed.

Lemma failed_regular_download validateURL tempDir sessionId req w s info message :
  validateURL (body_url req) = true ->
  w_info w = Fetched info ->
  is_str (body_format req) "mp3" = false ->
  is_ffmpeg_preset (body_itag req) = false ->
  stream_end (w_video w) = Failed message true ->
  let name := sanitize_title (title (videoDetails info)) in
  let s' := run (download_handler validateURL tempDir sessionId req w) s in
  downloadProgress s' !! sessionId = Some (error_record message)
  /\ disk s' = {[path_join tempDir (name +:+ "_" +:+ sessionId +:+ ".mp4")]} ∪ disk s.
Proof.
  intros Hvalid Hinfo Hformat Hpreset Hend name.
  apply (wp_run _ (fun s' =>
           downloadProgress s' !! sessionId = Some (error_record message)
           /\ disk s'
              = {[path_join tempDir (name +:+ "_" +:+ sessionId +:+ ".mp4")]} ∪ disk s)).
  unfold download_handler. rewrite Hvalid. simpl negb.
  wp_go. split; project; reflexivity.
Qed.

(** X12: an audio-only or regular download whose stream breaks after its
    output file was opened ends with status 'error' and the stream's
    message, and leaves the partial file on disk: the disk after the
    handler is the disk before it plus that file. Nothing deletes it
    later, as the session never becomes 'completed'. *)
Theorem failed_download_keeps_partial_file (validateURL : jsval -> bool)
    (tempDir sessionId : string) (req : request_body) (w : world) (s : server)
    (info : video_info) (message : string) :
  validateURL (body_url req) = true ->
  w_info w = Fetched info ->
  let name := sanitize_title (title (videoDetails info)) in
  let s' := run (download_handler validateURL tempDir sessionId req w) s in
  (is_str (body_format req) "mp3" = true ->
   stream_end (w_audio w) = Failed message true ->
   downloadProgress s' !! sessionId = Some (error_record message)
   /\ disk s' = {[path_join tempDir (name +:+ "_" +:+ sessionId +:+ ".mp3")]} ∪ disk s)
  /\ (is_str (body_format req) "mp3" = false ->
      is_ffmpeg_preset (body_itag req) = false ->
      stream_end (w_video w) = Failed message true ->
      downloadProgress s' !! sessionId = Some (error_record message)
      /\ disk s' = {[path_join tempDir (name +:+ "_" +:+ sessionId +:+ ".mp4")]} ∪ disk s).
Proof.
  intros Hvalid Hinfo name s'. split.
  - intros Hformat Hend. by apply failed_audio_download.
  - intros Hformat Hpreset Hend. by apply failed_regular_download.
Qed.

Lemma failed_download_keeps_partial_file_witness :
  let s' :=
    run (download_handler sample_validateURL "temp" "sid1"
           (sample_request (JStr "mp4") (JStr "18")) broken_video_world)
      initial_server in
  downloadProgress s' !! "sid1" = Some (error_record "read ECONNRESET")
  /\ disk s' = {[ "temp/My_clip_sid1.mp4" ]} ∪ disk initial_server.
Proof.
  apply (proj2 (failed_download_keeps_partial_file sample_validateURL "temp" "sid1"
                  (sample_request (JStr "mp4") (JStr "18")) broken_video_world
                  initial_server sample_info "read ECONNRESET" eq_refl eq_refl));
    reflexivity.
Defined.

Lemma Forall_unlink_if_present (P : event -> Prop) path s :
  P (EvUnlink path) -> Forall P (if present path s then [EvUnlink path] else []).
Proof. apply Forall_unlink_if. Qed.

(** X13: a download with an FFmpeg-merge preset of a video that has no
    video-only format fails at the format selection: the session ends
    with the error 'No video-only formats found', no stream is opened and
    no file is created, even when the video has combined formats. *)
Theorem merge_without_video_only_fails (validateURL : jsval -> bool)
    (tempDir sessionId : string) (req : request_body) (w : world) (s : server)
    (info : video_info) :
  validateURL (body_url req) = true ->
  w_info w = Fetched info ->
  is_str (body_format req) "mp3" = false ->
  is_ffmpeg_preset (body_itag req) = true ->
  (forall f, f ∈ formats info -> f_hasVideo f = true -> f_hasAudio f = true) ->
  let s' := run (download_handler validateURL tempDir sessionId req w) s in
  downloadProgress s' !! sessionId
  = Some (error_record "No video-only formats found")
  /\ EvReject SelectFormat "No video-only formats found" ∈ new_events s s'
  /\ Forall (fun e => opens_stream e = false) (new_events s s')
  /\ disk s' ⊆ disk s.
Proof.
  intros Hvalid Hinfo Hformat Hpreset Hnone.
  pose proof (proj2 (select_video_format_none_iff info
                       (is_str (body_itag req) "ffmpeg-best")) Hnone) as Hsel.
  apply (wp_run _ (fun s' =>
           downloadProgress s' !! sessionId
           = Some (error_record "No video-only formats found")
           /\ EvReject SelectFormat "No video-only formats found" ∈ new_events s s'
           /\ Forall (fun e => opens_stream e = false) (new_events s s')
           /\ disk s' ⊆ disk s)).
  unfold download_handler. rewrite Hvalid. simpl negb.
  wp_go.
  split; [project; reflexivity|].
  match goal with
  | |- _ ∈ new_events s ?st /\ _ =>
      assert (exists b1 b2 b3 : bool,
                 new_events s st
                 = EvSet sessionId initializing_record :: started_response sessionId
                   :: EvBegin GetInfo :: EvEnd GetInfo
                   :: EvSet sessionId
                        (record3 "downloading" (Int 0) "Downloading video stream...")
                   :: EvBegin SelectFormat
                   :: EvReject SelectFormat "No video-only formats found"
                   :: (if b1 then [EvUnlink
                         (path_join tempDir
                            (sanitize_title (title (videoDetails info)) +:+ "_video_"
                             +:+ sessionId +:+ ".mp4"))] else [])
                   ++ (if b2 then [EvUnlink
                         (path_join tempDir
                            (sanitize_title (title (videoDetails info)) +:+ "_audio_"
                             +:+ sessionId +:+ ".m4a"))] else [])
                   ++ (if b3 then [EvUnlink
                         (path_join tempDir
                            (sanitize_title (title (videoDetails info)) +:+ "_merged_"
                             +:+ sessionId +:+ ".mp4"))] else [])
                   ++ [EvSet sessionId (error_record "No video-only formats found")])
        as (b1 & b2 & b3 & ->)
  end.
  { eexists _, _, _. trace_closed_form. reflexivity. }
  split; [|split].
  - do 6 right. left.
  - repeat first [ exact I | apply Forall_nil | apply Forall_cons; split; [reflexivity|]
                 | apply Forall_app; split | apply Forall_unlink_if; reflexivity ].
  - project. set_solver.
Qed.

Lemma merge_without_video_only_fails_witness :
  let s' :=
    run (download_handler sample_validateURL "temp" "sid1"
           (sample_request (JStr "mp4") (JStr "ffmpeg-best")) combined_only_world)
      initial_server in
  downloadProgress s' !! "sid1" = Some (error_record "No video-only formats found")
  /\ EvReject SelectFormat "No video-only formats found" ∈ new_events initial_server s'
  /\ Forall (fun e => opens_stream e = false) (new_events initial_server s')
  /\ disk s' ⊆ disk initial_server.
Proof.
  apply (merge_without_video_only_fails sample_validateURL "temp" "sid1"
           (sample_request (JStr "mp4") (JStr "ffmpeg-best")) combined_only_world
           initial_server combined_only_info); try reflexivity.
  intros f Hf Hv.
  apply elem_of_cons in Hf as [->|Hf]; [reflexivity|].
  apply elem_of_cons in Hf as [->|Hf]; [reflexivity|].
  by apply elem_of_nil in Hf.
Defined.

(** ** The life of a served file *)

Lemma fire_timer_present n s path sessionId :
  timers s !! n = Some (path, sessionId) ->
  path ∈ disk s ->
  run (fire_timer n) s
  = log (EvDelete sessionId)
      (with_progress (delete sessionId (downloadProgress s))
         (remove_file path (with_timers (delete n (timers s)) s))).
Proof.
  intros Hn Hdisk. unfold run, fire_timer. rewrite Hn.
  unfold cleanup_callback, bind, existsSync, unlinkSync, present. simpl.
  rewrite !bool_decide_eq_true_2 by done. reflexivity.
Qed.

(** X14: a file that is ready is deleted one minute after a successful
    transfer, with the session's entry: GET /api/file/:sessionId schedules
    one timer and leaves the file ready for further requests; when that
    timer fires, the file is off the disk and the entry is gone, so that
    the file route answers 404 and the progress route answers
    [{status: 'not_found'}] from then on. *)
Theorem served_file_expires (s : server) (sessionId path : string) (filename : jsval) :
  file_ready s sessionId path filename ->
  let s1 := run (file_handler sessionId true) s in
  let s2 := run (fire_timer (length (timers s))) s1 in
  timers s1 = timers s ++ [(path, sessionId)]
  /\ file_ready s1 sessionId path filename
  /\ (path ∉ disk s2)
  /\ downloadProgress s2 !! sessionId = None
  /\ timers s2 = timers s
  /\ (forall transferred,
        trace (run (file_handler sessionId transferred) s2)
        = trace s2 ++ [not_ready_response])
  /\ trace (run (progress_handler sessionId) s2) = trace s2 ++ [not_found_response].
Proof.
  intros Hready s1 s2.
  assert (s1 = log (EvTimer path sessionId)
                 (with_timers
                    (timers s ++ [(path, sessionId)])
                    (log (EvResponse {| status_code := 200;
                                        res_body := BDownload (JStr path) filename |}) s)))
    as Hs1.
  { subst s1. by rewrite (file_handler_ready _ _ _ _ true Hready). }
  assert (timers s1 = timers s ++ [(path, sessionId)]) as Ht1 by by rewrite Hs1.
  assert (disk s1 = disk s) as Hd1 by by rewrite Hs1.
  assert (downloadProgress s1 = downloadProgress s) as Hp1 by by rewrite Hs1.
  assert (file_ready s1 sessionId path filename) as Hready1.
  { destruct Hready as (record & Hrec & Hrest). exists record.
    by rewrite Hp1, Hd1. }
  assert (timers s1 !! length (timers s) = Some (path, sessionId)) as Hn.
  { rewrite Ht1. by apply list_lookup_middle. }
  assert (path ∈ disk s1) as Hin.
  { destruct Hready1 as (record & _ & _ & _ & _ & Hin). exact Hin. }
  assert (downloadProgress s2 !! sessionId = None) as Hgone.
  { subst s2. rewrite (fire_timer_present _ _ _ _ Hn Hin). simpl.
    apply lookup_delete_eq. }
  split; [exact Ht1|]. split; [exact Hready1|].
  split; [|split; [exact Hgone|split; [|split]]].
  - subst s2. rewrite (fire_timer_present _ _ _ _ Hn Hin). simpl. set_solver.
  - subst s2. rewrite (fire_timer_present _ _ _ _ Hn Hin). simpl.
    rewrite Ht1. by rewrite delete_middle, app_nil_r.
  - intros transferred. unfold run, file_handler, bind, progress_get. simpl.
    by rewrite Hgone.
  - unfold run, progress_handler, bind, progress_get. simpl. by rewrite Hgone.
Qed.

Lemma served_file_expires_witness :
  let s :=
    run (download_handler sample_validateURL "temp" "sid1"
           (sample_request (JStr "mp3") JUndefined) sample_world)
      initial_server in
  let s1 := run (file_handler "sid1" true) s in
  let s2 := run (fire_timer (length (timers s))) s1 in
  timers s1 = timers s ++ [("temp/My_clip_sid1.mp3", "sid1")]
  /\ file_ready s1 "sid1" "temp/My_clip_sid1.mp3" (JStr "My_clip.mp3")
  /\ ("temp/My_clip_sid1.mp3" ∉ disk s2)
  /\ downloadProgress s2 !! "sid1" = None
  /\ timers s2 = timers s
  /\ (forall transferred,
        trace (run (file_handler "sid1" transferred) s2)
        = trace s2 ++ [not_ready_response])
  /\ trace (run (progress_handler "sid1") s2) = trace s2 ++ [not_found_response].
Proof.
  apply (served_file_expires
           (run (download_handler sample_validateURL "temp" "sid1"
                   (sample_request (JStr "mp3") JUndefined) sample_world)
              initial_server)
           "sid1" "temp/My_clip_sid1.mp3" (JStr "My_clip.mp3")).
  exists (completed_record "Download completed!" "temp/My_clip_sid1.mp3" "My_clip.mp3").
  split; [reflexivity|]. split; [reflexivity|]. split; [reflexivity|].
  split; [reflexivity|].
  apply (bool_decide_unpack _). reflexivity.
Defined.

(** X15: a cleanup timer that finds its file gone does nothing: the
    progress map, the disk and the trace stay as they are, and the
    session's entry is not removed. *)
Theorem stale_timer_does_nothing (s : server) (n : nat) (path sessionId : string) :
  timers s !! n = Some (path, sessionId) ->
  path ∉ disk s ->
  let s' := run (fire_timer n) s in
  downloadProgress s' = downloadProgress s
  /\ disk s' = disk s
  /\ trace s' = trace s
  /\ timers s' = delete n (timers s).
Proof.
  intros Hn Hout. unfold run, fire_timer. rewrite Hn.
  unfold cleanup_callback, bind, existsSync, present. simpl.
  by rewrite bool_decide_eq_false_2.
Qed.

(** ** One response per request *)

Lemma responses_app l1 l2 : responses (l1 ++ l2) = responses l1 ++ responses l2.
Proof. apply omap_app. Qed.

Lemma responses_session_events sessionId l :
  Forall (session_event sessionId) l -> responses l = [].
Proof.
  induction 1 as [|e l He _ IH]; [done|].
  destruct e; simpl in *; try done.
Qed.

Lemma responses_deletes keys : responses (EvDelete <$> keys) = [].
Proof. induction keys as [|k keys IH]; [done|]. exact IH. Qed.

Ltac new_events_go :=
  erewrite new_events_app; [|simpl; rewrite <- ?app_assoc; reflexivity].

(** X16: every handler of an HTTP request sends exactly one response,
    for every request and every behaviour of ytdl, the streams and
    ffmpeg; a cleanup timer and the hourly sweep send none. *)
Theorem one_response_per_request (validateURL : jsval -> bool) (tempDir : string)
    (s : server) (a : action) :
  length (responses (new_events s (step validateURL tempDir s a)))
  = if is_request a then 1%nat else 0%nat.
Proof.
  destruct a as [|sid|req result|req result|sid req w|sid transferred|n|now];
    unfold step, handle; simpl is_request.
  - unfold run, health_handler. by new_events_go.
  - unfold run, progress_handler, bind, progress_get. by new_events_go.
  - unfold run, debug_handler, try_catch, bind, getInfo.
    destruct (validateURL (body_url req)); simpl; [|by new_events_go].
    destruct result; simpl; by new_events_go.
  - unfold run, info_handler, try_catch, bind, getInfo.
    destruct (validateURL (body_url req)); simpl; [|by new_events_go].
    destruct result; simpl; by new_events_go.
  - destruct (validateURL (body_url req)) eqn:Hvalid.
    + destruct (download_outcome validateURL tempDir sid req w s Hvalid)
        as (body & Htrace & Hevents & _).
      rewrite (new_events_app _ _ _ Htrace). simpl.
      by rewrite (responses_session_events sid body Hevents).
    + unfold run, download_handler, try_catch. rewrite Hvalid. simpl.
      by new_events_go.
  - unfold run, file_handler, bind, progress_get. simpl.
    destruct (downloadProgress s !! sid) as [record|]; [|by new_events_go].
    destruct (is_str (field record "status") "completed"); simpl; [|by new_events_go].
    destruct (field record "filePath"); simpl; try by new_events_go.
    unfold existsSync. simpl. destruct (present _ s); simpl; [|by new_events_go].
    destruct transferred; simpl; by new_events_go.
  - destruct (fire_timer_cases n s)
      as [[[_ Hsame]|(path & sid & _ & _ & _ & _ & Ht)]
         |(path & sid & _ & _ & _ & _ & Ht)].
    + rewrite Hsame. unfold new_events. by rewrite drop_all.
    + unfold new_events. by rewrite Ht, drop_all.
    + by rewrite (new_events_app _ _ _ Ht).
  - destruct (sweep_trace now s) as [keys Ht].
    rewrite (new_events_app _ _ _ Ht). by rewrite responses_deletes.
Qed.

(** ** Failures of ytdl.getInfo on the information routes *)

(** X17: when ytdl.getInfo rejects on a valid url, POST /api/info answers
    500 with the error's message as [details], POST /api/debug answers
    500 with the message as [error]; neither changes the progress map,
    the disk or the timers. *)
Theorem fetch_failure_reported (validateURL : jsval -> bool) (req : request_body)
    (message : string) (s : server) :
  validateURL (body_url req) = true ->
  let s1 := run (info_handler validateURL req (FetchFailed message)) s in
  let s2 := run (debug_handler validateURL req (FetchFailed message)) s in
  trace s1
  = trace s
    ++ [EvBegin GetInfo; EvReject GetInfo message;
        EvResponse {| status_code := 500; res_body := BInfoFailed message |}]
  /\ trace s2
     = trace s
       ++ [EvBegin GetInfo; EvReject GetInfo message;
           EvResponse {| status_code := 500; res_body := BError message |}]
  /\ (downloadProgress s1, disk s1, timers s1) = (downloadProgress s, disk s, timers s)
  /\ (downloadProgress s2, disk s2, timers s2) = (downloadProgress s, disk s, timers s).
Proof.
  intros Hvalid.
  unfold run, info_handler, debug_handler, try_catch, bind, getInfo.
  rewrite Hvalid. simpl. by rewrite <- !app_assoc.
Qed.

Lemma fetch_failure_reported_witness :
  let s1 :=
    run (info_handler sample_validateURL (sample_request JUndefined JUndefined)
           (FetchFailed "Video unavailable")) initial_server in
  let s2 :=
    run (debug_handler sample_validateURL (sample_request JUndefined JUndefined)
           (FetchFailed "Video unavailable")) initial_server in
  trace s1
  = trace initial_server
    ++ [EvBegin GetInfo; EvReject GetInfo "Video unavailable";
        EvResponse {| status_code := 500; res_body := BInfoFailed "Video unavailable" |}]
  /\ trace s2
     = trace initial_server
       ++ [EvBegin GetInfo; EvReject GetInfo "Video unavailable";
           EvResponse {| status_code := 500; res_body := BError "Video unavailable" |}]
  /\ (downloadProgress s1, disk s1, timers s1)
     = (downloadProgress initial_server, disk initial_server, timers initial_server)
  /\ (downloadProgress s2, disk s2, timers s2)
     = (downloadProgress initial_server, disk initial_server, timers initial_server).
Proof.
  apply (fetch_failure_reported sample_validateURL (sample_request JUndefined JUndefined)
           "Video unavailable" initial_server).
  reflexivity.
Defined.

(** ** A download touches its own session only *)

Ltac other_paths Hne path tempDir sid :=
  repeat match goal with
         | |- context [path_join tempDir (?t +:+ ?k +:+ sid +:+ ?e)] =>
             lazymatch goal with
             | H : path <> path_join tempDir (t +:+ k +:+ sid +:+ e) |- _ => fail
             | _ => pose proof (Hne t k e)
             end
         end.

Lemma download_disk_frame validateURL tempDir sessionId req w s :
  validateURL (body_url req) = true ->
  let s' := run (download_handler validateURL tempDir sessionId req w) s in
  timers s' = timers s
  /\ exists d,
       disk s' = d
       /\ forall path, includes sessionId path = false -> path ∈ d <-> path ∈ disk s.
Proof.
  intros Hvalid.
  apply (wp_run _ (fun s' =>
           timers s' = timers s
           /\ exists d,
                disk s' = d
                /\ forall path,
                     includes sessionId path = false -> path ∈ d <-> path ∈ disk s)).
  unfold download_handler. rewrite Hvalid. simpl negb.
  wp_go.
  all: split; [project; reflexivity|].
  all: eexists; split; [project; reflexivity|].
  all: intros path Hpath.
  all: assert (forall title kind ext,
                  path <> path_join tempDir (title +:+ kind +:+ sessionId +:+ ext))
         as Hne
         by (intros ? ? ? ->; rewrite includes_session_path in Hpath; discriminate).
  all: other_paths Hne path tempDir sessionId; clear Hne.
  all: set_solver.
Qed.

(** X18: a download changes nothing that belongs to another session: the
    entries of the other session ids, the pending timers, and every file
    whose name does not contain the download's session id are after the
    handler what they were before it. *)
Theorem download_is_isolated (validateURL : jsval -> bool) (tempDir sessionId : string)
    (req : request_body) (w : world) (s : server) :
  let s' := run (download_handler validateURL tempDir sessionId req w) s in
  timers s' = timers s
  /\ (forall k, k <> sessionId -> downloadProgress s' !! k = downloadProgress s !! k)
  /\ (forall path, includes sessionId path = false -> path ∈ disk s' <-> path ∈ disk s).
Proof.
  intros s'. split; [|split].
  - destruct (validateURL (body_url req)) eqn:Hvalid.
    + apply (download_disk_frame validateURL tempDir sessionId req w s Hvalid).
    + subst s'. unfold run, download_handler, try_catch. by rewrite Hvalid.
  - intros k Hk.
    exact (keeps_download_handler validateURL tempDir sessionId req w k Hk s).
  - destruct (validateURL (body_url req)) eqn:Hvalid.
    + destruct (download_disk_frame validateURL tempDir sessionId req w s Hvalid)
        as (_ & d & <- & H). exact H.
    + subst s'. unfold run, download_handler, try_catch. by rewrite Hvalid.
Qed.

Lemma stale_timer_does_nothing_witness :
  let s' := run (fire_timer 0) expired_state in
  downloadProgress s' = downloadProgress expired_state
  /\ disk s' = disk expired_state
  /\ trace s' = trace expired_state
  /\ timers s' = delete 0%nat (timers expired_state).
Proof.
  apply (stale_timer_does_nothing expired_state 0 "temp/My_clip_sid1.mp3" "sid1").
  - reflexivity.
  - apply (bool_decide_unpack _). reflexivity.
Defined.

(** ** The hourly sweep *)

(** X19: in every state the server can reach, the hourly sweep changes
    nothing at all: no record carries the [timestamp] the sweep tests, so
    no entry is ever removed for its age. *)
Theorem sweep_is_idle (validateURL : jsval -> bool) (tempDir : string) (s : server)
    (now : Z) :
  reachable validateURL tempDir s ->
  step validateURL tempDir s (Sweep now) = s.
Proof.
  intros Hs. destruct (reachable_invariant _ _ _ Hs) as [Hmap _].
  unfold step, handle, run, sweep.
  assert (filter (fun kv : string * gmap string jsval =>
                    expired (now - 60 * 60 * 1000) kv.2 = true) (downloadProgress s)
          = ∅) as ->.
  { apply map_empty. intros k. apply map_lookup_filter_None. right.
    intros record Hk Hexpired.
    destruct (Hmap k record Hk) as [[_ Htime] _].
    simpl in Hexpired. unfold expired, field in Hexpired.
    rewrite Htime in Hexpired. discriminate. }
  by rewrite map_to_list_empty.
Qed.

Lemma sweep_is_idle_witness :
  step sample_validateURL "temp" served_state (Sweep 4102444800000) = served_state.
Proof.
  apply (sweep_is_idle sample_validateURL "temp" served_state 4102444800000).
  apply reachable_step, reachable_step, reachable_init.
Defined.

(** ** What POST /api/info counts *)

Lemma length_videoFormats fs :
  length (videoFormats fs)
  = Nat.min (length (combinedFormats fs) + length (videoOnlyFormats fs)) 15.
Proof.
  unfold videoFormats. rewrite length_take, length_js_sort.
  unfold allFormats. rewrite length_app. lia.
Qed.

Lemma length_audioFormats fs :
  length (audioFormats fs)
  = Nat.min (length (filter (fun f => is_audio_only f = true) fs)) 5.
Proof.
  unfold audioFormats. rewrite length_take, length_js_sort, length_fmap. lia.
Qed.

(** X20: the answer of POST /api/info to a valid url lists the three
    presets and then as many video options as the video has mp4 combined
    and mp4 video-only formats, up to 15; its [debug] counters give the
    numbers of all such formats, while [audioOnlyFormats] gives the number
    of listed audio options, which is capped at 5. *)
Theorem info_counts (validateURL : jsval -> bool) (s : server) (req : request_body)
    (info : video_info) :
  validateURL (body_url req) = true ->
  let fs := formats info in
  let combined := length (filter (fun f => is_combined_mp4 f = true) fs) in
  let video_only := length (filter (fun f => is_video_only_mp4 f = true) fs) in
  let audio_only := length (filter (fun f => is_audio_only f = true) fs) in
  exists r,
    trace (run (info_handler validateURL req (Fetched info)) s)
    = trace s ++ [EvBegin GetInfo; EvEnd GetInfo;
                  EvResponse {| status_code := 200; res_body := BInfo r |}]
    /\ ir_debug r = (length fs, combined, video_only, Nat.min audio_only 5)
    /\ length (ir_videoFormats r) = (3 + Nat.min (combined + video_only) 15)%nat
    /\ length (ir_audioFormats r) = Nat.min audio_only 5.
Proof.
  intros Hvalid fs combined video_only audio_only.
  eexists. split.
  { unfold run, info_handler, try_catch, bind. rewrite Hvalid. simpl.
    rewrite <- !app_assoc. reflexivity. }
  assert (length (combinedFormats fs) = combined) as Hc
    by (unfold combinedFormats; by rewrite length_fmap).
  assert (length (videoOnlyFormats fs) = video_only) as Hv
    by (unfold videoOnlyFormats; by rewrite length_fmap).
  cbn [ir_debug ir_videoFormats ir_audioFormats length].
  change (formats info) with fs.
  rewrite length_videoFormats, length_audioFormats, Hc, Hv. done.
Qed.

Lemma info_counts_witness :
  exists r,
    trace (run (info_handler sample_validateURL (sample_request JUndefined JUndefined)
                  (Fetched sample_info)) initial_server)
    = trace initial_server
      ++ [EvBegin GetInfo; EvEnd GetInfo;
          EvResponse {| status_code := 200; res_body := BInfo r |}]
    /\ ir_debug r = (4, 1, 2, 1)%nat
    /\ length (ir_videoFormats r) = 6%nat
    /\ length (ir_audioFormats r) = 1%nat.
Proof.
  apply (info_counts sample_validateURL initial_server
           (sample_request JUndefined JUndefined) sample_info).
  reflexivity.
Defined.

(** X21: when the video has at most 15 mp4 combined and video-only
    formats, every one of them is offered exactly once; and with at most
    5 audio-only formats every one of them is offered exactly once. *)
Theorem info_offers_every_format (fs : list format) :
  ((length (filter (fun f => is_combined_mp4 f = true) fs)
    + length (filter (fun f => is_video_only_mp4 f = true) fs) <= 15)%nat ->
   videoFormats fs
   ≡ₚ (to_combined <$> filter (fun f => is_combined_mp4 f = true) fs)
      ++ (to_video_only <$> filter (fun f => is_video_only_mp4 f = true) fs))
  /\ ((length (filter (fun f => is_audio_only f = true) fs) <= 5)%nat ->
      audioFormats fs ≡ₚ to_audio_option <$> filter (fun f => is_audio_only f = true) fs).
Proof.
  split; intros Hlen.
  - unfold videoFormats. rewrite take_ge.
    + apply js_sort_perm.
    + rewrite length_js_sort. unfold allFormats, combinedFormats, videoOnlyFormats.
      rewrite length_app, !length_fmap. lia.
  - unfold audioFormats. rewrite take_ge.
    + apply js_sort_perm.
    + by rewrite length_js_sort, length_fmap.
Qed.

(** ** The progress of a successful download *)










Lemma banded_app lo1 hi1 lo2 hi2 l1 l2 :
  lo1 <= hi1 -> hi1 <= lo2 -> lo2 <= hi2 ->
  banded lo1 hi1 l1 -> banded lo2 hi2 l2 -> banded lo1 hi2 (l1 ++ l2).
Proof.
  intros H1 H12 H2 [Hs1 Hb1] [Hs2 Hb2]. split.
  - apply StronglySorted_app_2; [|done|done].
    intros x y Hx Hy.
    apply (proj1 (Forall_forall _ _) Hb1) in Hx.
    apply (proj1 (Forall_forall _ _) Hb2) in Hy. lia.
  - apply Forall_app. split.
    + eapply Forall_impl; [exact Hb1|]. simpl. intros z Hz. lia.
    + eapply Forall_impl; [exact Hb2|]. simpl. intros z Hz. lia.
Qed.











(** * The client against the server *)

Lemma wire_record_field record name :
  field (wire_record record) name
  = match record !! name with
    | Some JUndefined | None => JUndefined
    | Some v => wire v
    end.
Proof.
  unfold field, wire_record. rewrite lookup_omap.
  by destruct (record !! name) as [[]|].
Qed.

Lemma data_field_info r :
  data_field (BInfo r) "success" = JBool true
  /\ data_field (BInfo r) "duration" = JStr (ir_duration r).
Proof. unfold data_field, body_fields. by rewrite !wire_record_field. Qed.

Lemma wire_record_lookup_str record name text :
  record !! name = Some (JStr text) -> field (wire_record record) name = JStr text.
Proof.
  intros H. unfold field, wire_record. by rewrite lookup_omap, H.
Qed.

Lemma data_field_status record st :
  record !! "status" = Some (JStr st) -> data_field (BJson record) "status" = JStr st.
Proof. apply wire_record_lookup_str. Qed.

Lemma responses_snoc l r : responses (l ++ [EvResponse r]) = responses l ++ [r].
Proof. by rewrite responses_app. Qed.

Lemma elem_of_info_events s validateURL req info e :
  validateURL (body_url req) = true ->
  e ∈ new_events s (run (info_handler validateURL req (Fetched info)) s) ->
  e = EvBegin GetInfo \/ e = EvEnd GetInfo
  \/ exists r, e = EvResponse {| status_code := 200; res_body := BInfo r |}
               /\ ir_videoFormats r = presetFormats ++ videoFormats (formats info)
               /\ ir_duration r = lengthSeconds (videoDetails info).
Proof.
  intros Hvalid.
  rewrite (new_events_app s _
             [EvBegin GetInfo; EvEnd GetInfo;
              EvResponse
                {| status_code := 200;
                   res_body :=
                     BInfo
                       {| ir_title := title (videoDetails info);
                          ir_duration := lengthSeconds (videoDetails info);
                          ir_thumbnail := thumbnail0_url (videoDetails info);
                          ir_uploader := author_name (videoDetails info);
                          ir_view_count := viewCount (videoDetails info);
                          ir_videoFormats := presetFormats ++ videoFormats (formats info);
                          ir_audioFormats := audioFormats (formats info);
                          ir_debug :=
                            (length (formats info), length (combinedFormats (formats info)),
                             length (videoOnlyFormats (formats info)),
                             length (audioFormats (formats info))) |} |}]).
  2:{ unfold run, info_handler, try_catch, bind. rewrite Hvalid. simpl.
      rewrite <- !app_assoc. reflexivity. }
  rewrite !elem_of_cons, elem_of_nil.
  intros [->|[->|[->|[]]]]; [by left | by right; left |].
  right. right. eexists. split; [reflexivity|]. by split.
Qed.

(** X23: after POST /api/info succeeded, the client has the first preset
    selected, whatever formats the video has; the download it then asks
    for, without a further choice of the user, is the FFmpeg merge of the
    best video-only format with the best audio. *)
Theorem default_download_is_best_merge (toISOString : jsval -> outcome string)
    (toLocaleString : jsval -> string) (undefined_length : string)
    (validateURL : jsval -> bool) (tempDir : string) (c : client) (info : video_info)
    (iso : string) (s : server) (code : Z) (data : body) :
  c_url c <> "" ->
  validateURL (JStr (c_url c)) = true ->
  toISOString (JStr (lengthSeconds (videoDetails info))) = Returned iso ->
  EvResponse {| status_code := code; res_body := data |}
    ∈ new_events s (run (info_handler validateURL (info_request c) (Fetched info)) s) ->
  let c' := handleGetInfo toISOString toLocaleString undefined_length (Json data) c in
  c_selectedFormat c' = JStr "ffmpeg-best"
  /\ c_error c' = ""
  /\ c_isLoading c' = false
  /\ forall sessionId w st,
       download_work tempDir sessionId (download_request c') w st
       = (info' <- getInfo (w_info w) ;;
          downloadAndMergeWithFFmpeg tempDir info'
            (sanitize_title (title (videoDetails info'))) sessionId true w) st.
Proof.
  intros Hurl Hvalid Hiso Hin c'.
  apply elem_of_info_events in Hin as [?|[?|(r & [= -> ->] & Hformats & Hduration)]];
    [discriminate..| | exact Hvalid].
  assert (c_selectedFormat c' = JStr "ffmpeg-best") as Hsel.
  { subst c'. unfold handleGetInfo.
    destruct (String.eqb_spec (c_url c) "") as [?|_]; [done|].
    destruct (data_field_info r) as [-> ->]. simpl negb.
    unfold formatDuration. rewrite Hduration, Hiso.
    simpl data_videoFormats. rewrite Hformats. reflexivity. }
  split; [exact Hsel|].
  assert (c_error c' = "" /\ c_isLoading c' = false) as [He Hl].
  { subst c'. unfold handleGetInfo.
    destruct (String.eqb_spec (c_url c) "") as [?|_]; [done|].
    destruct (data_field_info r) as [-> ->]. simpl negb.
    unfold formatDuration. rewrite Hduration, Hiso.
    simpl data_videoFormats. rewrite Hformats. by split. }
  split; [exact He|]. split; [exact Hl|].
  intros sessionId w st. unfold download_work, download_request.
  cbn [body_format body_itag]. rewrite Hsel. reflexivity.
Qed.

Lemma default_download_is_best_merge_witness :
  let c' :=
    handleGetInfo sample_toISOString template "Cannot read properties of undefined"
      (Json (BInfo {| ir_title := "My  clip!"; ir_duration := "10"; ir_thumbnail := None;
                      ir_uploader := None; ir_view_count := "1";
                      ir_videoFormats := presetFormats ++ videoFormats (formats sample_info);
                      ir_audioFormats := audioFormats (formats sample_info);
                      ir_debug := (4, 1, 2, 1)%nat |}))
      sample_client in
  c_selectedFormat c' = JStr "ffmpeg-best"
  /\ c_error c' = ""
  /\ c_isLoading c' = false
  /\ forall sessionId w st,
       download_work "temp" sessionId (download_request c') w st
       = (info' <- getInfo (w_info w) ;;
          downloadAndMergeWithFFmpeg "temp" info'
            (sanitize_title (title (videoDetails info'))) sessionId true w) st.
Proof.
  apply (default_download_is_best_merge sample_toISOString template
           "Cannot read properties of undefined" sample_validateURL "temp" sample_client
           sample_info "1970-01-01T00:00:10.000Z" initial_server 200).
  - discriminate.
  - reflexivity.
  - reflexivity.
  - apply (list_elem_of_lookup_2 _ 2). reflexivity.
Defined.

(** ** What the client can ask for *)

Lemma video_download_filename validateURL tempDir sessionId req w s :
  validateURL (body_url req) = true ->
  is_str (body_format req) "mp3" = false ->
  forall record,
    downloadProgress (run (download_handler validateURL tempDir sessionId req w) s)
      !! sessionId = Some record ->
    record !! "status" = Some (JStr "completed") ->
    exists name, record !! "filename" = Some (JStr (name +:+ ".mp4")).
Proof.
  intros Hvalid Hformat.
  apply (wp_run _ (fun s' =>
           forall record,
             downloadProgress s' !! sessionId = Some record ->
             record !! "status" = Some (JStr "completed") ->
             exists name, record !! "filename" = Some (JStr (name +:+ ".mp4")))).
  unfold download_handler. rewrite Hvalid. simpl negb.
  wp_go.
  all: intros record Hrec Hst; revert Hrec; project; intros [= <-].
  all: try discriminate Hst.
  - exists (sanitize_title (title (videoDetails info)) +:+ "_merged").
    by rewrite str_app_assoc.
  - by eexists.
Qed.

(** X24: the client never asks for the audio-only download: its request
    body has no [format], so whichever entry the user selects, the entries
    of the audio list included, a download that completes is recorded
    under a file name ending in [.mp4]. *)
Theorem client_download_is_video (validateURL : jsval -> bool) (tempDir sessionId : string)
    (c : client) (w : world) (s : server) (record : gmap string jsval) :
  validateURL (JStr (c_url c)) = true ->
  let s' := run (download_handler validateURL tempDir sessionId (download_request c) w) s in
  downloadProgress s' !! sessionId = Some record ->
  record !! "status" = Some (JStr "completed") ->
  body_format (download_request c) = JUndefined
  /\ exists name, record !! "filename" = Some (JStr (name +:+ ".mp4")).
Proof.
  intros Hvalid s' Hrec Hst. split; [reflexivity|].
  by apply (video_download_filename validateURL tempDir sessionId (download_request c) w s).
Qed.

Lemma client_download_is_video_witness :
  body_format (download_request (setSelectedFormat (JStr "140") sample_client)) = JUndefined
  /\ exists name,
       completed_record "Download completed!" "temp/My_clip_sid1.mp4" "My_clip.mp4"
         !! "filename" = Some (JStr (name +:+ ".mp4")).
Proof.
  apply (client_download_is_video sample_validateURL "temp" "sid1"
           (setSelectedFormat (JStr "140") sample_client) sample_world initial_server
           (completed_record "Download completed!" "temp/My_clip_sid1.mp4" "My_clip.mp4"));
    reflexivity.
Defined.

(** ** Polling *)

Lemma data_field_record record name :
  data_field (BJson record) name
  = match record !! name with
    | Some JUndefined | None => JUndefined
    | Some v => wire v
    end.
Proof. apply wire_record_field. Qed.

(** X25: the first poll after the work of an accepted download has ended
    stops the polling: the server answered the download request with the
    session id, the client polls that id, the record it receives is
    'completed' or 'error'; in the first case the client shows the link
    [/api/file/<session id>] and the file behind it is ready, in the
    second it shows the error message of the failed stage. *)
Theorem client_poll_settles (validateURL : jsval -> bool) (tempDir sessionId : string)
    (c : client) (w : world) (s : server) :
  truthy (c_selectedFormat c) = true ->
  validateURL (JStr (c_url c)) = true ->
  let s1 := run (download_handler validateURL tempDir sessionId (download_request c) w) s in
  let c1 := handleDownload (Json (BStarted sessionId)) c in
  started_response sessionId ∈ new_events s s1
  /\ c_interval c1 = Some (JStr sessionId)
  /\ exists record,
       trace (run (progress_handler sessionId) s1)
       = trace s1 ++ [EvResponse {| status_code := 200; res_body := BJson record |}]
       /\ let c2 := poll (JStr sessionId) (Json (BJson record)) c1 in
          c_interval c2 = None
          /\ c_isLoading c2 = false
          /\ ((c_downloadLink c2 = API_URL +:+ "/api/file/" +:+ sessionId
               /\ c_error c2 = ""
               /\ exists path, file_ready s1 sessionId path (field record "filename"))
              \/ (exists message,
                    c_error c2 = "Error during download: " +:+ message
                    /\ c_downloadLink c2 = c_downloadLink c
                    /\ record = error_record message)).
Proof.
  intros Hsel Hvalid s1 c1.
  destruct (download_outcome validateURL tempDir sessionId (download_request c) w s Hvalid)
    as (body & Htrace & _ & _ & Hcases).
  fold s1 in Htrace, Hcases.
  split.
  { rewrite (new_events_app _ _ _ Htrace). right. left. }
  assert (c1 = setInterval (Some (JStr sessionId))
                 (setStage (JStr "Initializing...")
                    (setProgress (JNum (Int 0)) (setError "" (setIsLoading true c)))))
    as Hc1.
  { subst c1. unfold handleDownload. by rewrite Hsel. }
  split; [by rewrite Hc1|].
  assert (exists record,
             downloadProgress s1 !! sessionId = Some record
             /\ ((record !! "status" = Some (JStr "completed"))
                 \/ exists message, record = error_record message))
    as (record & Hrec & Hkind).
  { destruct Hcases as [[_ (r & Hr & Hst & _)]|(pre & st & m & post & _ & _ & _ & Hr)].
    - exists r. split; [done|]. by left.
    - exists (error_record m). split; [done|]. right. by exists m. }
  exists record. split.
  { by rewrite (progress_known_session s1 sessionId record Hrec). }
  destruct Hkind as [Hst|[message ->]].
  - unfold poll. rewrite (data_field_status record "completed" Hst).
    cbn [is_str]. rewrite String.eqb_refl. rewrite Hc1.
    split; [reflexivity|]. split; [reflexivity|]. left.
    split; [reflexivity|]. split; [reflexivity|].
    destruct (completed_file_on_disk validateURL tempDir sessionId (download_request c)
                w s Hvalid record Hrec Hst) as (path & Hpath & Hdisk).
    exists path, record. done.
  - unfold poll. rewrite !data_field_record.
    change (error_record message !! "status") with (Some (JStr "error")).
    change (error_record message !! "error") with (Some (JStr message)).
    change (error_record message !! "stage") with (Some (JStr "Error occurred")).
    change (error_record message !! "progress") with (Some (JNum (Int 0))).
    cbn [wire is_str]. rewrite Hc1.
    split; [reflexivity|]. split; [reflexivity|]. right.
    exists message. done.
Qed.

Lemma client_poll_settles_witness :
  let c := setSelectedFormat (JStr "ffmpeg-best") sample_client in
  let s1 :=
    run (download_handler sample_validateURL "temp" "sid1" (download_request c)
           sample_world) initial_server in
  let c1 := handleDownload (Json (BStarted "sid1")) c in
  started_response "sid1" ∈ new_events initial_server s1
  /\ c_interval c1 = Some (JStr "sid1")
  /\ exists record,
       trace (run (progress_handler "sid1") s1)
       = trace s1 ++ [EvResponse {| status_code := 200; res_body := BJson record |}]
       /\ let c2 := poll (JStr "sid1") (Json (BJson record)) c1 in
          c_interval c2 = None
          /\ c_isLoading c2 = false
          /\ ((c_downloadLink c2 = API_URL +:+ "/api/file/" +:+ "sid1"
               /\ c_error c2 = ""
               /\ exists path, file_ready s1 "sid1" path (field record "filename"))
              \/ (exists message,
                    c_error c2 = "Error during download: " +:+ message
                    /\ c_downloadLink c2 = c_downloadLink c
                    /\ record = error_record message)).
Proof.
  apply (client_poll_settles sample_validateURL "temp" "sid1"
           (setSelectedFormat (JStr "ffmpeg-best") sample_client) sample_world
           initial_server); reflexivity.
Defined.

(** X26: for a url that fails validation, the client shows the server's
    'Invalid YouTube URL' after a download request, but the fixed text
    'Failed to get video info.' after an info request, whose 400 answer
    has no [details]; in both cases nothing is polled. *)
Theorem client_invalid_url (toISOString : jsval -> outcome string)
    (toLocaleString : jsval -> string) (undefined_length : string)
    (validateURL : jsval -> bool) (tempDir sessionId : string) (c : client)
    (result : fetched) (w : world) (s : server) (code1 code2 : Z) (data1 data2 : body) :
  c_url c <> "" ->
  truthy (c_selectedFormat c) = true ->
  validateURL (JStr (c_url c)) = false ->
  EvResponse {| status_code := code1; res_body := data1 |}
    ∈ new_events s (run (info_handler validateURL (info_request c) result) s) ->
  EvResponse {| status_code := code2; res_body := data2 |}
    ∈ new_events s
        (run (download_handler validateURL tempDir sessionId (download_request c) w) s) ->
  let c1 := handleGetInfo toISOString toLocaleString undefined_length (Json data1) c in
  let c2 := handleDownload (Json data2) c in
  c_error c1 = "Failed to get video info."
  /\ c_videoInfo c1 = None
  /\ c_isLoading c1 = false
  /\ c_error c2 = "Invalid YouTube URL"
  /\ c_interval c2 = c_interval c
  /\ c_isLoading c2 = false.
Proof.
  intros Hurl Hsel Hvalid Hin1 Hin2.
  assert (data1 = BError "Invalid YouTube URL") as ->.
  { revert Hin1.
    rewrite (new_events_app s _ [invalid_url_response]).
    2:{ unfold run, info_handler, try_catch. cbn [info_request body_url].
        by rewrite Hvalid. }
    rewrite list_elem_of_singleton. by intros [= _ ->]. }
  assert (data2 = BError "Invalid YouTube URL") as ->.
  { revert Hin2.
    rewrite (new_events_app s _ [invalid_url_response]).
    2:{ unfold run, download_handler, try_catch. cbn [download_request body_url].
        by rewrite Hvalid. }
    rewrite list_elem_of_singleton. by intros [= _ ->]. }
  cbv zeta. unfold handleGetInfo, handleDownload.
  destruct (String.eqb_spec (c_url c) "") as [?|_]; [done|].
  rewrite Hsel. done.
Qed.

Lemma client_invalid_url_witness :
  let c := setSelectedFormat (JStr "ffmpeg-best") (setUrl "not a url" initial_client) in
  let c1 :=
    handleGetInfo sample_toISOString template "Cannot read properties of undefined"
      (Json (BError "Invalid YouTube URL")) c in
  let c2 := handleDownload (Json (BError "Invalid YouTube URL")) c in
  c_error c1 = "Failed to get video info."
  /\ c_videoInfo c1 = None
  /\ c_isLoading c1 = false
  /\ c_error c2 = "Invalid YouTube URL"
  /\ c_interval c2 = c_interval c
  /\ c_isLoading c2 = false.
Proof.
  apply (client_invalid_url sample_toISOString template
           "Cannot read properties of undefined" sample_validateURL "temp" "sid1"
           (setSelectedFormat (JStr "ffmpeg-best") (setUrl "not a url" initial_client))
           (Fetched sample_info) sample_world initial_server 400 400).
  - discriminate.
  - reflexivity.
  - reflexivity.
  - apply (list_elem_of_lookup_2 _ 0). reflexivity.
  - apply (list_elem_of_lookup_2 _ 0). reflexivity.
Defined.

Lemma poll_not_found sessionId c :
  poll (JStr sessionId) (Json (BJson {[ "status" := JStr "not_found" ]})) c
  = setStage (JStr "") (setProgress (JNum (Int 0)) c).
Proof. reflexivity. Qed.

(** X27: a client that polls a session the server has no entry for is
    never released: every poll is answered [{status: 'not_found'}], which
    is neither 'completed' nor 'error', so after any number of polls the
    interval still runs and the loading flag is what it was. *)
Theorem client_polls_lost_session_forever (rounds : nat) (sessionId : string) (s : server)
    (c : client) :
  downloadProgress s !! sessionId = None ->
  let '(s', c') := poll_rounds rounds sessionId s c in
  c_interval c' = c_interval c
  /\ c_isLoading c' = c_isLoading c
  /\ c_downloadLink c' = c_downloadLink c
  /\ c_error c' = c_error c
  /\ downloadProgress s' = downloadProgress s.
Proof.
  revert s c. induction rounds as [|n IH]; intros s c Hnone; [done|].
  cbn [poll_rounds].
  assert (run (progress_handler sessionId) s = log not_found_response s) as ->.
  { unfold run, progress_handler, bind, progress_get. by rewrite Hnone. }
  rewrite trace_log. unfold not_found_response at 1.
  rewrite responses_snoc, last_snoc. cbn [res_body].
  rewrite poll_not_found.
  specialize (IH (log not_found_response s)
                (setStage (JStr "") (setProgress (JNum (Int 0)) c)) Hnone).
  destruct (poll_rounds n sessionId _ _) as [s' c']. exact IH.
Qed.

Lemma client_polls_lost_session_forever_witness :
  let '(s', c') :=
    poll_rounds 3 "sid1" initial_server
      (handleDownload (Json (BStarted "sid1"))
         (setSelectedFormat (JStr "ffmpeg-best") sample_client)) in
  c_interval c' = Some (JStr "sid1")
  /\ c_isLoading c' = true
  /\ c_downloadLink c' = ""
  /\ c_error c' = ""
  /\ downloadProgress s' = downloadProgress initial_server.
Proof.
  apply (client_polls_lost_session_forever 3 "sid1" initial_server
           (handleDownload (Json (BStarted "sid1"))
              (setSelectedFormat (JStr "ffmpeg-best") sample_client))).
  reflexivity.
Defined.

(** * The first version of the server and of the client *)












(** ** No handler throws *)



(** ** The statuses of a session *)

Lemma statuses_app l1 l2 : statuses (l1 ++ l2) = statuses l1 ++ statuses l2.
Proof. apply omap_app. Qed.

Lemma statuses_set sid r l :
  statuses (EvSet sid r :: l) = field r "status" :: statuses l.
Proof. reflexivity. Qed.

Lemma statuses_skip e l : status_written e = None -> statuses (e :: l) = statuses l.
Proof. intros H. unfold statuses. simpl. by rewrite H. Qed.

Lemma statuses_ticks_const {X} sid
    (g : X -> option (gmap string jsval) -> gmap string jsval) v current l :
  (forall x c, field (g x c) "status" = v) ->
  statuses (EvSet sid <$> tick_records g current l) = replicate (length l) v.
Proof.
  intros Hg. revert current. induction l as [|x l IH]; intros current; [done|].
  change (tick_records g current (x :: l))
    with (g x current :: tick_records g (Some (g x current)) l).
  rewrite fmap_cons, statuses_set, Hg, IH. reflexivity.
Qed.

Lemma statuses_ticks_keep {X} sid
    (g : X -> option (gmap string jsval) -> gmap string jsval) v r l :
  (forall x r', field (g x (Some r')) "status" = field r' "status") ->
  field r "status" = v ->
  statuses (EvSet sid <$> tick_records g (Some r) l) = replicate (length l) v.
Proof.
  intros Hg. revert r. induction l as [|x l IH]; intros r Hr; [done|].
  change (tick_records g (Some r) (x :: l))
    with (g x (Some r) :: tick_records g (Some (g x (Some r))) l).
  rewrite fmap_cons, statuses_set, Hg, Hr.
  rewrite (IH (g x (Some r))); [done|]. by rewrite Hg.
Qed.

Lemma statuses_unlink_if (b : bool) path :
  statuses (if b then [EvUnlink path] else []) = [].
Proof. by destruct b. Qed.

Lemma field_status_stream base ty r tick :
  field (stream_tick_record base ty (Some r) tick) "status" = field r "status".
Proof. unfold field. by rewrite status_stream_tick_record. Qed.

Lemma banded_replicate k n : banded k k (replicate n k).
Proof.
  split.
  - induction n as [|n IH]; simpl; constructor; [done|].
    apply Forall_replicate. lia.
  - apply Forall_replicate. lia.
Qed.

Lemma banded_nil lo hi : banded lo hi [].
Proof. split; constructor. Qed.

Lemma banded_weaken lo hi lo' hi' l :
  lo' <= lo -> hi <= hi' -> banded lo hi l -> banded lo' hi' l.
Proof.
  intros H1 H2 [Hs Hb]. split; [done|].
  eapply Forall_impl; [exact Hb|]. simpl. intros z Hz. lia.
Qed.

Lemma rank_running v :
  status_rank v <= 2 ->
  v ∈ [JStr "initializing"; JStr "downloading"; JStr "merging"].
Proof.
  unfold status_rank.
  destruct (is_str v "initializing") eqn:H0.
  { apply is_str_true in H0 as ->. intros _. by left. }
  destruct (is_str v "downloading") eqn:H1.
  { apply is_str_true in H1 as ->. intros _. right. by left. }
  destruct (is_str v "merging") eqn:H2.
  { apply is_str_true in H2 as ->. intros _. right. right. by left. }
  lia.
Qed.

Lemma banded_statuses l :
  banded 0 2 (status_rank <$> l) ->
  Forall (fun v => v ∈ [JStr "initializing"; JStr "downloading"; JStr "merging"]) l
  /\ StronglySorted (fun a b => status_rank a <= status_rank b) l.
Proof.
  intros [Hs Hb]. split.
  - rewrite Forall_fmap in Hb. eapply Forall_impl; [exact Hb|].
    intros v Hv. apply rank_running. unfold compose in Hv. lia.
  - clear Hb. induction l as [|a l IH]; [constructor|].
    rewrite fmap_cons in Hs. apply StronglySorted_cons in Hs as [Hall Hs].
    constructor; [by apply IH|].
    rewrite Forall_fmap in Hall. eapply Forall_impl; [exact Hall|].
    intros b Hb. exact Hb.
Qed.

Ltac status_step :=
  lazymatch goal with
  | |- context [statuses ?L] =>
      lazymatch L with
      | [] => change (statuses []) with (@nil jsval)
      | ?l1 ++ ?l2 => rewrite (statuses_app l1 l2)
      | (if ?b then [EvUnlink ?path] else []) => rewrite (statuses_unlink_if b path)
      | EvSet ?sid <$> tick_records ?g ?c ?l =>
          lazymatch g with
          | context [bytes_record] =>
              rewrite (statuses_ticks_const sid g (JStr "downloading") c l
                         (fun _ _ => eq_refl))
          | context [stream_tick_record] =>
              lazymatch c with
              | Some ?r =>
                  rewrite (statuses_ticks_keep sid g (JStr "downloading") r l
                             (fun x r' => field_status_stream _ _ r' x) eq_refl)
              end
          | context [merge_tick_record] =>
              rewrite (statuses_ticks_const sid g (JStr "merging") c l
                         (fun _ _ => eq_refl))
          end
      | EvSet ?sid ?r :: ?l =>
          rewrite (statuses_set sid r l);
          lazymatch r with
          | record3 ?st ?p ?sg => change (field r "status") with (JStr st)
          | completed_record _ _ _ => change (field r "status") with (JStr "completed")
          | error_record _ => change (field r "status") with (JStr "error")
          end
      | ?e :: ?l => rewrite (statuses_skip e l eq_refl)
      end
  end.

Ltac statuses_go := unfold initializing_record; repeat status_step.

Ltac split_at_last :=
  repeat first
    [ lazymatch goal with |- [_] = _ => apply split_here end
    | apply split_cons
    | apply split_app ].

Lemma banded_cons lo hi z l :
  lo <= z <= hi -> banded z hi l -> banded lo hi (z :: l).
Proof.
  intros Hz [Hs Hb]. split.
  - constructor; [done|]. eapply Forall_impl; [exact Hb|]. simpl. intros x Hx. lia.
  - constructor; [done|]. eapply Forall_impl; [exact Hb|]. simpl. intros x Hx. lia.
Qed.

Lemma banded_app_replicate lo hi z n l :
  lo <= z <= hi -> banded z hi l -> banded lo hi (replicate n z ++ l).
Proof.
  intros Hz Hl. induction n as [|n IH]; simpl.
  - apply (banded_weaken z hi); [lia | lia | done].
  - apply banded_cons; [done|].
    apply (banded_app z z z hi); [lia..| apply banded_replicate | done].
Qed.

Ltac ranks_go :=
  repeat first
    [ rewrite fmap_app | rewrite fmap_cons | rewrite fmap_replicate | rewrite fmap_nil ];
  change (status_rank (JStr "initializing")) with 0;
  change (status_rank (JStr "downloading")) with 1;
  change (status_rank (JStr "merging")) with 2;
  repeat first
    [ apply banded_nil
    | apply banded_cons; [lia|]
    | apply banded_app_replicate; [lia|] ].

Lemma statuses_banded validateURL tempDir sessionId req w s :
  validateURL (body_url req) = true ->
  let s' := run (download_handler validateURL tempDir sessionId req w) s in
  exists earlier final,
    statuses (new_events s s') = earlier ++ [JStr final]
    /\ (final = "completed" \/ final = "error")
    /\ head earlier = Some (JStr "initializing")
    /\ banded 0 2 (status_rank <$> earlier).
Proof.
  intros Hvalid.
  apply (wp_run _ (fun s' =>
           exists earlier final,
             statuses (new_events s s') = earlier ++ [JStr final]
             /\ (final = "completed" \/ final = "error")
             /\ head earlier = Some (JStr "initializing")
             /\ banded 0 2 (status_rank <$> earlier))).
  unfold download_handler. rewrite Hvalid. simpl negb.
  wp_go.
  all: trace_closed_form.
  all: statuses_go.
  all: cbn [app]; eexists _, _; split; [split_at_last|].
  all: split; [first [by left | by right]|].
  all: split; [reflexivity|].
  all: ranks_go.
Qed.

(** X30: the statuses written during a download move forward only:
    'initializing' first, then 'downloading', then 'merging' on the merge
    path, never back; a terminal status, 'completed' or 'error', is
    written exactly once, by the last write of the handler, whatever
    ytdl, the streams and ffmpeg do. *)
Theorem status_moves_forward (validateURL : jsval -> bool) (tempDir sessionId : string)
    (req : request_body) (w : world) (s : server) :
  validateURL (body_url req) = true ->
  let s' := run (download_handler validateURL tempDir sessionId req w) s in
  exists earlier final,
    statuses (new_events s s') = earlier ++ [JStr final]
    /\ (final = "completed" \/ final = "error")
    /\ head earlier = Some (JStr "initializing")
    /\ Forall (fun v => v ∈ [JStr "initializing"; JStr "downloading"; JStr "merging"])
         earlier
    /\ StronglySorted (fun a b => status_rank a <= status_rank b) earlier.
Proof.
  intros Hvalid s'.
  destruct (statuses_banded validateURL tempDir sessionId req w s Hvalid)
    as (earlier & final & Hst & Hfinal & Hhead & Hband).
  exists earlier, final.
  destruct (banded_statuses earlier Hband) as [Hrun Hsorted]. done.
Qed.

Lemma status_moves_forward_witness :
  let s' :=
    run (download_handler sample_validateURL "temp" "sid1"
           (sample_request (JStr "mp4") (JStr "ffmpeg-best")) broken_audio_world)
      initial_server in
  exists earlier final,
    statuses (new_events initial_server s') = earlier ++ [JStr final]
    /\ (final = "completed" \/ final = "error")
    /\ head earlier = Some (JStr "initializing")
    /\ Forall (fun v => v ∈ [JStr "initializing"; JStr "downloading"; JStr "merging"])
         earlier
    /\ StronglySorted (fun a b => status_rank a <= status_rank b) earlier.
Proof.
  apply (status_moves_forward sample_validateURL "temp" "sid1"
           (sample_request (JStr "mp4") (JStr "ffmpeg-best")) broken_audio_world
           initial_server).
  reflexivity.
Defined.
